(** * robotpy-wrapper: a shallow embedding of [src/robotpywrapper/robotpy.py]

    The script is a thin command line tool: it keeps a [configparser]
    configuration in the file [.robotpy] of the project directory, shells
    out to [pip] and to [robotpy_installer], and dispatches sub-commands.

    The embedding follows the script function by function.  Process-wide
    state (the globals [config], [packages], [verbose_level], the current
    working directory, the files the script looks at) is one record that
    is threaded through every function; [sys.exit] and uncaught Python
    exceptions are outcomes of their own.

    Modelling boundary (library behaviour that is taken as given):
    - [configparser.ConfigParser] is modelled as an insertion-ordered
      mapping from section names to insertion-ordered mappings from option
      names to strings, with its default [optionxform] (option names are
      lower-cased on every access).  Four things are outside this model:
      option defaults (a section [[DEFAULT]], whose options every section
      shows as its own); value interpolation (a value with a percent sign
      is expanded or rejected when it is read, and rejected when it is
      written in a form that cannot be expanded); lower-casing beyond the
      ASCII letters; and the text syntax of the file: a marker file is
      identified with the configuration it parses to.  The model is exact
      for a marker file without a section [[DEFAULT]] and without percent
      signs in its values, and for option names in ASCII; the hypotheses
      [no_defaults], [no_percent] and [ascii_only] restrict a statement
      to that.  Module [WithDefaults] gives the operations that clear a
      field on a parser object that has default options.
    - [argparse] is abstracted to its result, the parsed arguments.
    - Child processes are an oracle: the exit status and the output lines
      of a child are a function of the events that happened before it and
      of its argument vector. *)

From Stdlib Require Import String Ascii List Bool ZArith Lia Arith PeanoNat.
Import ListNotations.
Open Scope list_scope.
Open Scope string_scope.

(* ===================================================================== *)
(** ** Strings, as Python's [str] operations used by the script *)
(* ===================================================================== *)

Module PyStr.

(** [c.lower()] on one ASCII character. *)
Definition lower_ascii (c : ascii) : ascii :=
  let n := nat_of_ascii c in
  if (65 <=? n)%nat && (n <=? 90)%nat then ascii_of_nat (n + 32) else c.

(** [s.lower()] on the ASCII letters; other characters are left as they
    are, so this is [str.lower] on ASCII strings only. *)
Fixpoint lower (s : string) : string :=
  match s with
  | EmptyString => EmptyString
  | String c s' => String (lower_ascii c) (lower s')
  end.

(** [a < b] on strings: lexicographic on code points. *)
Definition lt (a b : string) : bool := String.ltb a b.

(** [c in s] for a one-character string [c]. *)
Fixpoint contains_char (c : ascii) (s : string) : bool :=
  match s with
  | EmptyString => false
  | String d s' => Ascii.eqb c d || contains_char c s'
  end.

(** [s.split(c)] for a one-character separator: never the empty list. *)
Fixpoint split_char (c : ascii) (s : string) : list string :=
  match s with
  | EmptyString => [EmptyString]
  | String d s' =>
      if Ascii.eqb c d then EmptyString :: split_char c s'
      else match split_char c s' with
           | h :: t => String d h :: t
           | [] => [String d EmptyString]
           end
  end.

(** [sep.join(parts)] for a one-character separator. *)
Fixpoint join_char (c : ascii) (parts : list string) : string :=
  match parts with
  | [] => EmptyString
  | [p] => p
  | p :: rest => p ++ String c (join_char c rest)
  end.

(** [s.split("==")]: non-overlapping occurrences, left to right. *)
Fixpoint split_eqeq (s : string) : list string :=
  match s with
  | EmptyString => [EmptyString]
  | String c s' =>
      let keep :=
        match split_eqeq s' with
        | h :: t => String c h :: t
        | [] => [String c EmptyString]
        end in
      match s' with
      | String d r =>
          if Ascii.eqb c "=" && Ascii.eqb d "="
          then EmptyString :: split_eqeq r
          else keep
      | EmptyString => keep
      end
  end.

(** [name in names] for a list of strings. *)
Definition mem (x : string) (l : list string) : bool :=
  existsb (String.eqb x) l.

End PyStr.

(* ===================================================================== *)
(** ** [configparser.ConfigParser], as the script uses it *)
(* ===================================================================== *)

Module ConfigParser.

(** The operations below are those of a parser object that has no
    default options, on values without percent signs (see the modelling
    boundary at the head of the file). *)

(** An insertion-ordered [dict] with string keys. *)
Definition dict (V : Type) := list (string * V).

Section Dict.
Context {V : Type}.

Fixpoint lookup (k : string) (d : dict V) : option V :=
  match d with
  | [] => None
  | (k', v) :: rest => if String.eqb k k' then Some v else lookup k rest
  end.

(** [d[k] = v]: an existing key keeps its position, a new one goes last. *)
Fixpoint store (k : string) (v : V) (d : dict V) : dict V :=
  match d with
  | [] => [(k, v)]
  | (k', v') :: rest =>
      if String.eqb k k' then (k, v) :: rest else (k', v') :: store k v rest
  end.

(** [del d[k]] (no effect when the key is absent). *)
Fixpoint remove (k : string) (d : dict V) : dict V :=
  match d with
  | [] => []
  | (k', v') :: rest =>
      if String.eqb k k' then rest else (k', v') :: remove k rest
  end.

Definition keys (d : dict V) : list string := map fst d.

Definition has_key (k : string) (d : dict V) : bool := PyStr.mem k (keys d).
End Dict.

(** The options of one section, and a whole configuration. *)
Definition options := dict string.
Definition t := dict options.

(** A parser that has read nothing. *)
Definition empty : t := [].

(** [optionxform]: the default lower-cases option names. *)
Definition optionxform (name : string) : string := PyStr.lower name.

(** [section in config] *)
Definition has_section (c : t) (section : string) : bool := has_key section c.

(** [name in config[section]] ([has_option]); default options, which
    the parser object would count in, are not modelled. *)
Definition has_option (c : t) (section name : string) : bool :=
  match lookup section c with
  | None => false
  | Some opts => has_key (optionxform name) opts
  end.

(** [config[section][name]], [None] standing for [KeyError]: the value
    as stored, which is what the parser object returns for a value
    without a percent sign. *)
Definition get (c : t) (section name : string) : option string :=
  match lookup section c with
  | None => None
  | Some opts => lookup (optionxform name) opts
  end.

(** [config[section][name] = value] on an existing section ([set]), for
    a value that the parser object accepts (one without a percent sign
    in particular). *)
Definition set (c : t) (section name value : string) : t :=
  match lookup section c with
  | None => c
  | Some opts => store section (store (optionxform name) value opts) c
  end.

(** [remove_option]: the option is dropped from an existing section. *)
Definition remove_option (c : t) (section name : string) : t :=
  match lookup section c with
  | None => c
  | Some opts => store section (remove (optionxform name) opts) c
  end.

(** [list(config[section])]: the option names of the section itself, in
    insertion order (the parser object would add those of the default
    options). *)
Definition option_names (c : t) (section : string) : list string :=
  match lookup section c with
  | None => []
  | Some opts => keys opts
  end.

(** [config[section].items()] *)
Definition items (c : t) (section : string) : list (string * string) :=
  match lookup section c with
  | None => []
  | Some opts => opts
  end.

(** [remove_section] *)
Definition remove_section (c : t) (section : string) : t := remove section c.

(** [config[section] = value] ([__setitem__]): an existing section is
    cleared in place, a missing one is added last; then [read_dict]
    stores the items one by one through [set] (values that [set]
    accepts). *)
Definition setitem (c : t) (section : string) (value : list (string * string)) : t :=
  let c0 := store section [] c in
  fold_left (fun acc kv => set acc section (fst kv) (snd kv)) value c0.

(** The representation invariant of a parser object: section names are
    distinct, and within a section the option names are distinct and
    already transformed by [optionxform]. *)
Definition wf_options (o : options) : Prop :=
  NoDup (keys o) /\ Forall (fun k => optionxform k = k) (keys o).

Definition wf (c : t) : Prop :=
  NoDup (keys c) /\ Forall (fun s => wf_options (snd s)) c.

End ConfigParser.

(* ===================================================================== *)
(** ** The process: globals, working directory, files, children *)
(* ===================================================================== *)

(** A directory or file, by the components of its absolute path; the
    filesystem root is the empty list. *)
Definition path := list string.

(** [os.path.dirname]: the root is its own parent. *)
Definition dirname (p : path) : path := removelast p.

Definition path_eqb (p q : path) : bool :=
  if list_eq_dec string_dec p q then true else false.

(** [os.path.join] of an absolute directory and a name, for messages. *)
Definition path_str (p : path) : string :=
  match p with
  | [] => "/"
  | _ => fold_right (fun part acc => "/" ++ part ++ acc) "" p
  end.

(** [subprocess.CompletedProcess]: exit status and output lines. *)
Record CompletedProcess := { returncode : Z; stdout : list string }.

(** What the process does to the outside, in order. *)
Inductive event :=
| EvRun (argv : list string) (capture_output : bool)  (* subprocess.run *)
| EvPrint (to_stderr : bool) (line : string)          (* print *)
| EvRead (dir : path)                                 (* config.read(".robotpy") *)
| EvWriteConfig (dir : path) (c : ConfigParser.t)     (* config.write to .robotpy *)
| EvWriteFile (file : path) (content : string)        (* open(file, "w").write *)
| EvMakedirs (dir : path).                            (* os.makedirs *)

Record World := mkWorld {
  cwd : path;                                   (* os.getcwd() *)
  files : list (path * string);                 (* regular files other than markers *)
  markers : list (path * ConfigParser.t);       (* directories with a .robotpy, parsed *)
  config : option ConfigParser.t;               (* the global [config] *)
  packages : option (ConfigParser.dict string); (* the global [packages] *)
  verbose_level : Z;                            (* the global [verbose_level] *)
  trace : list event
}.

Definition with_cwd (d : path) (w : World) : World :=
  mkWorld d (files w) (markers w) (config w) (packages w) (verbose_level w) (trace w).
Definition with_files (f : list (path * string)) (w : World) : World :=
  mkWorld (cwd w) f (markers w) (config w) (packages w) (verbose_level w) (trace w).
Definition with_markers (m : list (path * ConfigParser.t)) (w : World) : World :=
  mkWorld (cwd w) (files w) m (config w) (packages w) (verbose_level w) (trace w).
Definition with_config (c : option ConfigParser.t) (w : World) : World :=
  mkWorld (cwd w) (files w) (markers w) c (packages w) (verbose_level w) (trace w).
Definition with_packages (p : option (ConfigParser.dict string)) (w : World) : World :=
  mkWorld (cwd w) (files w) (markers w) (config w) p (verbose_level w) (trace w).
Definition with_verbose_level (v : Z) (w : World) : World :=
  mkWorld (cwd w) (files w) (markers w) (config w) (packages w) v (trace w).
Definition with_trace (t : list event) (w : World) : World :=
  mkWorld (cwd w) (files w) (markers w) (config w) (packages w) (verbose_level w) t.

Fixpoint path_lookup {V : Type} (p : path) (l : list (path * V)) : option V :=
  match l with
  | [] => None
  | (q, v) :: rest => if path_eqb p q then Some v else path_lookup p rest
  end.

(** The configuration stored in [dir/.robotpy], if that file exists. *)
Definition marker_at (w : World) (dir : path) : option ConfigParser.t :=
  path_lookup dir (markers w).

(** [os.path.isfile(".robotpy")] *)
Definition isfile_marker (w : World) : bool :=
  match marker_at w (cwd w) with Some _ => true | None => false end.

(** [os.path.isfile(name)] for another name, relative to the working directory. *)
Definition isfile (w : World) (name : string) : bool :=
  match path_lookup (cwd w ++ [name])%list (files w) with Some _ => true | None => false end.

(** [os.path.exists(p) and not os.path.isdir(p)] *)
Definition is_regular_file (w : World) (p : path) : bool :=
  match path_lookup p (files w) with Some _ => true | None => false end.

(** Python exceptions that the script can let escape. *)
Inductive exn :=
| KeyError (key : string)
| TypeError (what : string)
| ArgumentError (what : string)
| NameError (name : string).

(** How a piece of the script ends: normally, by [sys.exit], by an
    uncaught exception, or (for the model of a [while] loop only) with
    its iteration budget used up. *)
Inductive outcome (A : Type) :=
| Done (a : A) (w : World)
| Exit (code : Z) (w : World)
| Raise (e : exn) (w : World)
| OutOfFuel.
Arguments Done {A} a w.
Arguments Exit {A} code w.
Arguments Raise {A} e w.
Arguments OutOfFuel {A}.

Definition M (A : Type) := World -> outcome A.

Definition ret {A} (a : A) : M A := fun w => Done a w.

Definition bind {A B} (m : M A) (k : A -> M B) : M B :=
  fun w =>
    match m w with
    | Done a w' => k a w'
    | Exit code w' => Exit code w'
    | Raise e w' => Raise e w'
    | OutOfFuel => OutOfFuel
    end.

Declare Scope py_scope.
Delimit Scope py_scope with py.
Notation "x <- m ;; k" := (bind m (fun x => k))
  (at level 100, m at next level, right associativity) : py_scope.
Notation "m ;; k" := (bind m (fun _ => k))
  (at level 100, right associativity) : py_scope.
Open Scope py_scope.

Definition sys_exit {A} (code : Z) : M A := fun w => Exit code w.
Definition raise {A} (e : exn) : M A := fun w => Raise e w.
Definition log (e : event) : M unit :=
  fun w => Done tt (with_trace (trace w ++ [e]) w).

(** [for x in xs: body(x)] *)
Fixpoint for_each {A} (body : A -> M unit) (xs : list A) : M unit :=
  match xs with
  | [] => ret tt
  | x :: rest => body x ;; for_each body rest
  end.

(** The world left behind, however the run ended. *)
Definition final_world {A} (o : outcome A) : option World :=
  match o with
  | Done _ w | Exit _ w | Raise _ w => Some w
  | OutOfFuel => None
  end.

(* ===================================================================== *)
(** ** The mapping protocol on the global configuration object *)
(* ===================================================================== *)

(** The object the variable [config] refers to.  Every function obtains
    it from [load_config], so it is the global one. *)
Definition config_obj : M ConfigParser.t :=
  fun w =>
    match config w with
    | Some c => Done c w
    | None => Raise (TypeError "'NoneType' object is not subscriptable") w
    end.

Definition config_update (f : ConfigParser.t -> ConfigParser.t) : M unit :=
  c <- config_obj ;;
  fun w => Done tt (with_config (Some (f c)) w).

(** [section in config] *)
Definition cfg_contains (section : string) : M bool :=
  c <- config_obj ;; ret (ConfigParser.has_section c section).

(** [config[section]]: a live view of the section, named by the section. *)
Definition cfg_getitem (section : string) : M string :=
  c <- config_obj ;;
  if ConfigParser.has_section c section then ret section
  else raise (KeyError section).

(** [config[section] = value] *)
Definition cfg_setitem (section : string) (value : list (string * string)) : M unit :=
  config_update (fun c => ConfigParser.setitem c section value).

(** [del config[section]], for a section other than [[DEFAULT]] (which
    the parser object refuses to delete). *)
Definition cfg_delitem (section : string) : M unit :=
  c <- config_obj ;;
  if ConfigParser.has_section c section
  then config_update (fun c => ConfigParser.remove_section c section)
  else raise (KeyError section).

(** [name in proxy] *)
Definition proxy_contains (proxy name : string) : M bool :=
  c <- config_obj ;; ret (ConfigParser.has_option c proxy name).

(** [proxy[name]] *)
Definition proxy_getitem (proxy name : string) : M string :=
  c <- config_obj ;;
  match ConfigParser.get c proxy name with
  | Some v => ret v
  | None => raise (KeyError name)
  end.

(** [proxy[name] = value] *)
Definition proxy_setitem (proxy name value : string) : M unit :=
  config_update (fun c => ConfigParser.set c proxy name value).

(** [del proxy[name]], for an option of the section itself. *)
Definition proxy_delitem (proxy name : string) : M unit :=
  c <- config_obj ;;
  if ConfigParser.has_option c proxy name
  then config_update (fun c => ConfigParser.remove_option c proxy name)
  else raise (KeyError name).

(** [len(proxy)] *)
Definition proxy_len (proxy : string) : M nat :=
  c <- config_obj ;; ret (length (ConfigParser.option_names c proxy)).

(** [list(proxy)]: the option names a [for] loop over the view visits. *)
Definition proxy_iter (proxy : string) : M (list string) :=
  c <- config_obj ;; ret (ConfigParser.option_names c proxy).

(** [proxy.items()] *)
Definition proxy_items (proxy : string) : M (list (string * string)) :=
  c <- config_obj ;; ret (ConfigParser.items c proxy).

(** [[x for x in xs if cond(x)]] with a condition that may raise. *)
Fixpoint filter_m {A} (cond : A -> M bool) (xs : list A) : M (list A) :=
  match xs with
  | [] => ret []
  | x :: rest =>
      b <- cond x ;;
      kept <- filter_m cond rest ;;
      ret (if b then x :: kept else kept)
  end.

(** Characters that cannot be written inside a string literal here. *)
Definition nl : string := String (ascii_of_nat 10) "".
Definition dquote : string := String (ascii_of_nat 34) "".

(** The entry file that [initialize] scaffolds. *)
Definition robot_template : string :=
  "import wpilib" ++ nl ++ nl ++
  "class Robot(wpilib.TimedRobot):" ++ nl ++
  "    def robotInit(self) -> None:" ++ nl ++ "        pass" ++ nl ++ nl ++
  "    def robotPeriodic(self) -> None:" ++ nl ++ "        pass" ++ nl ++ nl ++
  "    def autonomousInit(self) -> None:" ++ nl ++ "        pass" ++ nl ++ nl ++
  "    def autonomousPeriodic(self) -> None:" ++ nl ++ "        pass" ++ nl ++ nl ++
  "    def teleopInit(self) -> None:" ++ nl ++ "        pass" ++ nl ++ nl ++
  "    def teleopPeriodic(self) -> None:" ++ nl ++ "        pass" ++ nl ++ nl ++ nl ++
  "if __name__ == " ++ dquote ++ "__main__" ++ dquote ++ ":" ++ nl ++
  "    wpilib.run(Robot)" ++ nl.

(** Parsed arguments of the built-in sub-commands ([argparse.Namespace]). *)
Record init_args := {
  init_directory : option path;   (* the positional directory, resolved *)
  init_main : string;             (* -m / --main, default robot.py *)
  init_bare : bool;               (* --bare *)
  init_host : option string;      (* --host / -t / --team *)
  init_git : bool;                (* --git / --no-git *)
  init_packages : list string     (* --with *)
}.
Record install_args := { install_download : bool; install_packages : list string }.
Record update_args := { update_download : bool; update_packages : list string }.
Record remove_args := { remove_packages : list string }.
Record deploy_args := { deploy_code : bool; deploy_lib : bool }.
Record config_args := {
  config_field : string; config_value : option string; config_clear : bool }.

(* ===================================================================== *)
(** ** The script *)
(* ===================================================================== *)

(** The surroundings of the process.  [child] gives the exit status and
    the output lines of a child process from what happened before it was
    started and its argument vector. *)
Record Host := {
  child : list event -> list string -> CompletedProcess;
  shlex_split : string -> list string;   (* shlex.split *)
  sys_executable : string;               (* sys.executable *)
  argv0 : string;                        (* os.path.basename(sys.argv[0]) *)
  help_text : string                     (* what parser.print_help prints *)
}.

Section Script.

Variable host : Host.

Definition subprocess_run (argv : list string) (capture_output : bool)
  : M CompletedProcess :=
  fun w =>
    Done (child host (trace w) argv)
         (with_trace (trace w ++ [EvRun argv capture_output]) w).

Definition python (args : list string) (capture_output : option bool)
  : M CompletedProcess :=
  fun w =>
    let capture :=
      match capture_output with
      | Some b => b
      | None => (verbose_level w <=? 1)%Z
      end in
    subprocess_run (sys_executable host :: args) capture w.

Definition rpinst (args : list string) : M CompletedProcess :=
  python ("-m" :: "robotpy_installer" :: args) None.

Definition is_robotpy_addon (name : string) : bool :=
  PyStr.mem name
    ["ctre"; "navx"; "photonvision"; "pathplannerlib"; "rev"; "apriltag";
     "commands2"; "commands-v2"; "cscore"; "romi"; "sim"].

Definition format_robotpy_addon (name : string) : string :=
  let name := if String.eqb name "commands2" then "commands-v2" else name in
  "robotpy-" ++ name.

Definition msg (m : string) (to_stderr : bool) : M unit :=
  fun w =>
    if ((verbose_level w <? 1)%Z && negb to_stderr) || (verbose_level w <? 0)%Z
    then Done tt w
    else log (EvPrint to_stderr (argv0 host ++ ": " ++ m)) w.

Definition warn (m : string) : M unit := msg ("warning: " ++ m) false.

Definition error (m : string) : M unit := msg ("error: " ++ m) true.

Definition fatal (m : string) : M unit :=
  msg ("fatal: " ++ m) true ;; sys_exit 1%Z.

Definition expect_result (result : CompletedProcess) (m : string) (absolute : bool)
  : M unit :=
  if negb (returncode result =? 0)%Z
  then (if absolute then fatal m else error m)
  else ret tt.

Definition chdir (d : path) : M unit := fun w => Done tt (with_cwd d w).

Definition getcwd : M path := fun w => Done (cwd w) w.

(** The [while] loop of [move_to_robotpy_dir], with an iteration budget. *)
Fixpoint move_loop (fuel : nat) : M unit :=
  fun w =>
    if isfile_marker w then Done tt w
    else
      match fuel with
      | O => OutOfFuel
      | S fuel' =>
          (here <- getcwd ;;
           chdir (dirname here) ;;
           now <- getcwd ;;
           (if path_eqb (dirname now) now
            then fatal "Current directory is not in a robotpy project"
            else ret tt) ;;
           move_loop fuel') w
      end.

(** One more iteration than the working directory is deep always suffices
    (lemma [move_loop_enough_fuel] below). *)
Definition move_to_robotpy_dir : M unit :=
  fun w => move_loop (S (length (cwd w))) w.

Definition load_config : M ConfigParser.t :=
  fun w =>
    match config w with
    | Some c => Done c w
    | None =>
        let c :=
          match marker_at w (cwd w) with
          | Some parsed => parsed
          | None => ConfigParser.empty
          end in
        Done c (with_config (Some c) (with_trace (trace w ++ [EvRead (cwd w)]) w))
    end.

(** [{req[0]: req[1] for req in splits if len(req) == 2}] *)
Definition freeze_dict (lines : list string) : ConfigParser.dict string :=
  fold_left
    (fun d req =>
       match req with
       | [name; version] => ConfigParser.store name version d
       | _ => d
       end)
    (map PyStr.split_eqeq lines) [].

Definition reload_packages : M (ConfigParser.dict string) :=
  res <- python ["-m"; "pip"; "freeze"] (Some true) ;;
  (if negb (returncode res =? 0)%Z
   then fatal "Couldn't load installed packages."
   else ret tt) ;;
  let reqs := freeze_dict (stdout res) in
  (fun w => Done reqs (with_packages (Some reqs) w)).

Definition load_packages (refresh : bool) : M (ConfigParser.dict string) :=
  fun w =>
    match packages w with
    | None => reload_packages w
    | Some p => if refresh then reload_packages w else Done p w
    end.

(** [d[key]] on a plain [dict]. *)
Definition dict_getitem (d : ConfigParser.dict string) (key : string) : M string :=
  match ConfigParser.lookup key d with
  | Some v => ret v
  | None => raise (KeyError key)
  end.

(** The last statement of the loop body of [install_package]:
    [if pkg not in config["requirements"] or
        config["requirements"][pkg] < packages[pkg]:
         config["requirements"][pkg] = packages[pkg]]. *)
Definition record_if_newer (packages : ConfigParser.dict string) (pkg : string)
  : M unit :=
  requirements <- cfg_getitem "requirements" ;;
  present <- proxy_contains requirements pkg ;;
  newer <-
    (if negb present then ret true
     else
       requirements <- cfg_getitem "requirements" ;;
       recorded <- proxy_getitem requirements pkg ;;
       installed <- dict_getitem packages pkg ;;
       ret (PyStr.lt recorded installed)) ;;
  if newer then
    installed <- dict_getitem packages pkg ;;
    requirements <- cfg_getitem "requirements" ;;
    proxy_setitem requirements pkg installed
  else ret tt.

(** The body of the [for] loop of [install_package]; [continue] ends it. *)
Definition install_one (download : bool) (pkg : string) : M unit :=
  msg ("Installing package '" ++ pkg ++ "'") false ;;
  res <- python ["-m"; "pip"; "install"; "--upgrade"; pkg] None ;;
  expect_result res "Installing package failed unexpectedly" false ;;
  if negb (returncode res =? 0)%Z then ret tt
  else if download then
    msg ("Downloading package '" ++ pkg ++ "' for robot installations") false ;;
    res <- rpinst ["download"; pkg] ;;
    expect_result res "Downloading package for remote use failed unexpectedly" false ;;
    if negb (returncode res =? 0)%Z then ret tt
    else
      packages <- load_packages true ;;
      record_if_newer packages pkg
  else ret tt.

Definition install_package (pkgs : list string) (download : bool) : M unit :=
  if (length pkgs =? 0)%nat then ret tt
  else
    load_config ;;
    for_each (install_one download) pkgs.

Definition expand_addons (names : list string) : list string :=
  map (fun name =>
         if is_robotpy_addon name then format_robotpy_addon name else name)
      names.

(** [os.path.isfile(".robotpy")], [os.path.isfile(name)] and
    [os.path.exists(p) and not os.path.isdir(p)] as actions. *)
Definition os_isfile_marker : M bool := fun w => Done (isfile_marker w) w.
Definition os_isfile (name : string) : M bool := fun w => Done (isfile w name) w.
Definition os_exists_not_dir (p : path) : M bool :=
  fun w => Done (is_regular_file w p) w.

Definition write_file (name content : string) : M unit :=
  fun w =>
    let file := (cwd w ++ [name])%list in
    Done tt (with_files ((file, content) :: files w)
               (with_trace (trace w ++ [EvWriteFile file content]) w)).

(** The global [packages], subscripted as [initialize] does. *)
Definition global_packages_getitem (key : string) : M string :=
  fun w =>
    match packages w with
    | None => Raise (TypeError "'NoneType' object is not subscriptable") w
    | Some p => dict_getitem p key w
    end.

(** The first part of [initialize]: resolve the target directory and
    change into it. *)
Definition enter_target (args : init_args) : M path :=
  target <-
    (match init_directory args with
     | Some directory =>
         not_dir <- os_exists_not_dir directory ;;
         (if not_dir
          then fatal "args.directory already exists but is not a directory"
          else ret tt) ;;
         log (EvMakedirs directory) ;;
         ret directory
     | None => getcwd
     end) ;;
  chdir target ;;
  ret target.

(** The rest of [initialize] ("Only do initialization work after this
    point"). *)
Definition initialize_project (target : path) (args : init_args) : M unit :=
  load_config ;;
  marker <- os_isfile_marker ;;
  (if marker then
     msg (path_str (target ++ [".robotpy"])%list ++
          " already exists. If you want to reset, delete the file an re-run `robotpy init`")
         false
   else
     version <- global_packages_getitem "robotpy" ;;
     cfg_setitem "requirements" [("robotpy", version)]) ;;
  cfg_setitem "execution" [("main", init_main args)] ;;
  (match init_host args with
   | Some hostname =>
       let auth := "[auth]" ++ nl ++ "hostname = " ++ hostname ++ nl in
       write_file ".deploy_cfg" auth ;;
       write_file ".installer_cfg" auth ;;
       cfg_setitem "auth" [("hostname", hostname)]
   | None => ret tt
   end) ;;
  (if negb (init_bare args) then
     present <- os_isfile (init_main args) ;;
     if present
     then error (init_main args ++ " already exists. Skipping main file creation.")
     else write_file (init_main args) robot_template
   else ret tt) ;;
  (if init_git args then subprocess_run ["git"; "init"] false ;; ret tt else ret tt) ;;
  msg "Downloading python for robot installation" false ;;
  res <- rpinst ["download-python"] ;;
  expect_result res "Downloading Python failed unexpectedly" true ;;
  msg "Downloading robotpy for robot installations" false ;;
  res <- rpinst ["download"; "robotpy"] ;;
  expect_result res "Downloading robotpy for remote use failed unexpectedly" true ;;
  install_package (expand_addons (init_packages args)) true.

Definition initialize (args : init_args) : M unit :=
  target <- enter_target args ;;
  initialize_project target args.

(** The body of the [for] loop of [remove]. *)
Definition remove_one (pkg : string) : M unit :=
  if String.eqb pkg "robotpy"
  then error "robotpy can't be removed from requirements"
  else
    requirements <- cfg_getitem "requirements" ;;
    present <- proxy_contains requirements pkg ;;
    if present then
      requirements <- cfg_getitem "requirements" ;;
      proxy_delitem requirements pkg
    else error ("'" ++ pkg ++ "' is not installed in this project").

Definition remove (args : remove_args) : M unit :=
  move_to_robotpy_dir ;;
  load_config ;;
  for_each remove_one (remove_packages args).

Definition install (args : install_args) : M unit :=
  move_to_robotpy_dir ;;
  install_package (expand_addons (install_packages args)) (install_download args).

(** [pkg in config["requirements"]] *)
Definition tracked (pkg : string) : M bool :=
  requirements <- cfg_getitem "requirements" ;;
  proxy_contains requirements pkg.

(** The packages [update] hands to [install_package]. *)
Definition update_selection (args : update_args) : M (list string) :=
  pkgs <-
    (if (length (update_packages args) =? 0)%nat then
       requirements <- cfg_getitem "requirements" ;;
       names <- proxy_iter requirements ;;
       ret ("robotpy" :: names)
     else ret (update_packages args)) ;;
  for_each
    (fun pkg =>
       known <- tracked pkg ;;
       if negb known then
         warn ("'" ++ pkg ++ "' is not a registered package. Use `robotpy install "
               ++ pkg ++ "` instead")
       else ret tt)
    pkgs ;;
  filter_m tracked pkgs.

Definition update (args : update_args) : M unit :=
  move_to_robotpy_dir ;;
  load_config ;;
  pkgs <- update_selection args ;;
  install_package pkgs (update_download args).

(** The condition of the list comprehension of [deploy]:
    [pkg not in deployed or deployed[pkg] < pkgs[pkg]]. *)
Definition needs_deploy (deployed pkgs pkg : string) : M bool :=
  present <- proxy_contains deployed pkg ;;
  if negb present then ret true
  else
    old <- proxy_getitem deployed pkg ;;
    new <- proxy_getitem pkgs pkg ;;
    ret (PyStr.lt old new).

(** The block of [deploy] under [if args.deploy_lib]. *)
Definition deploy_libraries : M unit :=
  deployed <- cfg_getitem "requirements.deployed" ;;
  pkgs <- cfg_getitem "requirements" ;;
  names <- proxy_iter pkgs ;;
  updates <- filter_m (needs_deploy deployed pkgs) names ;;
  if negb (length updates =? 0)%nat then
    msg "Package requirements updated since last deploy" false ;;
    msg "Updating packages on remote target" false ;;
    res <- rpinst ("install" :: updates) ;;
    expect_result res "Updating packages on remote target failed unexpectedly" true ;;
    source <- cfg_getitem "requirements" ;;
    snapshot <- proxy_items source ;;
    cfg_setitem "requirements.deployed" snapshot
  else ret tt.

(** The block of [deploy] under [if args.deploy_code]. *)
Definition deploy_robot_code : M unit :=
  execution <- cfg_getitem "execution" ;;
  entry <- proxy_getitem execution "main" ;;
  msg ("Deploying robot code (main: " ++ entry ++ ")") false ;;
  execution <- cfg_getitem "execution" ;;
  entry <- proxy_getitem execution "main" ;;
  res <- python [entry; "deploy"] None ;;
  expect_result res "Deploying robot code failed unexpectedly" true.

Definition deploy (args : deploy_args) : M unit :=
  move_to_robotpy_dir ;;
  load_config ;;
  (if deploy_lib args then deploy_libraries else ret tt) ;;
  (if deploy_code args then deploy_robot_code else ret tt).

Definition configure (args : config_args) : M unit :=
  move_to_robotpy_dir ;;
  load_config ;;
  let field := config_field args in
  if negb (PyStr.contains_char "." field) then
    error (field ++ " is not a valid config field") ;;
    sys_exit 1%Z
  else
    let parts := PyStr.split_char "." field in
    let group := PyStr.join_char "." (removelast parts) in
    let name := last parts "" in
    if PyStr.mem group ["requirements"; "requirements.deployed"] then
      error "Cannot change requirements using `config`. Use `robotpy install` instead." ;;
      sys_exit 1%Z
    else if config_clear args then
      has_group <- cfg_contains group ;;
      has_name <- (if has_group
                   then section <- cfg_getitem group ;; proxy_contains section name
                   else ret false) ;;
      if has_name then
        section <- cfg_getitem group ;;
        proxy_delitem section name ;;
        section <- cfg_getitem group ;;
        n <- proxy_len section ;;
        if (n =? 0)%nat then cfg_delitem group else ret tt
      else ret tt
    else
      match config_value args with
      | Some value =>
          has_group <- cfg_contains group ;;
          (if negb has_group then cfg_setitem group [] else ret tt) ;;
          section <- cfg_getitem group ;;
          proxy_setitem section name value
      | None =>
          has_group <- cfg_contains group ;;
          has_name <- (if has_group
                       then section <- cfg_getitem group ;; proxy_contains section name
                       else ret false) ;;
          if has_name then
            section <- cfg_getitem group ;;
            value <- proxy_getitem section name ;;
            log (EvPrint false value)
          else ret tt
      end.

(** *** The dispatcher *)

Inductive builtin_args :=
| Initialize (args : init_args)
| Install (args : install_args)
| Update (args : update_args)
| Remove (args : remove_args)
| Deploy (args : deploy_args)
| Configure (args : config_args).

(** A command line, as [argparse] sees it: none at all, a built-in
    sub-command with its parsed arguments, or another sub-command name
    with the words that follow it.  [verbose] is the level chosen by
    [-v], [-q] or [--silent] (default 1). *)
Inductive command_line :=
| NoArguments
| Builtin (verbose : Z) (args : builtin_args)
| Custom (verbose : Z) (name : string) (rest : list string).

Definition builtin_names : list string :=
  ["initialize"; "init"; "install"; "update"; "remove"; "deploy"; "config"].

(** The part of the frame of [main] that the registration loop writes:
    the loop variable [command], which every lambda refers to, and the
    names known to [subparsers]. *)
Record frame := { command : option string; registered : list string }.

(** One iteration of [for command in commands]: [add_parser] refuses a
    name that is taken (as [argparse] does since Python 3.11); the new
    parser gets the lambda as its [func]. *)
Definition register (f : frame) (name : string) : M frame :=
  if PyStr.mem name (registered f)
  then raise (ArgumentError ("conflicting subparser: " ++ name))
  else ret {| command := Some name; registered := (registered f ++ [name])%list |}.

Fixpoint register_all (f : frame) (names : list string) : M frame :=
  match names with
  | [] => ret f
  | name :: rest => f' <- register f name ;; register_all f' rest
  end.

(** The lambda [lambda args: subprocess.run(shlex.split(commands[command])
    + args.rest)].  Its free variables [commands] and [command] are
    variables of the frame of [main], read when the lambda is called. *)
Definition custom_func (f : frame) (rest : list string) : M unit :=
  match command f with
  | None => raise (NameError "command")
  | Some command =>
      line <- proxy_getitem "command" command ;;
      subprocess_run (shlex_split host line ++ rest)%list false ;;
      ret tt
  end.

Definition run_builtin (args : builtin_args) : M unit :=
  match args with
  | Initialize a => initialize a
  | Install a => install a
  | Update a => update a
  | Remove a => remove a
  | Deploy a => deploy a
  | Configure a => configure a
  end.

(** [config.write] into [.robotpy] of the working directory.  The file
    is identified with the configuration written: the text that
    [config.write] produces, and what [config.read] makes of it, are not
    modelled. *)
Definition write_config : M unit :=
  c <- config_obj ;;
  fun w =>
    Done tt (with_markers ((cwd w, c) :: markers w)
               (with_trace (trace w ++ [EvWriteConfig (cwd w) c]) w)).

Definition set_verbose_level (v : Z) : M unit :=
  fun w => Done tt (with_verbose_level v w).

Definition main (argv : command_line) : M unit :=
  match argv with
  | NoArguments =>
      log (EvPrint true (help_text host)) ;;
      sys_exit 1%Z
  | Builtin verbose args =>
      load_config ;;
      has_commands <- cfg_contains "command" ;;
      (if has_commands then
         commands <- cfg_getitem "command" ;;
         names <- proxy_iter commands ;;
         register_all {| command := None; registered := builtin_names |} names ;;
         ret tt
       else ret tt) ;;
      set_verbose_level verbose ;;
      run_builtin args ;;
      write_config
  | Custom verbose name rest =>
      load_config ;;
      has_commands <- cfg_contains "command" ;;
      f <- (if has_commands then
              commands <- cfg_getitem "command" ;;
              names <- proxy_iter commands ;;
              register_all {| command := None; registered := builtin_names |} names
            else ret {| command := None; registered := builtin_names |}) ;;
      (* parser.parse_args(): an unknown sub-command is a usage error *)
      (if PyStr.mem name (registered f) && negb (PyStr.mem name builtin_names)
       then ret tt
       else sys_exit 2%Z) ;;
      set_verbose_level verbose ;;
      custom_func f rest ;;
      write_config
  end.

End Script.

(* ===================================================================== *)
(** ** Vocabulary of the specification *)
(* ===================================================================== *)

(** A short name for the parser model. *)
Module CP := ConfigParser.

(** *** Project locator *)

(** [p], its parent, ..., the root: [n] steps up from [p]. *)
Fixpoint up (n : nat) (p : path) : list path :=
  match n with
  | O => [p]
  | S n' => p :: up n' (dirname p)
  end.

(** The directory [p] and all its ancestors, nearest first, root last. *)
Definition ancestors (p : path) : list path := up (length p) p.

Definition has_marker (w : World) (d : path) : bool :=
  match marker_at w d with Some _ => true | None => false end.

(** The nearest directory, from the working directory upwards and the
    filesystem root included, that holds a marker file. *)
Definition nearest_project (w : World) : option path :=
  find (has_marker w) (ancestors (cwd w)).

(** The directories the loop of [move_to_robotpy_dir] really tests: the
    working directory, and its ancestors short of the root. *)
Definition searched (p : path) : list path :=
  match p with
  | [] => [[]]
  | _ => removelast (ancestors p)
  end.

Definition not_in_project : string :=
  "Current directory is not in a robotpy project".

(** What the locator does, in closed form. *)
Definition search_result (host : Host) (w : World) : outcome unit :=
  match find (has_marker w) (searched (cwd w)) with
  | Some d => Done tt (with_cwd d w)
  | None => fatal host not_in_project (with_cwd [] w)
  end.

(** The locator as the specification describes it: it succeeds at the
    nearest marked directory, root included, and exits with status 1
    exactly when there is none. *)
Definition locator_as_specified (host : Host) (w : World) : Prop :=
  match nearest_project w with
  | Some d => move_to_robotpy_dir host w = Done tt (with_cwd d w)
  | None => exists w', move_to_robotpy_dir host w = Exit 1%Z w'
  end.

(** *** Concrete surroundings used in examples *)

(** A host whose children all succeed; [pip freeze] lists two packages. *)
Definition demo_host : Host := {|
  child := fun _ _ =>
    {| returncode := 0%Z; stdout := ["robotpy==2024.3.2"; "foo==1.0"] |};
  shlex_split := PyStr.split_char " ";
  sys_executable := "python3";
  argv0 := "robotpy";
  help_text := "usage: robotpy [-h] [-v] [-q] [--silent] ..."
|}.

(** A fresh process in directory [dir], given the marker files on disk. *)
Definition fresh_process (dir : path) (on_disk : list (path * ConfigParser.t)) : World :=
  mkWorld dir [] on_disk None None 1%Z [].

(** A process whose configuration has been loaded already. *)
Definition loaded_process (dir : path) (c : ConfigParser.t) : World :=
  mkWorld dir [] [(dir, c)] (Some c) None 1%Z [].

(** *** Relating the world before and after a piece of the script *)

(** The run ended (normally, by [sys.exit] or by an exception) in a
    world that [R] relates to the world before. *)
Definition outcome_rel {A} (R : World -> World -> Prop) (w : World) (o : outcome A) : Prop :=
  match o with
  | Done _ w' | Exit _ w' | Raise _ w' => R w w'
  | OutOfFuel => False
  end.

Definition ensures {A} (R : World -> World -> Prop) (m : M A) : Prop :=
  forall w, outcome_rel R w (m w).

(** With the configuration loaded: the working directory and the files
    on disk stay as they are, the configuration object stays loaded and
    evolves by [P], and every new event satisfies [Q]. *)
Definition changes (P : ConfigParser.t -> ConfigParser.t -> Prop) (Q : event -> Prop)
    (w w' : World) : Prop :=
  forall c, config w = Some c ->
    cwd w' = cwd w /\ markers w' = markers w /\
    (exists c', config w' = Some c' /\ P c c') /\
    (exists new, trace w' = (trace w ++ new)%list /\ Forall Q new).

(** Events that do not touch the marker file. *)
Definition not_config_io (e : event) : Prop :=
  match e with
  | EvRead _ | EvWriteConfig _ _ => False
  | _ => True
  end.

(** What [msg] prints under the current verbosity. *)
Definition msg_events (host : Host) (m : string) (to_stderr : bool) (w : World) : list event :=
  if ((verbose_level w <? 1)%Z && negb to_stderr) || (verbose_level w <? 0)%Z
  then []
  else [EvPrint to_stderr (argv0 host ++ ": " ++ m)].

(** *** Custom commands *)

(** The child processes started during a run. *)
Definition children_of (t : list event) : list (list string) :=
  flat_map (fun e => match e with EvRun argv _ => [argv] | _ => [] end) t.

(** The claim about custom commands: invoking the sub-command [name]
    runs the command line configured under [name], followed by the
    trailing arguments, and nothing else. *)
Definition runs_own_command (host : Host) (w : World) (c : ConfigParser.t)
    (verbose : Z) (name : string) (rest : list string) : Prop :=
  exists w' line,
    main host (Custom verbose name rest) w = Done tt w' /\
    ConfigParser.get c "command" name = Some line /\
    children_of (trace w') = [(shlex_split host line ++ rest)%list].

(** A project with two custom commands. *)
Definition two_commands : ConfigParser.t :=
  [("requirements", [("robotpy", "2024.3.2")]);
   ("command", [("lint", "ruff check"); ("fmt", "black .")])].

(** *** [initialize] *)

(** The directory [initialize] works in. *)
Definition init_target (args : init_args) (w : World) : path :=
  match init_directory args with
  | Some directory => directory
  | None => cwd w
  end.

(** The events of entering the target directory. *)
Definition enter_events (args : init_args) : list event :=
  match init_directory args with
  | Some directory => [EvMakedirs directory]
  | None => []
  end.

(** [robotpy init] with default options. *)
Definition plain_init : init_args := {|
  init_directory := None;
  init_main := "robot.py";
  init_bare := false;
  init_host := None;
  init_git := true;
  init_packages := []
|}.

(** *** [deploy] *)

(** A tracked requirement that the remote target does not have in the
    recorded version: never deployed, or deployed in a version that is
    smaller (as a string) than the recorded one. *)
Definition outdated (c : CP.t) (pkg : string) : bool :=
  negb (CP.has_option c "requirements.deployed" pkg) ||
  match CP.get c "requirements.deployed" pkg, CP.get c "requirements" pkg with
  | Some old, Some new => PyStr.lt old new
  | _, _ => false
  end.

Definition pending_updates (c : CP.t) : list string :=
  filter (outdated c) (CP.option_names c "requirements").

(** The argument vector of [robotpy_installer install pkgs]. *)
Definition installer_install (host : Host) (pkgs : list string) : list string :=
  sys_executable host :: "-m" :: "robotpy_installer" :: "install" :: pkgs.

(** The package lists pushed to the remote target during a run. *)
Definition pushed (e : event) : list (list string) :=
  match e with
  | EvRun (_ :: a :: b :: c :: pkgs) _ =>
      if String.eqb a "-m" && String.eqb b "robotpy_installer" && String.eqb c "install"
      then [pkgs] else []
  | _ => []
  end.

Definition pushes (t : list event) : list (list string) := flat_map pushed t.

(** The claim about [deploy] with library deployment, as stated: the
    pending updates are pushed, each once, and afterwards section
    [requirements.deployed] equals section [requirements]. *)
Definition deploy_as_specified (host : Host) (w : World) (c : CP.t) : Prop :=
  exists w' c',
    deploy host {| deploy_code := false; deploy_lib := true |} w = Done tt w'
    /\ config w' = Some c'
    /\ concat (pushes (trace w')) = (concat (pushes (trace w)) ++ pending_updates c)%list
    /\ CP.lookup "requirements.deployed" c' = CP.lookup "requirements" c'.

(** A project from which [foo] was removed after it had been deployed. *)
Definition removed_after_deploy : CP.t :=
  [("requirements", [("robotpy", "2024.3.2")]);
   ("requirements.deployed", [("robotpy", "2024.3.2"); ("foo", "1.0")])].

(** A project with one requirement added since the last deployment. *)
Definition added_since_deploy : CP.t :=
  [("requirements", [("robotpy", "2024.3.2"); ("foo", "1.0")]);
   ("requirements.deployed", [("robotpy", "2024.3.2")])].

(** A project in which [foo] went from 9.0 to 10.0 since the last
    deployment. *)
Definition upgraded_since_deploy : CP.t :=
  [("requirements", [("robotpy", "2024.3.2"); ("foo", "10.0")]);
   ("requirements.deployed", [("robotpy", "2024.3.2"); ("foo", "9.0")])].

(** A project that has never been deployed. *)
Definition never_deployed : CP.t := [("requirements", [("robotpy", "2024.3.2")])].

(** *** [install] and [update] *)

Definition is_print (e : event) : Prop :=
  match e with EvPrint _ _ => True | _ => False end.

(** The package a child process upgrades, if it is
    [python -m pip install --upgrade pkg]. *)
Definition upgraded (e : event) : list string :=
  match e with
  | EvRun [_; a; b; c; d; pkg] _ =>
      if String.eqb a "-m" && String.eqb b "pip" && String.eqb c "install"
         && String.eqb d "--upgrade"
      then [pkg] else []
  | _ => []
  end.

(** The packages handed to the package manager during a run, in order. *)
Definition upgrades (t : list event) : list string := flat_map upgraded t.

(** The argument vectors [install_package] uses. *)
Definition pip_upgrade (host : Host) (pkg : string) : list string :=
  [sys_executable host; "-m"; "pip"; "install"; "--upgrade"; pkg].
Definition installer_download (host : Host) (pkg : string) : list string :=
  [sys_executable host; "-m"; "robotpy_installer"; "download"; pkg].
Definition pip_freeze (host : Host) : list string :=
  [sys_executable host; "-m"; "pip"; "freeze"].

(** The names [update] starts from: those given, or by default the base
    package and every tracked requirement. *)
Definition update_candidates (c : CP.t) (args : update_args) : list string :=
  match update_packages args with
  | [] => "robotpy" :: CP.option_names c "requirements"
  | named => named
  end.

(** A small tracked project. *)
Definition small_project : CP.t :=
  [("requirements", [("robotpy", "2024.1.1"); ("foo", "1.0")]);
   ("execution", [("main", "robot.py")])].

(** What [update] hands to [install_package] when no name is given: the
    tracked requirements, after the base package if that is tracked. *)
Definition update_default_selection (c : CP.t) : list string :=
  ((if CP.has_option c "requirements" "robotpy" then ["robotpy"] else [])
   ++ CP.option_names c "requirements")%list.

(** [robotpy update] *)
Definition update_all : update_args :=
  {| update_download := true; update_packages := [] |}.

(** The claim about [update] without names, as stated: what is passed to
    installation is the base package and every key of section
    [requirements], and nothing else. *)
Definition update_as_specified (host : Host) (w : World) (c : CP.t) : Prop :=
  exists pkgs w',
    update_selection host update_all w = Done pkgs w'
    /\ forall pkg,
         In pkg pkgs <-> pkg = "robotpy" \/ In pkg (CP.option_names c "requirements").

(** A project whose base package is no longer tracked. *)
Definition base_untracked : CP.t := [("requirements", [("foo", "1.0")])].

(** *** Version numbers *)

(** The specification compares versions as numbers ("newer", "higher
    version number"); the script compares the strings.  The order meant
    is given here for release numbers, the dotted decimal numbers such as
    [2024.3.2] that the base package uses. *)

Definition digit (ch : ascii) : option N :=
  let n := N_of_ascii ch in
  if ((48 <=? n) && (n <=? 57))%N then Some (n - 48)%N else None.

(** The number that a string of decimal digits denotes, from the value
    [acc] of the digits read so far. *)
Fixpoint decimal (acc : N) (s : string) : option N :=
  match s with
  | EmptyString => Some acc
  | String ch rest =>
      match digit ch with
      | Some d => decimal (10 * acc + d)%N rest
      | None => None
      end
  end.

Fixpoint components (parts : list string) : option (list N) :=
  match parts with
  | [] => Some []
  | part :: rest =>
      match part, decimal 0%N part, components rest with
      | String _ _, Some n, Some ns => Some (n :: ns)
      | _, _, _ => None
      end
  end.

(** The components of a release number; [None] for any other string. *)
Definition release (v : string) : option (list N) :=
  components (PyStr.split_char "." v).

(** Release numbers are compared component by component, a missing
    component counting as zero. *)
Fixpoint release_lt (a b : list N) : bool :=
  match a with
  | [] => existsb (fun y => (0 <? y)%N) b
  | x :: a' =>
      match b with
      | [] => false
      | y :: b' => (x <? y)%N || ((x =? y)%N && release_lt a' b')
      end
  end.

(** [new] is a higher version number than [old]. *)
Definition version_lt (old new : string) : bool :=
  match release old, release new with
  | Some a, Some b => release_lt a b
  | _, _ => false
  end.

(** [old] and [new] are release numbers for which the comparison of the
    strings, which the script makes, gives the order of the version
    numbers. *)
Definition orders_agree (old new : string) : Prop :=
  release old <> None /\ release new <> None /\
  PyStr.lt old new = version_lt old new.

(** *** Where the model of the parser object is exact *)

(** Only ASCII characters.  The model lower-cases the ASCII letters of an
    option name; on such names that is Python's [str.lower]. *)
Definition ascii_only (s : string) : bool :=
  forallb (fun ch => (nat_of_ascii ch <? 128)%nat) (list_ascii_of_string s).

(** The marker file has no section [[DEFAULT]].  The parser object keeps
    the options of such a section apart, as defaults that every section
    shows as its own; the model has no such options and stands for a
    parser object without them. *)
Definition no_defaults (c : CP.t) : Prop := CP.has_section c "DEFAULT" = false.

(** No value holds a percent sign: there is nothing for the parser object
    to interpolate when a value is read. *)
Definition no_percent (c : CP.t) : Prop :=
  Forall (fun s => Forall (fun kv => PyStr.contains_char "%" (snd kv) = false) (snd s)) c.

(** A configuration that the parser object treats the way the model does:
    no default options and no interpolation. *)
Definition plain_config (c : CP.t) : Prop := no_defaults c /\ no_percent c.

(** *** Recording installed versions *)

(** [c'] differs from [c] at most in the version recorded for [pkg];
    a version that was recorded is kept or replaced by a greater one (as
    a string). *)
Definition only_newer (pkg : string) (c c' : CP.t) : Prop :=
  (forall s k,
      s <> "requirements" \/ CP.optionxform k <> CP.optionxform pkg ->
      CP.get c' s k = CP.get c s k) /\
  (forall old,
      CP.get c "requirements" pkg = Some old ->
      exists new,
        CP.get c' "requirements" pkg = Some new /\
        (new = old \/ PyStr.lt old new = true)).

(** What the script leaves on record for [pkg] once it has resolved
    [version]: [version] if nothing was recorded or what was recorded is
    smaller as a string, else what was recorded. *)
Definition recorded_after (c : CP.t) (pkg version : string) : string :=
  match CP.get c "requirements" pkg with
  | None => version
  | Some old => if PyStr.lt old version then version else old
  end.

(** What the specification wants on record: [version] if nothing was
    recorded or [version] is the higher version number, else what was
    recorded. *)
Definition recorded_as_specified (c : CP.t) (pkg version : string) : string :=
  match CP.get c "requirements" pkg with
  | None => version
  | Some old => if version_lt old version then version else old
  end.

(** The claim about recording, as stated: whenever the upgrade of [pkg]
    by the package manager succeeds and the listing then shows
    [version], the entry for [pkg] ends up as the specification wants. *)
Definition install_as_specified (host : Host) (download : bool)
    (pkg version : string) (w : World) (c : CP.t) : Prop :=
  (forall t, returncode (child host t (pip_upgrade host pkg)) = 0%Z) ->
  (forall t, CP.lookup pkg (freeze_dict (stdout (child host t (pip_freeze host))))
             = Some version) ->
  exists w' c',
    final_world (install_one host download pkg w) = Some w'
    /\ config w' = Some c'
    /\ CP.get c' "requirements" pkg = Some (recorded_as_specified c pkg version).

(** A host on which the package manager works but the installer for the
    remote target fails (no network to fetch packages for the robot). *)
Definition offline_host : Host := {|
  child := fun _ argv =>
    match argv with
    | _ :: _ :: tool :: _ =>
        if String.eqb tool "robotpy_installer"
        then {| returncode := 1%Z; stdout := [] |}
        else {| returncode := 0%Z; stdout := ["robotpy==2024.3.2"; "foo==1.0"] |}
    | _ => {| returncode := 0%Z; stdout := [] |}
    end;
  shlex_split := PyStr.split_char " ";
  sys_executable := "python3";
  argv0 := "robotpy";
  help_text := "usage: robotpy [-h] [-v] [-q] [--silent] ..."
|}.

(** A project that tracks the base package only. *)
Definition base_only : CP.t := [("requirements", [("robotpy", "2024.3.2")])].

(** A project that has a later release of the base package on record
    than the one the package manager lists (2024.3.2). *)
Definition ahead_of_listing : CP.t := [("requirements", [("robotpy", "2024.10.1")])].

(** *** [initialize] in a directory that has a marker file *)

(** Between [c] and [c']: sections other than [requirements] and [auth]
    are the same; in section [requirements] every option that is not one
    of the requested packages is the same; and with no package requested
    the whole section is the same. *)
Definition keeps_requirements (requested : list string) (c c' : CP.t) : Prop :=
  (forall s, s <> "requirements" -> s <> "auth" -> CP.lookup s c' = CP.lookup s c) /\
  (forall k, ~ In (CP.optionxform k) requested ->
             CP.get c' "requirements" k = CP.get c "requirements" k) /\
  (requested = [] -> CP.lookup "requirements" c' = CP.lookup "requirements" c).

(** The claim about re-initialization, as stated: section [requirements]
    is exactly as before and [execution.main] is the requested file. *)
Definition reinit_as_specified (host : Host) (args : init_args) (w : World) (c : CP.t)
  : Prop :=
  exists w' c',
    final_world (initialize host args w) = Some w'
    /\ config w' = Some c'
    /\ CP.lookup "requirements" c' = CP.lookup "requirements" c
    /\ CP.get c' "execution" "main" = Some (init_main args).

(** [robotpy init -m main.py --with foo] *)
Definition init_with_foo : init_args := {|
  init_directory := None;
  init_main := "main.py";
  init_bare := false;
  init_host := None;
  init_git := true;
  init_packages := ["foo"]
|}.

(** *** Observing a finished run *)

Definition completes {A} (o : outcome A) : bool :=
  match o with Done _ _ => true | _ => false end.

Definition final_trace {A} (o : outcome A) : list event :=
  match final_world o with Some w => trace w | None => [] end.

Definition final_config {A} (o : outcome A) : option CP.t :=
  match final_world o with Some w => config w | None => None end.

(** *** Loading and saving the configuration *)

(** The directories whose marker file was read, and the marker files
    written with their content, in order. *)
Definition reads (t : list event) : list path :=
  flat_map (fun e => match e with EvRead d => [d] | _ => [] end) t.

Definition writes (t : list event) : list (path * CP.t) :=
  flat_map (fun e => match e with EvWriteConfig d c => [(d, c)] | _ => [] end) t.

(** A piece of the script that neither reads nor writes a marker file,
    stays in its directory and keeps the configuration object loaded. *)
Definition quiet : World -> World -> Prop :=
  changes (fun _ _ => True) not_config_io.

(** The process was started in the directory it works in: the project
    root for the handlers that look for it, the target directory for
    [initialize]. *)
Definition started_in_place (argv : command_line) (w : World) : Prop :=
  match argv with
  | NoArguments => False
  | Builtin _ (Initialize args) =>
      init_directory args = None \/ init_directory args = Some (cwd w)
  | Builtin _ _ => isfile_marker w = true
  | Custom _ _ _ => True
  end.

(** What the marker file of the working directory parses to. *)
Definition parsed_marker (w : World) : CP.t :=
  match marker_at w (cwd w) with
  | Some c => c
  | None => CP.empty
  end.

(** The process right after the first [load_config]. *)
Definition after_load (w : World) : World :=
  with_config (Some (parsed_marker w)) (with_trace (trace w ++ [EvRead (cwd w)]) w).

(** A run that began with the events [t0] ended without reading a marker
    file again; if it completed, its last action was to write the final
    configuration object to the marker file of [d], once; if it ended
    otherwise, it wrote no marker file. *)
Definition saved_at_end (d : path) (t0 : list event) (o : outcome unit) : Prop :=
  exists w',
    final_world o = Some w'
    /\ reads (trace w') = reads t0
    /\ match o with
       | Done _ _ =>
           exists c',
             config w' = Some c'
             /\ writes (trace w') = (writes t0 ++ [(d, c')])%list
             /\ last (trace w') (EvRead []) = EvWriteConfig d c'
             /\ marker_at w' d = Some c'
       | _ => writes (trace w') = writes t0
       end.

(** The claim about loading and saving, as stated: the configuration is
    read once, from the project root, and written back once, to the
    project root, by the end of every invocation. *)
Definition load_once_save_once (host : Host) (argv : command_line) (w : World) : Prop :=
  forall root,
    nearest_project w = Some root ->
    exists w' c',
      final_world (main host argv w) = Some w'
      /\ config w' = Some c'
      /\ reads (trace w') = [root]
      /\ writes (trace w') = [(root, c')].

(** [robotpy config auth.hostname 10.0.0.2] and [robotpy config verbose]. *)
Definition set_hostname : command_line :=
  Builtin 1 (Configure {| config_field := "auth.hostname";
                          config_value := Some "10.0.0.2";
                          config_clear := false |}).

Definition bad_field : command_line :=
  Builtin 1 (Configure {| config_field := "verbose";
                          config_value := None;
                          config_clear := false |}).

(* ===================================================================== *)
(** ** Further vocabulary: helpers, handlers, whole runs *)
(* ===================================================================== *)

(** *** The listing of installed packages *)

(** The line [pip freeze] prints for a pinned package. *)
Definition freeze_line (entry : string * string) : string :=
  fst entry ++ "==" ++ snd entry.

(** Neither the name nor the version holds an equals sign. *)
Definition pinned (entry : string * string) : Prop :=
  PyStr.contains_char "=" (fst entry) = false /\
  PyStr.contains_char "=" (snd entry) = false.

(** The loop of the dictionary comprehension of [load_packages], from
    any dictionary built so far ([freeze_dict] starts from the empty one). *)
Definition freeze_fold (acc : CP.dict string) (lines : list string) : CP.dict string :=
  fold_left
    (fun d req => match req with [name; version] => CP.store name version d | _ => d end)
    (map PyStr.split_eqeq lines) acc.

(** *** Verbosity *)

(** A message that [msg] lets through at verbosity [v]: nothing below 0,
    and below 1 only what goes to the error stream. *)
Definition message_allowed (v : Z) (e : event) : Prop :=
  match e with
  | EvPrint to_stderr _ => (0 <= v)%Z /\ (to_stderr = false -> (1 <= v)%Z)
  | _ => True
  end.

(** The output of a child is captured as verbosity [v] says: [git init]
    is never captured, [pip freeze] always, and any other child is run
    by the interpreter and captured unless [v] is above 1. *)
Definition capture_allowed (host : Host) (v : Z) (e : event) : Prop :=
  match e with
  | EvRun argv capture_output =>
      (argv = ["git"; "init"] /\ capture_output = false)
      \/ (argv = pip_freeze host /\ capture_output = true)
      \/ (exists args,
            argv = sys_executable host :: args /\ capture_output = (v <=? 1)%Z)
  | _ => True
  end.

Definition obeys_verbosity (host : Host) (v : Z) (e : event) : Prop :=
  message_allowed v e /\ capture_allowed host v e.

(** From [w] to [w'] the verbosity stays what it is and every new event
    obeys it. *)
Definition respects_verbosity (host : Host) (w w' : World) : Prop :=
  verbose_level w' = verbose_level w /\
  exists new,
    trace w' = (trace w ++ new)%list /\
    Forall (obeys_verbosity host (verbose_level w)) new.

(** From [w] to [w'] events were added, all of which satisfy [Q]. *)
Definition only_events (Q : event -> Prop) (w w' : World) : Prop :=
  exists new, trace w' = (trace w ++ new)%list /\ Forall Q new.

(** A built-in invocation other than [config FIELD], which prints the
    value of the field whatever the verbosity. *)
Definition not_a_query (args : builtin_args) : Prop :=
  match args with
  | Configure a => config_clear a = true \/ config_value a <> None
  | _ => True
  end.

(** *** More surroundings used in examples *)

(** A host on which every child fails. *)
Definition failing_host : Host := {|
  child := fun _ _ => {| returncode := 1%Z; stdout := [] |};
  shlex_split := PyStr.split_char " ";
  sys_executable := "python3";
  argv0 := "robotpy";
  help_text := "usage: robotpy [-h] [-v] [-q] [--silent] ..."
|}.

(** A host on which everything works except the listing of installed
    packages. *)
Definition no_listing_host : Host := {|
  child := fun _ argv =>
    match argv with
    | [_; _; _; what] =>
        if String.eqb what "freeze"
        then {| returncode := 2%Z; stdout := [] |}
        else {| returncode := 0%Z; stdout := [] |}
    | _ => {| returncode := 0%Z; stdout := [] |}
    end;
  shlex_split := PyStr.split_char " ";
  sys_executable := "python3";
  argv0 := "robotpy";
  help_text := "usage: robotpy [-h] [-v] [-q] [--silent] ..."
|}.

(** *** [remove] *)

(** The requests [remove] acts on: all but the base package, spelled
    exactly. *)
Definition removable (pkgs : list string) : list string :=
  filter (fun pkg => negb (String.eqb pkg "robotpy")) pkgs.

(** Option [k] is among these requests, as the parser object compares
    option names. *)
Definition requested (pkgs : list string) (k : string) : bool :=
  PyStr.mem (CP.optionxform k) (map CP.optionxform (removable pkgs)).

(** *** [configure] *)

(** The group and the name that [configure] takes a field apart into:
    what stands before and after the last dot. *)
Definition field_group (field : string) : string :=
  PyStr.join_char "." (removelast (PyStr.split_char "." field)).

Definition field_name (field : string) : string :=
  last (PyStr.split_char "." field) "".

(** The groups that [configure] refuses. *)
Definition protected_groups : list string := ["requirements"; "requirements.deployed"].

(** A group that names a section of its own: the parser object takes the
    empty name and [DEFAULT] for its defaults, which every section
    shows. *)
Definition ordinary_group (group : string) : Prop :=
  group <> "" /\ group <> "DEFAULT".


(** *** [initialize] and the files of the target directory *)

(** The text [initialize] writes into both credential files. *)
Definition auth_text (hostname : string) : string :=
  "[auth]" ++ nl ++ "hostname = " ++ hostname ++ nl.

Definition credential_files : list string := [".deploy_cfg"; ".installer_cfg"].

(** The files [initialize] is asked to write anew: the credential files
    when a host is given, none otherwise. *)
Definition rewritten_files (args : init_args) : list string :=
  match init_host args with
  | Some _ => credential_files
  | None => []
  end.

(** From [w] to [w'] the working directory is the same, and every file
    that exists, other than those named [exempt] in the working
    directory, keeps its content. *)
Definition keeps_files (exempt : list string) (w w' : World) : Prop :=
  cwd w' = cwd w /\
  forall p content,
    (forall name, In name exempt -> p <> (cwd w ++ [name])%list) ->
    path_lookup p (files w) = Some content ->
    path_lookup p (files w') = Some content.

(** The scaffolding of the entry file in [initialize]. *)
Definition scaffold_entry_file (host : Host) (args : init_args) : M unit :=
  present <- os_isfile (init_main args) ;;
  if present
  then error host (init_main args ++ " already exists. Skipping main file creation.")
  else write_file (init_main args) robot_template.

(** The end of [initialize]: the two pre-downloads for the robot, then
    the packages requested with [--with]. *)
Definition initialize_downloads (host : Host) (args : init_args) : M unit :=
  msg host "Downloading python for robot installation" false ;;
  res <- rpinst host ["download-python"] ;;
  expect_result host res "Downloading Python failed unexpectedly" true ;;
  msg host "Downloading robotpy for robot installations" false ;;
  res <- rpinst host ["download"; "robotpy"] ;;
  expect_result host res "Downloading robotpy for remote use failed unexpectedly" true ;;
  install_package host (expand_addons (init_packages args)) true.

(** [initialize] from the scaffolding of the entry file on: what follows
    the block that writes the credential files. *)
Definition initialize_finish (host : Host) (args : init_args) : M unit :=
  (if negb (init_bare args) then scaffold_entry_file host args else ret tt) ;;
  (if init_git args then subprocess_run host ["git"; "init"] false ;; ret tt else ret tt) ;;
  initialize_downloads host args.

(** The argument vector of [robotpy_installer download-python]. *)
Definition installer_download_python (host : Host) : list string :=
  [sys_executable host; "-m"; "robotpy_installer"; "download-python"].

(** *** What the handlers leave alone *)

(** A built-in invocation other than [initialize]. *)
Definition not_initialize (args : builtin_args) : Prop :=
  match args with
  | Initialize _ => False
  | _ => True
  end.

(* ===================================================================== *)
(** ** The parser object with its default options *)
(* ===================================================================== *)

(** [configparser] keeps the options of a section [[DEFAULT]] apart from
    the sections, and every section shows them as if they were its own.
    The model above has no such options, which is exact for a marker
    file without that section.  The operations by which [configure]
    clears a field are given here once more, on a parser object that has
    default options, as [configparser] defines them ([_defaults] and
    [_sections] of [RawConfigParser], and [SectionProxy]). *)
Module WithDefaults.

Record parser := {
  defaults : CP.options;   (* _defaults *)
  sections : CP.t          (* _sections: never holds the name DEFAULT *)
}.

(** A parser object without default options. *)
Definition bare (c : CP.t) : parser := {| defaults := []; sections := c |}.

Definition default_section : string := "DEFAULT".

(** The exceptions these operations raise. *)
Inductive raised :=
| RaisedKeyError (key : string)
| RaisedValueError (what : string)
| RaisedNoSectionError (section : string).

Inductive result :=
| Ok (p : parser)
| Raised (e : raised).

(** [not section or section == self.default_section] *)
Definition names_defaults (section : string) : bool :=
  String.eqb section "" || String.eqb section default_section.

(** [has_section]: the default section is not acknowledged. *)
Definition has_section (p : parser) (section : string) : bool :=
  CP.has_key section (sections p).

(** [key in config] *)
Definition contains (p : parser) (key : string) : bool :=
  String.eqb key default_section || has_section p key.

(** [has_option] *)
Definition has_option (p : parser) (section name : string) : bool :=
  if names_defaults section then CP.has_key (CP.optionxform name) (defaults p)
  else
    match CP.lookup section (sections p) with
    | None => false
    | Some opts =>
        CP.has_key (CP.optionxform name) opts
        || CP.has_key (CP.optionxform name) (defaults p)
    end.

(** [remove_option]: whether the option existed in the section's own
    dictionary, and the parser object afterwards; [None] stands for
    [NoSectionError]. *)
Definition remove_option (p : parser) (section name : string) : option (bool * parser) :=
  if names_defaults section then
    Some (CP.has_key (CP.optionxform name) (defaults p),
          {| defaults := CP.remove (CP.optionxform name) (defaults p);
             sections := sections p |})
  else
    match CP.lookup section (sections p) with
    | None => None
    | Some opts =>
        Some (CP.has_key (CP.optionxform name) opts,
              {| defaults := defaults p;
                 sections := CP.store section (CP.remove (CP.optionxform name) opts)
                               (sections p) |})
    end.

(** [options]: the section's own option names, then those of the
    defaults that it does not have itself. *)
Definition options (p : parser) (section : string) : option (list string) :=
  match CP.lookup section (sections p) with
  | None => None
  | Some opts =>
      Some (CP.keys opts ++
            filter (fun k => negb (CP.has_key k opts)) (CP.keys (defaults p)))%list
  end.

(** [len(config[name])] ([SectionProxy.__len__] on [_options]). *)
Definition proxy_len (p : parser) (name : string) : option nat :=
  if String.eqb name default_section then Some (length (defaults p))
  else option_map (@length string) (options p name).

(** [del config[name][key]] ([SectionProxy.__delitem__]). *)
Definition proxy_delitem (p : parser) (name key : string) : result :=
  if has_option p name key then
    match remove_option p name key with
    | Some (true, p') => Ok p'
    | Some (false, _) => Raised (RaisedKeyError key)
    | None => Raised (RaisedNoSectionError name)
    end
  else Raised (RaisedKeyError key).

(** [del config[key]] ([RawConfigParser.__delitem__]). *)
Definition delitem (p : parser) (key : string) : result :=
  if String.eqb key default_section
  then Raised (RaisedValueError "Cannot remove the default section.")
  else if has_section p key
  then Ok {| defaults := defaults p; sections := CP.remove key (sections p) |}
  else Raised (RaisedKeyError key).

(** The clearing branch of [configure], for the group and the name that
    the field has been taken apart into:
    [if group in config and name in config[group]:
         del config[group][name]
         if len(config[group]) == 0: del config[group]]
    ([config[group]] itself raises only when [group in config] is false). *)
Definition clear_field (p : parser) (group name : string) : result :=
  if contains p group && has_option p group name then
    match proxy_delitem p group name with
    | Ok p1 =>
        match proxy_len p1 group with
        | Some n => if (n =? 0)%nat then delitem p1 group else Ok p1
        | None => Raised (RaisedNoSectionError group)
        end
    | Raised e => Raised e
    end
  else Ok p.

End WithDefaults.

(** The same branch in the model without default options: the
    configuration that [config --clear group.name] leaves. *)
Definition cleared (c : CP.t) (group name : string) : CP.t :=
  if CP.has_section c group && CP.has_option c group name then
    let c1 := CP.remove_option c group name in
    if (length (CP.option_names c1 group) =? 0)%nat
    then CP.remove_section c1 group
    else c1
  else c.

(* ===================================================================== *)
(** ** Facts about insertion-ordered dictionaries *)
(* ===================================================================== *)

Module DictFacts.
Import ConfigParser.
Local Open Scope list_scope.

Lemma mem_In (x : string) (l : list string) : PyStr.mem x l = true <-> In x l.
Proof.
  unfold PyStr.mem. rewrite existsb_exists. split.
  - intros [y [Hy He]]. apply String.eqb_eq in He. now subst.
  - intros H. exists x. split; [assumption | apply String.eqb_refl].
Qed.

Lemma mem_false (x : string) (l : list string) : PyStr.mem x l = false <-> ~ In x l.
Proof.
  rewrite <- mem_In. destruct (PyStr.mem x l); split; congruence.
Qed.

Section WithValues.
Context {V : Type}.
Implicit Types (d : dict V) (k : string) (v : V).

Lemma has_key_In k d : has_key k d = true <-> In k (keys d).
Proof. apply mem_In. Qed.

Lemma lookup_None k d : lookup k d = None <-> ~ In k (keys d).
Proof.
  induction d as [|[k' v'] d IH]; simpl.
  - tauto.
  - destruct (String.eqb_spec k k') as [->|Hne].
    + split; [discriminate | intros H; exfalso; apply H; now left].
    + rewrite IH. split; [intros H [E|I]; [congruence | tauto] | tauto].
Qed.

Lemma lookup_has_key k d : has_key k d = true <-> exists v, lookup k d = Some v.
Proof.
  rewrite has_key_In. destruct (lookup k d) as [v|] eqn:E.
  - split; [eauto | intros _].
    destruct (in_dec string_dec k (keys d)) as [I|N]; [assumption|].
    apply lookup_None in N. congruence.
  - apply lookup_None in E. split; [tauto | intros [v Hv]; discriminate].
Qed.

Lemma has_key_false k d : has_key k d = false <-> lookup k d = None.
Proof.
  rewrite lookup_None, <- has_key_In. destruct (has_key k d); split; congruence.
Qed.

Lemma lookup_store_same k v d : lookup k (store k v d) = Some v.
Proof.
  induction d as [|[k' v'] d IH]; simpl.
  - now rewrite String.eqb_refl.
  - destruct (String.eqb_spec k k') as [->|Hne]; simpl.
    + now rewrite String.eqb_refl.
    + apply String.eqb_neq in Hne. now rewrite Hne.
Qed.

Lemma lookup_store_other k k' v d :
  k' <> k -> lookup k' (store k v d) = lookup k' d.
Proof.
  intros Hne. induction d as [|[k0 v0] d IH]; simpl.
  - apply String.eqb_neq in Hne. now rewrite Hne.
  - destruct (String.eqb_spec k k0) as [->|Hk]; simpl.
    + apply String.eqb_neq in Hne. now rewrite Hne.
    + now rewrite IH.
Qed.

Lemma keys_store k v d :
  keys (store k v d) = if has_key k d then keys d else keys d ++ [k].
Proof.
  induction d as [|[k' v'] d IH]; simpl; [reflexivity|].
  unfold has_key, PyStr.mem in *. simpl.
  destruct (String.eqb_spec k k') as [->|Hk]; simpl; [reflexivity|].
  rewrite IH. now destruct (existsb (String.eqb k) (keys d)).
Qed.

Lemma lookup_remove_other k k' d :
  k' <> k -> lookup k' (remove k d) = lookup k' d.
Proof.
  intros Hne. induction d as [|[k0 v0] d IH]; simpl; [reflexivity|].
  destruct (String.eqb_spec k k0) as [->|Hk]; simpl.
  - apply String.eqb_neq in Hne. now rewrite Hne.
  - now rewrite IH.
Qed.

Lemma keys_remove_incl k d : incl (keys (remove k d)) (keys d).
Proof.
  induction d as [|[k0 v0] d IH]; simpl; [easy|].
  destruct (String.eqb k k0); simpl.
  - apply incl_tl, incl_refl.
  - apply incl_cons; [now left | now apply incl_tl].
Qed.

Lemma lookup_remove_same k d : NoDup (keys d) -> lookup k (remove k d) = None.
Proof.
  induction d as [|[k0 v0] d IH]; simpl; intros ND; [reflexivity|].
  inversion ND as [|? ? Hnin ND']; subst.
  destruct (String.eqb_spec k k0) as [->|Hk]; simpl.
  - now apply lookup_None.
  - apply String.eqb_neq in Hk. rewrite Hk. now apply IH.
Qed.

Lemma NoDup_keys_remove k d : NoDup (keys d) -> NoDup (keys (remove k d)).
Proof.
  induction d as [|[k0 v0] d IH]; simpl; intros ND; [constructor|].
  inversion ND as [|? ? Hnin ND']; subst.
  destruct (String.eqb k k0); simpl; [assumption|].
  constructor; [|now apply IH].
  intros I. apply Hnin. now apply (keys_remove_incl k d).
Qed.

Lemma length_remove k d :
  has_key k d = true -> length (keys d) = S (length (keys (remove k d))).
Proof.
  induction d as [|[k0 v0] d IH]; simpl.
  - discriminate.
  - unfold has_key, PyStr.mem in *. simpl.
    destruct (String.eqb k k0); simpl; [reflexivity|].
    intros H. now rewrite (IH H).
Qed.

Lemma NoDup_keys_store k v d : NoDup (keys d) -> NoDup (keys (store k v d)).
Proof.
  intros ND. rewrite keys_store. destruct (has_key k d) eqn:E; [assumption|].
  apply NoDup_app; [assumption | repeat constructor; easy |].
  intros x Hx [<-|[]]. apply has_key_In in Hx. congruence.
Qed.

Lemma In_store_inv (x : string * V) k v d :
  In x (store k v d) -> x = (k, v) \/ In x d.
Proof.
  induction d as [|[k0 v0] d IH]; simpl.
  - intros [<-|[]]. now left.
  - destruct (String.eqb k k0); simpl.
    + intros [<-|I]; auto.
    + intros [<-|I]; auto. destruct (IH I); auto.
Qed.
End WithValues.

End DictFacts.

(* ===================================================================== *)
(** ** The project locator *)
(* ===================================================================== *)

Section Locator.
Variable host : Host.
Local Open Scope list_scope.

Lemma with_cwd_same (w : World) : with_cwd (cwd w) w = w.
Proof. now destruct w. Qed.

Lemma length_dirname (p : path) : length (dirname p) = pred (length p).
Proof.
  unfold dirname. induction p as [|a [|b p] IH]; simpl in *; auto.
Qed.

Lemma dirname_fixed (p : path) : path_eqb (dirname p) p = true <-> p = [].
Proof.
  unfold path_eqb. destruct (list_eq_dec string_dec (dirname p) p) as [E|N].
  - split; [intros _ | reflexivity].
    apply (f_equal (@length _)) in E. rewrite length_dirname in E.
    destruct p; [reflexivity | simpl in E; lia].
  - split; [discriminate | intros ->; now elim N].
Qed.

Lemma up_nonempty n p : up n p <> [].
Proof. destruct n; discriminate. Qed.

Lemma removelast_cons {A} (x : A) (l : list A) :
  l <> [] -> removelast (x :: l) = x :: removelast l.
Proof. destruct l; [congruence | reflexivity]. Qed.

Lemma move_loop_step (fuel : nat) (w : World) :
  move_loop host (S fuel) w =
    if isfile_marker w then Done tt w
    else if path_eqb (dirname (dirname (cwd w))) (dirname (cwd w))
         then fatal host not_in_project (with_cwd (dirname (cwd w)) w)
         else move_loop host fuel (with_cwd (dirname (cwd w)) w).
Proof.
  cbn [move_loop]. destruct (isfile_marker w); [reflexivity|].
  unfold bind, getcwd, chdir. cbn [cwd with_cwd].
  destruct (path_eqb _ _); [|reflexivity].
  unfold not_in_project, fatal, bind, msg, sys_exit, log.
  destruct (_ || _); reflexivity.
Qed.

Lemma fatal_exits (m : string) (w : World) :
  exists w', fatal host m w = Exit 1%Z w' /\ cwd w' = cwd w /\ config w' = config w
             /\ markers w' = markers w.
Proof.
  unfold fatal, bind, msg, sys_exit, log.
  destruct (_ || _); eexists; (split; [reflexivity|]); cbn; auto.
Qed.

Lemma has_marker_isfile (w : World) (p : path) :
  cwd w = p -> has_marker w p = isfile_marker w.
Proof. now intros <-. Qed.

Lemma move_loop_spec (n : nat) :
  forall w, length (cwd w) = n -> move_loop host (S n) w = search_result host w.
Proof.
  induction n as [|n IH]; intros w Hlen; rewrite move_loop_step.
  - apply length_zero_iff_nil in Hlen.
    unfold search_result, searched. rewrite Hlen. cbn [find].
    rewrite (has_marker_isfile w [] Hlen).
    destruct (isfile_marker w).
    + rewrite <- Hlen. now rewrite with_cwd_same.
    + reflexivity.
  - assert (Hd : length (dirname (cwd w)) = n) by (rewrite length_dirname; lia).
    unfold search_result at 1, searched.
    destruct (cwd w) as [|a p'] eqn:Ecwd; [discriminate|].
    unfold ancestors. rewrite Hlen. cbn [up].
    rewrite removelast_cons by apply up_nonempty.
    cbn [find]. rewrite (has_marker_isfile w _ Ecwd).
    destruct (isfile_marker w).
    { rewrite <- Ecwd. now rewrite with_cwd_same. }
    destruct (path_eqb (dirname (dirname (a :: p'))) (dirname (a :: p'))) eqn:Eroot.
    + apply dirname_fixed in Eroot.
      assert (n = 0) by (rewrite Eroot in Hd; simpl in Hd; lia). subst n.
      rewrite Eroot. reflexivity.
    + rewrite IH by exact Hd.
      unfold search_result, searched. cbn [cwd with_cwd].
      destruct (dirname (a :: p')) as [|b q] eqn:Edp.
      * exfalso. rewrite <- Edp in Eroot.
        assert (path_eqb (dirname (dirname (a :: p'))) (dirname (a :: p')) = true)
          by (apply dirname_fixed; exact Edp). congruence.
      * unfold ancestors. rewrite Hd. reflexivity.
Qed.

Theorem move_to_robotpy_dir_searches (w : World) :
  move_to_robotpy_dir host w = search_result host w.
Proof. unfold move_to_robotpy_dir. now apply move_loop_spec. Qed.

Lemma find_all_false {A} (f : A -> bool) (l : list A) :
  (forall x, In x l -> f x = false) -> find f l = None.
Proof.
  induction l as [|a l IH]; intros H; [reflexivity|].
  simpl. rewrite (H a) by now left. apply IH. intros x Hx. apply H. now right.
Qed.

Lemma find_app_none {A} (f : A -> bool) (l l' : list A) :
  find f l = None -> find f (l ++ l') = find f l'.
Proof.
  induction l as [|a l IH]; simpl; [reflexivity|].
  destruct (f a); [discriminate | exact IH].
Qed.

Lemma find_app_some {A} (f : A -> bool) (l l' : list A) (x : A) :
  find f l = Some x -> find f (l ++ l') = Some x.
Proof.
  induction l as [|a l IH]; simpl; [discriminate|].
  destruct (f a); [trivial | exact IH].
Qed.

Lemma up_split (n : nat) :
  forall p, length p = n -> up n p = removelast (up n p) ++ [[]].
Proof.
  induction n as [|n IH]; intros p Hlen.
  - apply length_zero_iff_nil in Hlen. now subst.
  - cbn [up]. rewrite removelast_cons by apply up_nonempty.
    cbn [app]. f_equal. apply IH. rewrite length_dirname. lia.
Qed.

Lemma up_below_root (n : nat) :
  forall p d, length p = n -> In d (removelast (up n p)) -> d <> [].
Proof.
  induction n as [|n IH]; intros p d Hlen Hin.
  - destruct Hin.
  - cbn [up] in Hin. rewrite removelast_cons in Hin by apply up_nonempty.
    destruct Hin as [<-|Hin].
    + destruct p; [discriminate | congruence].
    + apply (IH (dirname p)); [rewrite length_dirname; lia | assumption].
Qed.

Lemma ancestors_split (p : path) : p <> [] -> ancestors p = searched p ++ [[]].
Proof.
  intros Hp. unfold searched, ancestors.
  destruct p; [congruence|]. now apply up_split.
Qed.

Lemma searched_below_root (p d : path) : p <> [] -> In d (searched p) -> d <> [].
Proof.
  intros Hp. unfold searched, ancestors. destruct p; [congruence|].
  now apply up_below_root.
Qed.

(** The loop never uses up its budget. *)
Lemma move_to_robotpy_dir_total (w : World) :
  move_to_robotpy_dir host w <> OutOfFuel.
Proof.
  rewrite move_to_robotpy_dir_searches. unfold search_result.
  destruct (find _ _); [discriminate|].
  destruct (fatal_exits not_in_project (with_cwd [] w)) as [w' [E _]].
  rewrite E. discriminate.
Qed.

(** In a directory that holds a marker the locator does nothing. *)
Lemma move_to_robotpy_dir_at_root (w : World) :
  isfile_marker w = true -> move_to_robotpy_dir host w = Done tt w.
Proof.
  intros H. unfold move_to_robotpy_dir. rewrite move_loop_step. now rewrite H.
Qed.

(** When the locator succeeds it has changed the working directory only,
    to a directory that holds a marker. *)
Lemma move_to_robotpy_dir_done (w w1 : World) :
  move_to_robotpy_dir host w = Done tt w1 ->
  exists d, w1 = with_cwd d w /\ has_marker w d = true.
Proof.
  rewrite move_to_robotpy_dir_searches. unfold search_result.
  destruct (find _ _) as [d|] eqn:E.
  - intros [= <-]. exists d. split; [reflexivity|]. now apply find_some in E.
  - destruct (fatal_exits not_in_project (with_cwd [] w)) as [w' [E' _]].
    rewrite E'. discriminate.
Qed.

(** Below the root the locator agrees with the specification. *)
Lemma locator_finds_nearest_below_root (w : World) (d : path) :
  nearest_project w = Some d -> d <> [] \/ cwd w = [] ->
  move_to_robotpy_dir host w = Done tt (with_cwd d w).
Proof.
  unfold nearest_project. intros Hn Hd.
  rewrite move_to_robotpy_dir_searches. unfold search_result.
  destruct (cwd w) as [|a p] eqn:Ecwd.
  - cbn in Hn |- *. now rewrite Hn.
  - rewrite ancestors_split in Hn by discriminate.
    destruct (find (has_marker w) (searched (a :: p))) as [d'|] eqn:E.
    + rewrite (find_app_some _ _ _ _ E) in Hn. congruence.
    + rewrite (find_app_none _ _ _ E) in Hn. cbn in Hn.
      destruct (has_marker w []); [|discriminate].
      injection Hn as <-. destruct Hd; congruence.
Qed.

Lemma locator_fails_without_project (w : World) :
  nearest_project w = None ->
  exists w', move_to_robotpy_dir host w = Exit 1%Z w' /\ cwd w' = [].
Proof.
  unfold nearest_project. intros Hn.
  rewrite move_to_robotpy_dir_searches. unfold search_result.
  assert (E : find (has_marker w) (searched (cwd w)) = None).
  { destruct (cwd w) as [|a p] eqn:Ecwd; [exact Hn|].
    rewrite ancestors_split in Hn by discriminate.
    destruct (find (has_marker w) (searched (a :: p))) eqn:E; [|reflexivity].
    rewrite (find_app_some _ _ _ _ E) in Hn. discriminate. }
  rewrite E. destruct (fatal_exits not_in_project (with_cwd [] w)) as [w' [E' [C _]]].
  exists w'. split; [exact E' | exact C].
Qed.

(** C6 (the code departs from the claim).  The claim: the locator
    succeeds whenever the starting directory or any ancestor, the
    filesystem root included, holds the marker file, and exits with
    status 1 only when none does.  The code: started below the root in a
    tree whose only marker lies in the filesystem root, the loop reaches
    the root and exits with status 1 without testing it for the marker. *)
Theorem locator_misses_marker_at_root (w : World) :
  cwd w <> [] ->
  has_marker w [] = true ->
  (forall d, In d (ancestors (cwd w)) -> d <> [] -> has_marker w d = false) ->
  nearest_project w = Some [] /\
  (exists w', move_to_robotpy_dir host w = Exit 1%Z w' /\ cwd w' = []) /\
  ~ locator_as_specified host w.
Proof.
  intros Hcwd Hroot Hnone.
  assert (E : find (has_marker w) (searched (cwd w)) = None).
  { apply find_all_false. intros d Hd. apply Hnone.
    - rewrite ancestors_split by assumption. apply in_or_app. now left.
    - now apply (searched_below_root (cwd w)). }
  assert (N : nearest_project w = Some []).
  { unfold nearest_project. rewrite ancestors_split by assumption.
    rewrite (find_app_none _ _ _ E). cbn. now rewrite Hroot. }
  assert (X : exists w', move_to_robotpy_dir host w = Exit 1%Z w' /\ cwd w' = []).
  { rewrite move_to_robotpy_dir_searches. unfold search_result. rewrite E.
    destruct (fatal_exits not_in_project (with_cwd [] w)) as [w' [E' [C _]]].
    exists w'. split; [exact E' | exact C]. }
  split; [exact N|]. split; [exact X|].
  unfold locator_as_specified. rewrite N.
  destruct X as [w' [E' _]]. rewrite E'. discriminate.
Qed.

End Locator.

Lemma locator_misses_marker_at_root_witness :
  let w := fresh_process ["home"; "team"] [([], [("requirements", [("robotpy", "2024.3.2")])])] in
  nearest_project w = Some [] /\
  (exists w', move_to_robotpy_dir demo_host w = Exit 1%Z w' /\ cwd w' = []) /\
  ~ locator_as_specified demo_host w.
Proof.
  apply (locator_misses_marker_at_root demo_host).
  - discriminate.
  - reflexivity.
  - intros d Hd Hne. cbn in Hd.
    destruct Hd as [<-|[<-|[<-|[]]]]; [reflexivity | reflexivity | congruence].
Defined.

(* ===================================================================== *)
(** ** Running the monad step by step *)
(* ===================================================================== *)

Section Run.
Context {A B : Type}.

Lemma bind_done (m : M A) (k : A -> M B) (w w' : World) (a : A) :
  m w = Done a w' -> bind m k w = k a w'.
Proof. unfold bind. now intros ->. Qed.

Lemma bind_exit (m : M A) (k : A -> M B) (w w' : World) (code : Z) :
  m w = Exit code w' -> bind m k w = Exit code w'.
Proof. unfold bind. now intros ->. Qed.

Lemma bind_raise (m : M A) (k : A -> M B) (w w' : World) (e : exn) :
  m w = Raise e w' -> bind m k w = Raise e w'.
Proof. unfold bind. now intros ->. Qed.
End Run.

Section ConfigRun.
Variables (w : World) (c : ConfigParser.t).
Hypothesis loaded : config w = Some c.

Lemma config_obj_run : config_obj w = Done c w.
Proof. unfold config_obj. now rewrite loaded. Qed.

Lemma config_update_run (f : ConfigParser.t -> ConfigParser.t) :
  config_update f w = Done tt (with_config (Some (f c)) w).
Proof. unfold config_update. now rewrite (bind_done _ _ _ _ _ config_obj_run). Qed.

Lemma cfg_contains_run (section : string) :
  cfg_contains section w = Done (ConfigParser.has_section c section) w.
Proof. unfold cfg_contains. now rewrite (bind_done _ _ _ _ _ config_obj_run). Qed.

Lemma cfg_getitem_run (section : string) :
  ConfigParser.has_section c section = true -> cfg_getitem section w = Done section w.
Proof.
  intros H. unfold cfg_getitem.
  rewrite (bind_done _ _ _ _ _ config_obj_run). now rewrite H.
Qed.

Lemma cfg_getitem_missing (section : string) :
  ConfigParser.has_section c section = false ->
  cfg_getitem section w = Raise (KeyError section) w.
Proof.
  intros H. unfold cfg_getitem.
  rewrite (bind_done _ _ _ _ _ config_obj_run). now rewrite H.
Qed.

Lemma cfg_setitem_run (section : string) (value : list (string * string)) :
  cfg_setitem section value w =
    Done tt (with_config (Some (ConfigParser.setitem c section value)) w).
Proof. apply config_update_run. Qed.

Lemma cfg_delitem_run (section : string) :
  ConfigParser.has_section c section = true ->
  cfg_delitem section w =
    Done tt (with_config (Some (ConfigParser.remove_section c section)) w).
Proof.
  intros H. unfold cfg_delitem.
  rewrite (bind_done _ _ _ _ _ config_obj_run). rewrite H.
  apply config_update_run.
Qed.

Lemma proxy_contains_run (proxy name : string) :
  proxy_contains proxy name w = Done (ConfigParser.has_option c proxy name) w.
Proof. unfold proxy_contains. now rewrite (bind_done _ _ _ _ _ config_obj_run). Qed.

Lemma proxy_getitem_run (proxy name value : string) :
  ConfigParser.get c proxy name = Some value ->
  proxy_getitem proxy name w = Done value w.
Proof.
  intros H. unfold proxy_getitem.
  rewrite (bind_done _ _ _ _ _ config_obj_run). now rewrite H.
Qed.

Lemma proxy_getitem_missing (proxy name : string) :
  ConfigParser.get c proxy name = None ->
  proxy_getitem proxy name w = Raise (KeyError name) w.
Proof.
  intros H. unfold proxy_getitem.
  rewrite (bind_done _ _ _ _ _ config_obj_run). now rewrite H.
Qed.

Lemma proxy_setitem_run (proxy name value : string) :
  proxy_setitem proxy name value w =
    Done tt (with_config (Some (ConfigParser.set c proxy name value)) w).
Proof. apply config_update_run. Qed.

Lemma proxy_delitem_run (proxy name : string) :
  ConfigParser.has_option c proxy name = true ->
  proxy_delitem proxy name w =
    Done tt (with_config (Some (ConfigParser.remove_option c proxy name)) w).
Proof.
  intros H. unfold proxy_delitem.
  rewrite (bind_done _ _ _ _ _ config_obj_run). rewrite H.
  apply config_update_run.
Qed.

Lemma proxy_len_run (proxy : string) :
  proxy_len proxy w = Done (length (ConfigParser.option_names c proxy)) w.
Proof. unfold proxy_len. now rewrite (bind_done _ _ _ _ _ config_obj_run). Qed.

Lemma proxy_iter_run (proxy : string) :
  proxy_iter proxy w = Done (ConfigParser.option_names c proxy) w.
Proof. unfold proxy_iter. now rewrite (bind_done _ _ _ _ _ config_obj_run). Qed.

Lemma proxy_items_run (proxy : string) :
  proxy_items proxy w = Done (ConfigParser.items c proxy) w.
Proof. unfold proxy_items. now rewrite (bind_done _ _ _ _ _ config_obj_run). Qed.

Lemma load_config_cached : load_config w = Done c w.
Proof. unfold load_config. now rewrite loaded. Qed.

End ConfigRun.

Lemma bind_bind {A B C} (m : M A) (f : A -> M B) (g : B -> M C) (w : World) :
  bind (bind m f) g w = bind m (fun a => bind (f a) g) w.
Proof. unfold bind. destruct (m w); reflexivity. Qed.

Lemma ret_run {A} (a : A) (w : World) : ret a w = Done a w.
Proof. reflexivity. Qed.

Create HintDb run discriminated.
#[global] Hint Constants Opaque : run.
#[global] Hint Resolve ret_run config_obj_run config_update_run cfg_contains_run
  cfg_getitem_run cfg_setitem_run cfg_delitem_run proxy_contains_run
  proxy_getitem_run proxy_setitem_run proxy_delitem_run proxy_len_run
  proxy_iter_run proxy_items_run load_config_cached : run.

(** One step of symbolic execution: run the first action of a [bind]. *)
Ltac run :=
  cbv beta iota;
  rewrite ?bind_bind;
  erewrite bind_done by (eauto 4 with run).

(** The same, with the first action run by the given tactic. *)
Ltac run_by tac :=
  cbv beta iota;
  rewrite ?bind_bind;
  erewrite bind_done by tac.

(* ===================================================================== *)
(** ** Field names: [field.split(".")] and [".".join] *)
(* ===================================================================== *)

Module FieldFacts.
Import PyStr.
Local Open Scope list_scope.

Lemma split_char_nonempty (c : ascii) (s : string) : split_char c s <> [].
Proof.
  destruct s as [|d s]; simpl; [discriminate|].
  destruct (Ascii.eqb c d); [discriminate|].
  destruct (split_char c s); discriminate.
Qed.

Lemma split_char_no_sep (c : ascii) (s : string) :
  contains_char c s = false -> split_char c s = [s].
Proof.
  induction s as [|d s IH]; simpl; [reflexivity|].
  destruct (Ascii.eqb c d); simpl; [discriminate|].
  intros H. now rewrite (IH H).
Qed.

Lemma split_char_app (c : ascii) (g n : string) :
  split_char c (g ++ String c n) = split_char c g ++ split_char c n.
Proof.
  induction g as [|d g IH]; simpl.
  - now rewrite Ascii.eqb_refl.
  - destruct (Ascii.eqb c d); simpl; [now rewrite IH|].
    rewrite IH. destruct (split_char c g) eqn:E; [|reflexivity].
    now apply split_char_nonempty in E.
Qed.

Lemma join_split (c : ascii) (s : string) : join_char c (split_char c s) = s.
Proof.
  induction s as [|d s IH]; [reflexivity|].
  cbn [split_char]. destruct (Ascii.eqb_spec c d) as [->|Hne].
  - destruct (split_char d s) as [|h t] eqn:E; [now apply split_char_nonempty in E|].
    cbn [join_char]. cbn [join_char] in IH. now rewrite IH.
  - destruct (split_char c s) as [|h t] eqn:E; [now apply split_char_nonempty in E|].
    cbn [join_char] in *. destruct t; simpl in *; now rewrite IH.
Qed.

Lemma contains_char_app (c : ascii) (g n : string) :
  contains_char c (g ++ String c n) = true.
Proof.
  induction g as [|d g IH]; simpl.
  - now rewrite Ascii.eqb_refl.
  - rewrite IH. apply orb_true_r.
Qed.

(** A field [group.name] whose name has no dot is taken apart into
    [group] and [name]. *)
Lemma field_parts (group name : string) :
  contains_char "." name = false ->
  let parts := split_char "." (group ++ "." ++ name) in
  join_char "." (removelast parts) = group /\ last parts "" = name.
Proof.
  intros Hn. cbn zeta. change ("." ++ name)%string with (String "." name).
  rewrite split_char_app, (split_char_no_sep _ _ Hn).
  rewrite removelast_last, last_last, join_split. now split.
Qed.
End FieldFacts.

(* ===================================================================== *)
(** ** Facts about the parser object *)
(* ===================================================================== *)

Module ConfigFacts.
Import ConfigParser DictFacts.
Local Open Scope list_scope.

Lemma lookup_In {V} (k : string) (v : V) (d : dict V) :
  lookup k d = Some v -> In (k, v) d.
Proof.
  induction d as [|[k' v'] d IH]; simpl; [discriminate|].
  destruct (String.eqb_spec k k') as [->|Hne].
  - intros [= ->]. now left.
  - intros H. right. now apply IH.
Qed.

Lemma wf_section (c : t) (section : string) (opts : options) :
  wf c -> lookup section c = Some opts -> wf_options opts.
Proof.
  intros [_ Hall] Hl. apply lookup_In in Hl.
  rewrite Forall_forall in Hall. exact (Hall _ Hl).
Qed.

Lemma has_option_section (c : t) (section name : string) :
  has_option c section name = true -> has_section c section = true.
Proof.
  unfold has_option, has_section. destruct (lookup section c) eqn:E; [|discriminate].
  intros _. apply lookup_has_key. eauto.
Qed.

Lemma has_section_lookup (c : t) (section : string) :
  has_section c section = true <-> exists opts, lookup section c = Some opts.
Proof. apply lookup_has_key. Qed.

Lemma has_option_get (c : t) (section name : string) :
  has_option c section name = true <-> exists v, get c section name = Some v.
Proof.
  unfold has_option, get. destruct (lookup section c).
  - apply lookup_has_key.
  - split; [discriminate | intros [v H]; discriminate].
Qed.

Lemma has_option_false_get (c : t) (section name : string) :
  has_option c section name = false <-> get c section name = None.
Proof.
  unfold has_option, get. destruct (lookup section c).
  - apply has_key_false.
  - tauto.
Qed.

(** Iterating over a section yields exactly the names it contains. *)
Lemma option_names_has_option (c : t) (section name : string) :
  wf c -> In name (option_names c section) -> has_option c section name = true.
Proof.
  unfold option_names, has_option. intros Hwf.
  destruct (lookup section c) as [opts|] eqn:E; [|intros []].
  intros Hin. destruct (wf_section _ _ _ Hwf E) as [_ Hlow].
  rewrite Forall_forall in Hlow. rewrite (Hlow _ Hin). now apply has_key_In.
Qed.

Lemma option_names_get (c : t) (section name : string) :
  wf c -> In name (option_names c section) ->
  exists v, get c section name = Some v.
Proof. intros. apply has_option_get. now apply option_names_has_option. Qed.

Lemma NoDup_option_names (c : t) (section : string) :
  wf c -> NoDup (option_names c section).
Proof.
  unfold option_names. intros Hwf.
  destruct (lookup section c) as [opts|] eqn:E; [|constructor].
  now destruct (wf_section _ _ _ Hwf E).
Qed.

End ConfigFacts.

(* ===================================================================== *)
(** ** [configure] *)
(* ===================================================================== *)

Section Configure.
Import ConfigParser DictFacts ConfigFacts.
Variable host : Host.
Local Open Scope list_scope.

Lemma is_one (n : nat) : (n =? 1)%nat = (pred n =? 0)%nat \/ n = 0.
Proof. destruct n as [|[|n]]; auto. Qed.

(** Without default options [configure] with the clear flag does what
    is claimed.  On a field [group.key] that is set (outside the two
    requirement sections): when the key is the last entry of its group,
    the whole group section is gone afterwards; when other keys remain,
    the group stays and only the named key is removed from it.  No other
    section changes. *)
Lemma configure_clear_removes_key_or_group
    (w w1 : World) (c : ConfigParser.t) (group name : string)
    (value : option string) :
  move_to_robotpy_dir host w = Done tt w1 ->
  config w = Some c ->
  wf c ->
  plain_config c ->
  ordinary_group group ->
  ascii_only name = true ->
  PyStr.contains_char "." name = false ->
  PyStr.mem group ["requirements"; "requirements.deployed"] = false ->
  has_option c group name = true ->
  exists w' c',
    configure host {| config_field := group ++ "." ++ name;
                      config_value := value;
                      config_clear := true |} w = Done tt w'
    /\ config w' = Some c'
    /\ (forall s, s <> group -> lookup s c' = lookup s c)
    /\ (if (length (option_names c group) =? 1)%nat
        then has_section c' group = false
        else has_section c' group = true
             /\ has_option c' group name = false
             /\ forall k, ascii_only k = true ->
                          optionxform k <> optionxform name ->
                          get c' group k = get c group k).
Proof.
  intros Hmove Hcfg Hwf _ _ _ Hname Hgroup Hopt.
  destruct (move_to_robotpy_dir_done host _ _ Hmove) as [d [-> _]].
  assert (Hsec : has_section c group = true) by now apply (has_option_section c group name).
  destruct (proj1 (has_section_lookup c group) Hsec) as [opts Hopts].
  destruct (wf_section _ _ _ Hwf Hopts) as [Hnd _].
  pose (k0 := optionxform name).
  pose (c1 := remove_option c group name).
  assert (Hc1 : c1 = store group (remove k0 opts) c)
    by (unfold c1, remove_option; now rewrite Hopts).
  assert (Hl1 : lookup group c1 = Some (remove k0 opts))
    by (rewrite Hc1; apply lookup_store_same).
  assert (Hs1 : has_section c1 group = true)
    by (apply has_section_lookup; eauto).
  assert (Hkey : has_key k0 opts = true)
    by (unfold has_option in Hopt; now rewrite Hopts in Hopt).
  unfold configure.
  rewrite (bind_done _ _ _ _ _ Hmove).
  set (w1 := with_cwd d w) in *.
  assert (Hcfg1 : config w1 = Some c) by exact Hcfg.
  run.
  cbn [config_field config_clear config_value].
  destruct (FieldFacts.field_parts group name Hname) as [Eg En].
  cbn zeta in Eg, En. rewrite Eg, En, Hgroup.
  change (group ++ "." ++ name)%string with (group ++ String "." name)%string.
  rewrite FieldFacts.contains_char_app. cbn [negb].
  run. rewrite Hsec. run. run. rewrite Hopt. run. run.
  fold c1.
  set (w2 := with_config (Some c1) w1).
  assert (Hcfg2 : config w2 = Some c1) by reflexivity.
  run. run.
  assert (Hlen1 : length (option_names c1 group) = pred (length (option_names c group))).
  { unfold option_names. rewrite Hl1, Hopts. now rewrite (length_remove k0 opts Hkey). }
  assert (Hlen : (length (option_names c group) =? 1)%nat
                 = (length (option_names c1 group) =? 0)%nat).
  { rewrite Hlen1. destruct (is_one (length (option_names c group))) as [E|E]; [exact E|].
    exfalso. unfold option_names in E. rewrite Hopts in E.
    rewrite (length_remove k0 opts Hkey) in E. discriminate. }
  rewrite Hlen.
  destruct (length (option_names c1 group) =? 0)%nat.
  - rewrite (cfg_delitem_run _ c1 Hcfg2 group Hs1).
    eexists _, _. split; [reflexivity|]. split; [reflexivity|]. split.
    + intros s Hs. unfold remove_section. rewrite lookup_remove_other by assumption.
      rewrite Hc1. now apply lookup_store_other.
    + unfold remove_section. apply has_key_false. apply lookup_remove_same.
      rewrite Hc1. apply NoDup_keys_store. now destruct Hwf.
  - eexists _, _. split; [reflexivity|]. split; [reflexivity|]. split.
    + intros s Hs. rewrite Hc1. now apply lookup_store_other.
    + split; [exact Hs1|]. split.
      * unfold has_option. rewrite Hl1. apply has_key_false.
        now apply lookup_remove_same.
      * intros k _ Hk. unfold get. rewrite Hl1, Hopts.
        now apply lookup_remove_other.
Qed.


(** The clearing branch in closed form. *)
Lemma configure_clear_run
    (w w1 : World) (c : ConfigParser.t) (group name : string)
    (value : option string) :
  move_to_robotpy_dir host w = Done tt w1 ->
  config w = Some c ->
  PyStr.contains_char "." name = false ->
  PyStr.mem group ["requirements"; "requirements.deployed"] = false ->
  configure host {| config_field := group ++ "." ++ name;
                    config_value := value;
                    config_clear := true |} w
    = Done tt (with_config (Some (cleared c group name)) w1).
Proof.
  intros Hmove Hcfg Hname Hgroup.
  destruct (move_to_robotpy_dir_done host _ _ Hmove) as [d [-> _]].
  unfold configure.
  rewrite (bind_done _ _ _ _ _ Hmove).
  set (w1 := with_cwd d w) in *.
  assert (Hcfg1 : config w1 = Some c) by exact Hcfg.
  assert (Hsame : with_config (Some c) w1 = w1)
    by (unfold with_config; rewrite <- Hcfg1; now destruct w1).
  run.
  cbn [config_field config_clear config_value].
  destruct (FieldFacts.field_parts group name Hname) as [Eg En].
  cbn zeta in Eg, En. rewrite Eg, En, Hgroup.
  change (group ++ "." ++ name)%string with (group ++ String "." name)%string.
  rewrite FieldFacts.contains_char_app. cbn [negb].
  unfold cleared. run.
  destruct (has_section c group) eqn:Hsec; cbn [andb].
  - run. run. destruct (has_option c group name) eqn:Hopt.
    + run. run.
      set (c1 := remove_option c group name).
      set (w2 := with_config (Some c1) w1).
      assert (Hcfg2 : config w2 = Some c1) by reflexivity.
      assert (Hs1 : has_section c1 group = true).
      { destruct (proj1 (has_section_lookup c group) Hsec) as [opts Hopts].
        apply has_section_lookup. unfold c1, remove_option. rewrite Hopts.
        eexists. apply lookup_store_same. }
      run. run. cbv zeta. fold c1.
      destruct (length (option_names c1 group) =? 0)%nat.
      * now rewrite (cfg_delitem_run _ c1 Hcfg2 group Hs1).
      * reflexivity.
    + unfold ret. now rewrite Hsame.
  - run. unfold ret. now rewrite Hsame.
Qed.

End Configure.

(** [robotpy config --clear auth.hostname] where the host name is all
    that section [auth] holds: the section goes with it. *)
Example clear_last_key_removes_group :
  let c := [("requirements", [("robotpy", "2024.3.2")]);
            ("auth", [("hostname", "10.0.0.2")])] in
  let o := configure demo_host {| config_field := "auth.hostname";
                                  config_value := None;
                                  config_clear := true |}
             (loaded_process ["home"; "team"] c) in
  completes o = true
  /\ final_config o = Some [("requirements", [("robotpy", "2024.3.2")])].
Proof. vm_compute. split; reflexivity. Qed.

(* ===================================================================== *)
(** ** Clearing a field beside default options *)
(* ===================================================================== *)

Module ClearWithDefaults.
Import WithDefaults DictFacts ConfigFacts.
Local Open Scope list_scope.

Lemma ordinary_not_defaults (group : string) :
  ordinary_group group -> names_defaults group = false.
Proof.
  intros [H1 H2]. unfold names_defaults, default_section.
  apply String.eqb_neq in H1, H2. now rewrite H1, H2.
Qed.

Lemma ordinary_not_default_section (group : string) :
  ordinary_group group -> String.eqb group default_section = false.
Proof. intros [_ H]. now apply String.eqb_neq. Qed.

Lemma has_section_bare (c : CP.t) (group : string) :
  has_section (bare c) group = CP.has_section c group.
Proof. reflexivity. Qed.

Lemma has_option_bare (c : CP.t) (group name : string) :
  ordinary_group group ->
  has_option (bare c) group name = CP.has_option c group name.
Proof.
  intros Hord. unfold has_option, CP.has_option.
  rewrite (ordinary_not_defaults group Hord). cbn [bare sections defaults].
  destruct (CP.lookup group c); [|reflexivity].
  apply orb_false_r.
Qed.

Lemma proxy_delitem_bare (c : CP.t) (group name : string) :
  ordinary_group group ->
  CP.has_option c group name = true ->
  proxy_delitem (bare c) group name = Ok (bare (CP.remove_option c group name)).
Proof.
  intros Hord Hopt. unfold proxy_delitem.
  rewrite (has_option_bare c group name Hord), Hopt.
  unfold remove_option, CP.remove_option.
  rewrite (ordinary_not_defaults group Hord). cbn [bare sections defaults].
  unfold CP.has_option in Hopt.
  destruct (CP.lookup group c) as [opts|]; [|discriminate].
  now rewrite Hopt.
Qed.

Lemma proxy_len_bare (c : CP.t) (group : string) :
  ordinary_group group ->
  CP.has_section c group = true ->
  proxy_len (bare c) group = Some (length (CP.option_names c group)).
Proof.
  intros Hord Hsec. unfold proxy_len, options, CP.option_names.
  rewrite (ordinary_not_default_section group Hord). cbn [bare sections defaults].
  destruct (proj1 (has_section_lookup c group) Hsec) as [opts Hopts].
  rewrite Hopts. cbn [option_map CP.keys map filter]. now rewrite app_nil_r.
Qed.

Lemma delitem_bare (c : CP.t) (group : string) :
  ordinary_group group ->
  CP.has_section c group = true ->
  delitem (bare c) group = Ok (bare (CP.remove_section c group)).
Proof.
  intros Hord Hsec. unfold delitem.
  rewrite (ordinary_not_default_section group Hord), has_section_bare, Hsec.
  reflexivity.
Qed.

(** Without default options the two embeddings of the clearing branch
    agree on every group that names a section of its own. *)
Lemma clear_field_bare (c : CP.t) (group name : string) :
  ordinary_group group ->
  clear_field (bare c) group name = Ok (bare (cleared c group name)).
Proof.
  intros Hord. unfold clear_field, cleared, contains.
  rewrite (ordinary_not_default_section group Hord), has_section_bare,
    (has_option_bare c group name Hord).
  cbn [orb].
  destruct (CP.has_section c group) eqn:Hsec; cbn [andb]; [|reflexivity].
  destruct (CP.has_option c group name) eqn:Hopt; [|reflexivity].
  rewrite (proxy_delitem_bare c group name Hord Hopt). cbv zeta.
  assert (Hs1 : CP.has_section (CP.remove_option c group name) group = true).
  { destruct (proj1 (has_section_lookup c group) Hsec) as [opts Hopts].
    apply has_section_lookup. unfold CP.remove_option. rewrite Hopts.
    eexists. apply lookup_store_same. }
  rewrite (proxy_len_bare _ group Hord Hs1).
  destruct (length (CP.option_names (CP.remove_option c group name) group) =? 0)%nat;
    [|reflexivity].
  now apply delitem_bare.
Qed.

End ClearWithDefaults.

Section ClearBesideDefaults.
Import WithDefaults DictFacts ConfigFacts ClearWithDefaults.
Local Open Scope list_scope.

(** C9 (the code departs from the claim).  When the parser object has
    default options (the marker file has a section [[DEFAULT]] that is
    not empty), clearing the field [group.name] whose key is the only
    entry of its group removes the key but leaves the group in place,
    empty: the length that the script tests counts the default options,
    which the section shows as its own.  And clearing the last default
    option itself ([DEFAULT.name]) ends in [ValueError], because the
    script then deletes the default section. *)
Theorem clear_beside_defaults_keeps_the_group
    (p : parser) (group name value : string) :
  ascii_only name = true ->
  (defaults p <> [] ->
   ordinary_group group ->
   CP.lookup group (sections p) = Some [(CP.optionxform name, value)] ->
   exists p',
     clear_field p group name = Ok p'
     /\ has_section p' group = true
     /\ CP.lookup group (sections p') = Some []
     /\ defaults p' = defaults p)
  /\ (defaults p = [(CP.optionxform name, value)] ->
      clear_field p "DEFAULT" name
      = Raised (RaisedValueError "Cannot remove the default section.")).
Proof.
  intros _. split.
  - intros Hdef Hord Hl.
    pose proof (ordinary_not_defaults group Hord) as Hnd.
    pose proof (ordinary_not_default_section group Hord) as Hne.
    assert (Hsec : has_section p group = true).
    { unfold has_section. apply lookup_has_key. eauto. }
    assert (Hown : CP.has_key (CP.optionxform name) [(CP.optionxform name, value)] = true).
    { unfold CP.has_key, PyStr.mem. cbn [CP.keys map fst existsb].
      now rewrite String.eqb_refl. }
    assert (Hopt : has_option p group name = true).
    { unfold has_option. now rewrite Hnd, Hl, Hown. }
    set (p1 := {| defaults := defaults p; sections := CP.store group [] (sections p) |}).
    assert (Hdel : proxy_delitem p group name = Ok p1).
    { unfold proxy_delitem, remove_option. rewrite Hopt, Hnd, Hl, Hown.
      unfold p1. do 3 f_equal. cbn [CP.remove]. now rewrite String.eqb_refl. }
    assert (Hlen : proxy_len p1 group = Some (length (CP.keys (defaults p)))).
    { unfold proxy_len, options. rewrite Hne. unfold p1. cbn [sections defaults].
      rewrite lookup_store_same. cbn [option_map CP.keys map app]. do 2 f_equal.
      generalize (CP.keys (defaults p)). intros l.
      induction l as [|k l IH]; [reflexivity|].
      cbn [filter]. change (CP.has_key k (@nil (string * string))) with false.
      cbn [negb]. now rewrite IH. }
    exists p1. split; [|split; [|split]].
    + unfold clear_field, contains. rewrite Hsec, Hopt, orb_true_r. cbn [andb].
      rewrite Hdel, Hlen.
      destruct (defaults p) as [|[k v] rest]; [now elim Hdef | reflexivity].
    + unfold has_section, p1. cbn [sections]. apply lookup_has_key.
      eexists. apply lookup_store_same.
    + unfold p1. cbn [sections]. apply lookup_store_same.
    + reflexivity.
  - intros Hdef.
    assert (Hown : CP.has_key (CP.optionxform name) (defaults p) = true).
    { rewrite Hdef. unfold CP.has_key, PyStr.mem. cbn [CP.keys map fst existsb].
      now rewrite String.eqb_refl. }
    assert (Hopt : has_option p "DEFAULT" name = true) by exact Hown.
    set (p1 := {| defaults := []; sections := sections p |}).
    assert (Hdel : proxy_delitem p "DEFAULT" name = Ok p1).
    { unfold proxy_delitem. rewrite Hopt.
      change (remove_option p "DEFAULT" name)
        with (Some (CP.has_key (CP.optionxform name) (defaults p),
                    {| defaults := CP.remove (CP.optionxform name) (defaults p);
                       sections := sections p |})).
      rewrite Hown. unfold p1. do 3 f_equal. rewrite Hdef. cbn [CP.remove].
      now rewrite String.eqb_refl. }
    unfold clear_field.
    change (contains p "DEFAULT") with true. rewrite Hopt. cbn [andb].
    rewrite Hdel. reflexivity.
Qed.

End ClearBesideDefaults.

Lemma clear_beside_defaults_keeps_the_group_witness :
  let p := {| WithDefaults.defaults := [("editor", "vi")];
              WithDefaults.sections :=
                [("requirements", [("robotpy", "2024.3.2")]);
                 ("auth", [("hostname", "10.0.0.2")])] |} in
  (exists p',
     WithDefaults.clear_field p "auth" "hostname" = WithDefaults.Ok p'
     /\ WithDefaults.has_section p' "auth" = true
     /\ CP.lookup "auth" (WithDefaults.sections p') = Some []
     /\ WithDefaults.defaults p' = WithDefaults.defaults p)
  /\ WithDefaults.clear_field p "DEFAULT" "editor"
     = WithDefaults.Raised
         (WithDefaults.RaisedValueError "Cannot remove the default section.").
Proof.
  intros p. split.
  - apply (proj1 (clear_beside_defaults_keeps_the_group p "auth" "hostname" "10.0.0.2"
                    eq_refl)).
    + discriminate.
    + split; discriminate.
    + reflexivity.
  - apply (proj2 (clear_beside_defaults_keeps_the_group p "DEFAULT" "editor" "vi"
                    eq_refl)).
    reflexivity.
Defined.

(** A key that a section shows only through the defaults cannot be
    cleared from it: the deletion raises [KeyError]. *)
Example clear_of_inherited_key_raises :
  WithDefaults.clear_field
    {| WithDefaults.defaults := [("editor", "vi")];
       WithDefaults.sections := [("auth", [("hostname", "10.0.0.2")])] |}
    "auth" "editor"
  = WithDefaults.Raised (WithDefaults.RaisedKeyError "editor").
Proof. reflexivity. Qed.

(* ===================================================================== *)
(** ** What a piece of the script may change *)
(* ===================================================================== *)

Section Ensures.
Variable R : World -> World -> Prop.
Hypothesis R_refl : forall w, R w w.
Hypothesis R_trans : forall w1 w2 w3, R w1 w2 -> R w2 w3 -> R w1 w3.

Lemma ensures_ret {A} (a : A) : ensures R (ret a).
Proof. intros w. apply R_refl. Qed.

Lemma ensures_sys_exit {A} (code : Z) : ensures R (@sys_exit A code).
Proof. intros w. apply R_refl. Qed.

Lemma ensures_raise {A} (e : exn) : ensures R (@raise A e).
Proof. intros w. apply R_refl. Qed.

Lemma ensures_bind {A B} (m : M A) (k : A -> M B) :
  ensures R m -> (forall a, ensures R (k a)) -> ensures R (bind m k).
Proof.
  intros Hm Hk w. unfold bind. specialize (Hm w).
  destruct (m w) as [a w'| | |]; simpl in *; auto.
  specialize (Hk a w'). destruct (k a w'); simpl in *; eauto.
Qed.

Lemma ensures_for_each {A} (body : A -> M unit) (xs : list A) :
  (forall x, In x xs -> ensures R (body x)) -> ensures R (for_each body xs).
Proof.
  induction xs as [|x xs IH]; intros H; cbn [for_each].
  - apply ensures_ret.
  - apply ensures_bind; [apply H; now left | intros _].
    apply IH. intros y Hy. apply H. now right.
Qed.

Lemma ensures_filter_m {A} (cond : A -> M bool) (xs : list A) :
  (forall x, In x xs -> ensures R (cond x)) -> ensures R (filter_m cond xs).
Proof.
  induction xs as [|x xs IH]; intros H; cbn [filter_m].
  - apply ensures_ret.
  - apply ensures_bind; [apply H; now left | intros b].
    apply ensures_bind; [|intros kept; apply ensures_ret].
    apply IH. intros y Hy. apply H. now right.
Qed.

(** An action that ends normally in a world related to the first. *)
Lemma ensures_step {A} (m : M A) :
  (forall w, exists a w', m w = Done a w' /\ R w w') -> ensures R m.
Proof. intros H w. destruct (H w) as [a [w' [-> HR]]]. exact HR. Qed.

End Ensures.

Section Changes.
Variable P : ConfigParser.t -> ConfigParser.t -> Prop.
Variable Q : event -> Prop.
Hypothesis P_refl : forall c, P c c.
Hypothesis P_trans : forall c1 c2 c3, P c1 c2 -> P c2 c3 -> P c1 c3.
Local Open Scope list_scope.

Lemma changes_refl (w : World) : changes P Q w w.
Proof.
  intros c Hc. repeat split; eauto.
  exists []. split; [now rewrite app_nil_r | constructor].
Qed.

Lemma changes_trans (w1 w2 w3 : World) :
  changes P Q w1 w2 -> changes P Q w2 w3 -> changes P Q w1 w3.
Proof.
  intros H12 H23 c Hc.
  destruct (H12 c Hc) as [Hcwd [Hm [[c2 [Hc2 HP]] [n1 [Ht1 HQ1]]]]].
  destruct (H23 c2 Hc2) as [Hcwd' [Hm' [[c3 [Hc3 HP']] [n2 [Ht2 HQ2]]]]].
  repeat split; try congruence.
  - exists c3. split; [assumption | eauto].
  - exists (n1 ++ n2). split.
    + rewrite Ht2, Ht1. now rewrite app_assoc.
    + apply Forall_app. now split.
Qed.

(** Same world but for new events. *)
Lemma changes_events (w : World) (new : list event) :
  Forall Q new -> changes P Q w (with_trace (trace w ++ new) w).
Proof.
  intros HQ c Hc. cbn. repeat split; eauto.
Qed.

(** Same world but for the configuration object. *)
Lemma changes_config (w : World) (f : ConfigParser.t -> ConfigParser.t) :
  (forall c, config w = Some c -> P c (f c)) ->
  forall c, config w = Some c -> changes P Q w (with_config (Some (f c)) w).
Proof.
  intros HP c Hc c0 Hc0. cbn. repeat split.
  - exists (f c). split; [reflexivity|]. assert (c0 = c) by congruence. subst. auto.
  - exists []. split; [now rewrite app_nil_r | constructor].
Qed.

Local Abbreviation ok := (ensures (changes P Q)).

Lemma ok_ret {A} (a : A) : ok (ret a).
Proof. apply ensures_ret, changes_refl. Qed.

Lemma ok_bind {A B} (m : M A) (k : A -> M B) :
  ok m -> (forall a, ok (k a)) -> ok (bind m k).
Proof. intros. eapply ensures_bind; eauto using changes_refl, changes_trans. Qed.

Lemma ok_for_each {A} (body : A -> M unit) (xs : list A) :
  (forall x, In x xs -> ok (body x)) -> ok (for_each body xs).
Proof. intros. eapply ensures_for_each; eauto using changes_refl, changes_trans. Qed.

Lemma ok_filter_m {A} (cond : A -> M bool) (xs : list A) :
  (forall x, In x xs -> ok (cond x)) -> ok (filter_m cond xs).
Proof. intros. eapply ensures_filter_m; eauto using changes_refl, changes_trans. Qed.

Lemma ok_sys_exit {A} (code : Z) : ok (@sys_exit A code).
Proof. apply ensures_sys_exit, changes_refl. Qed.

Lemma ok_raise {A} (e : exn) : ok (@raise A e).
Proof. apply ensures_raise, changes_refl. Qed.

Lemma ok_getcwd : ok getcwd.
Proof. intros w. apply changes_refl. Qed.

Lemma ok_config_obj : ok config_obj.
Proof. intros w. unfold config_obj. destruct (config w); apply changes_refl. Qed.

Lemma ok_log (e : event) : Q e -> ok (log e).
Proof. intros He w. apply changes_events. now constructor. Qed.

Lemma ok_config_update (f : ConfigParser.t -> ConfigParser.t) :
  (forall c, P c (f c)) -> ok (config_update f).
Proof.
  intros HP w. unfold config_update, bind, config_obj.
  destruct (config w) as [c|] eqn:Hc; cbn.
  - apply changes_config; auto.
  - intros c Hc'. congruence.
Qed.

Lemma ok_load_config : ok load_config.
Proof.
  intros w. unfold load_config. destruct (config w) eqn:Hc; cbn.
  - apply changes_refl.
  - intros c Hc'. congruence.
Qed.

Lemma ok_set_verbose_level (v : Z) : ok (set_verbose_level v).
Proof.
  intros w c Hc. cbn. repeat split; eauto.
  exists []. split; [now rewrite app_nil_r | constructor].
Qed.

Lemma ok_cfg_contains (s : string) : ok (cfg_contains s).
Proof. apply ok_bind; [apply ok_config_obj | intros; apply ok_ret]. Qed.

Lemma ok_cfg_getitem (s : string) : ok (cfg_getitem s).
Proof.
  apply ok_bind; [apply ok_config_obj | intros c].
  destruct (ConfigParser.has_section c s); [apply ok_ret | apply ok_raise].
Qed.

(** [config[section]] hands the section name on as the view. *)
Lemma ok_bind_cfg_getitem {B} (s : string) (k : string -> M B) :
  ok (k s) -> ok (bind (cfg_getitem s) k).
Proof.
  intros Hk w. unfold bind at 1.
  destruct (cfg_getitem s w) as [a w'|code w'|e w'|] eqn:E;
    unfold cfg_getitem, bind, config_obj in E;
    destruct (config w) as [c|] eqn:Hc; try discriminate;
    try (destruct (ConfigParser.has_section c s); try discriminate);
    injection E as <- <- || injection E as <-; subst;
    first [ apply Hk | apply changes_refl ].
Qed.

Lemma ok_proxy_contains (p n : string) : ok (proxy_contains p n).
Proof. apply ok_bind; [apply ok_config_obj | intros; apply ok_ret]. Qed.

Lemma ok_proxy_getitem (p n : string) : ok (proxy_getitem p n).
Proof.
  apply ok_bind; [apply ok_config_obj | intros c].
  destruct (ConfigParser.get c p n); [apply ok_ret | apply ok_raise].
Qed.

Lemma ok_proxy_len (p : string) : ok (proxy_len p).
Proof. apply ok_bind; [apply ok_config_obj | intros; apply ok_ret]. Qed.

Lemma ok_proxy_iter (p : string) : ok (proxy_iter p).
Proof. apply ok_bind; [apply ok_config_obj | intros; apply ok_ret]. Qed.

Lemma ok_proxy_items (p : string) : ok (proxy_items p).
Proof. apply ok_bind; [apply ok_config_obj | intros; apply ok_ret]. Qed.

Lemma ok_dict_getitem (d : ConfigParser.dict string) (k : string) : ok (dict_getitem d k).
Proof. unfold dict_getitem. destruct (ConfigParser.lookup k d); [apply ok_ret | apply ok_raise]. Qed.

Lemma ok_tracked (pkg : string) : ok (tracked pkg).
Proof. apply ok_bind; [apply ok_cfg_getitem | intros; apply ok_proxy_contains]. Qed.

Lemma ok_needs_deploy (deployed pkgs pkg : string) : ok (needs_deploy deployed pkgs pkg).
Proof.
  apply ok_bind; [apply ok_proxy_contains | intros b].
  destruct b; cbn [negb]; [|apply ok_ret].
  apply ok_bind; [apply ok_proxy_getitem | intros old].
  apply ok_bind; [apply ok_proxy_getitem | intros new]. apply ok_ret.
Qed.

Section WithHost.
Variable host : Host.
Hypothesis Q_print : forall b s, Q (EvPrint b s).

Lemma ok_subprocess_run (argv : list string) (cap : bool) :
  Q (EvRun argv cap) -> ok (subprocess_run host argv cap).
Proof. intros He w. apply changes_events. now constructor. Qed.

Lemma ok_python (args : list string) (cap : option bool) :
  (forall b, Q (EvRun (sys_executable host :: args) b)) -> ok (python host args cap).
Proof. intros He w. unfold python. apply ok_subprocess_run. apply He. Qed.

Lemma ok_rpinst (args : list string) :
  (forall b, Q (EvRun (sys_executable host :: "-m" :: "robotpy_installer" :: args) b)) ->
  ok (rpinst host args).
Proof. intros He. now apply ok_python. Qed.

Lemma ok_msg (m : string) (b : bool) : ok (msg host m b).
Proof.
  intros w. unfold msg. destruct (_ || _).
  - apply changes_refl.
  - apply ok_log. apply Q_print.
Qed.

Lemma ok_warn (m : string) : ok (warn host m).
Proof. apply ok_msg. Qed.

Lemma ok_error (m : string) : ok (error host m).
Proof. apply ok_msg. Qed.

Lemma ok_fatal (m : string) : ok (fatal host m).
Proof. apply ok_bind; [apply ok_msg | intros; apply ok_sys_exit]. Qed.

Lemma ok_expect_result (r : CompletedProcess) (m : string) (absolute : bool) :
  ok (expect_result host r m absolute).
Proof.
  unfold expect_result. destruct (negb _); [|apply ok_ret].
  destruct absolute; [apply ok_fatal | apply ok_error].
Qed.

Lemma ok_load_packages (refresh : bool) :
  (forall b, Q (EvRun [sys_executable host; "-m"; "pip"; "freeze"] b)) ->
  ok (load_packages host refresh).
Proof.
  intros He.
  assert (Hre : ok (reload_packages host)).
  { apply ok_bind; [now apply ok_python | intros res].
    apply ok_bind.
    - destruct (negb _); [apply ok_fatal | apply ok_ret].
    - intros _ w c Hc. cbn. repeat split; eauto.
      exists []. split; [now rewrite app_nil_r | constructor]. }
  intros w. unfold load_packages. destruct (packages w).
  - destruct refresh; [apply Hre | apply changes_refl].
  - apply Hre.
Qed.

End WithHost.
End Changes.

(* ===================================================================== *)
(** ** More steps: messages, the working directory, children *)
(* ===================================================================== *)

Lemma with_trace_nil (w : World) : with_trace (trace w ++ []) w = w.
Proof. destruct w. cbn. now rewrite app_nil_r. Qed.

Lemma msg_run (host : Host) (m : string) (b : bool) (w : World) :
  msg host m b w = Done tt (with_trace (trace w ++ msg_events host m b w) w).
Proof.
  unfold msg, msg_events, log. destruct (_ || _); [|reflexivity].
  now rewrite with_trace_nil.
Qed.

Lemma error_run (host : Host) (m : string) (w : World) :
  error host m w =
    Done tt (with_trace (trace w ++ msg_events host ("error: " ++ m) true w) w).
Proof. apply msg_run. Qed.

Lemma warn_run (host : Host) (m : string) (w : World) :
  warn host m w =
    Done tt (with_trace (trace w ++ msg_events host ("warning: " ++ m) false w) w).
Proof. apply msg_run. Qed.

Lemma fatal_run (host : Host) (m : string) (w : World) :
  fatal host m w =
    Exit 1%Z (with_trace (trace w ++ msg_events host ("fatal: " ++ m) true w) w).
Proof. unfold fatal. erewrite bind_done by apply msg_run. reflexivity. Qed.

Lemma getcwd_run (w : World) : getcwd w = Done (cwd w) w.
Proof. reflexivity. Qed.

Lemma chdir_run (d : path) (w : World) : chdir d w = Done tt (with_cwd d w).
Proof. reflexivity. Qed.

Lemma log_run (e : event) (w : World) :
  log e w = Done tt (with_trace (trace w ++ [e]) w).
Proof. reflexivity. Qed.

Lemma subprocess_run_run (host : Host) (argv : list string) (cap : bool) (w : World) :
  subprocess_run host argv cap w =
    Done (child host (trace w) argv) (with_trace (trace w ++ [EvRun argv cap]) w).
Proof. reflexivity. Qed.

Lemma set_verbose_level_run (v : Z) (w : World) :
  set_verbose_level v w = Done tt (with_verbose_level v w).
Proof. reflexivity. Qed.

Lemma os_isfile_marker_run (w : World) :
  os_isfile_marker w = Done (isfile_marker w) w.
Proof. reflexivity. Qed.

Lemma os_isfile_run (name : string) (w : World) :
  os_isfile name w = Done (isfile w name) w.
Proof. reflexivity. Qed.

Lemma os_exists_not_dir_run (p : path) (w : World) :
  os_exists_not_dir p w = Done (is_regular_file w p) w.
Proof. reflexivity. Qed.

#[global] Hint Resolve msg_run error_run warn_run getcwd_run chdir_run log_run
  subprocess_run_run set_verbose_level_run os_isfile_marker_run os_isfile_run
  os_exists_not_dir_run : run.

(* ===================================================================== *)
(** ** [remove] *)
(* ===================================================================== *)

Section Remove.
Import DictFacts ConfigFacts.
Variable host : Host.
Local Open Scope list_scope.

(** Asked to remove [robotpy], spelled exactly so, [remove] only reports
    an error: the configuration stays as it is. *)
Lemma remove_refuses_robotpy (w : World) :
  remove_one host "robotpy" w =
    Done tt (with_trace
               (trace w ++ msg_events host
                  "error: robotpy can't be removed from requirements" true w) w).
Proof. unfold remove_one. cbn [String.eqb Ascii.eqb Bool.eqb]. apply error_run. Qed.

(** C5 (the code departs from the claim).  The claim: once a project is
    initialized the option [robotpy] is in section [requirements] after
    every handler, because [remove] refuses to delete the base package.
    The code: the refusal compares the argument with ["robotpy"] exactly,
    while the parser object looks options up after lower-casing them; so
    for a spelling such as [ROBOTPY] the request is not refused and the
    option [robotpy] is deleted. *)
Theorem remove_deletes_base_package_spelled_otherwise
    (w w1 : World) (c : CP.t) (pkg version : string) :
  move_to_robotpy_dir host w = Done tt w1 ->
  config w = Some c ->
  CP.wf c ->
  CP.get c "requirements" "robotpy" = Some version ->
  pkg <> "robotpy" ->
  CP.optionxform pkg = "robotpy" ->
  exists w' c',
    remove host {| remove_packages := [pkg] |} w = Done tt w'
    /\ config w' = Some c'
    /\ CP.has_section c' "requirements" = true
    /\ CP.has_option c' "requirements" "robotpy" = false.
Proof.
  intros Hmove Hcfg Hwf Hget Hne Hlow.
  destruct (move_to_robotpy_dir_done host _ _ Hmove) as [d [-> _]].
  set (w1 := with_cwd d w) in *.
  assert (Hcfg1 : config w1 = Some c) by exact Hcfg.
  assert (Hopt : CP.has_option c "requirements" pkg = true).
  { apply has_option_get. exists version. unfold CP.get in *. now rewrite Hlow. }
  assert (Hsec : CP.has_section c "requirements" = true)
    by now apply (has_option_section c "requirements" pkg).
  destruct (proj1 (has_section_lookup c "requirements") Hsec) as [opts Hopts].
  destruct (wf_section _ _ _ Hwf Hopts) as [Hnd _].
  unfold remove. run. run. cbn [remove_packages for_each].
  unfold remove_one. apply String.eqb_neq in Hne. rewrite Hne.
  run. run. rewrite Hopt. run. run.
  eexists _, _. split; [reflexivity|]. split; [reflexivity|].
  unfold CP.remove_option. rewrite Hopts, Hlow. split.
  - apply has_section_lookup. eexists. apply lookup_store_same.
  - unfold CP.has_option. rewrite lookup_store_same.
    apply has_key_false. now apply lookup_remove_same.
Qed.

End Remove.

Lemma remove_deletes_base_package_spelled_otherwise_witness :
  let c := [("requirements", [("robotpy", "2024.3.2"); ("foo", "1.0")])] in
  let w := loaded_process ["home"; "team"] c in
  exists w' c',
    remove demo_host {| remove_packages := ["ROBOTPY"] |} w = Done tt w'
    /\ config w' = Some c'
    /\ ConfigParser.has_section c' "requirements" = true
    /\ ConfigParser.has_option c' "requirements" "robotpy" = false.
Proof.
  intros c w.
  apply (remove_deletes_base_package_spelled_otherwise
           demo_host w w c "ROBOTPY" "2024.3.2").
  - reflexivity.
  - reflexivity.
  - split; repeat constructor; simpl; intuition discriminate.
  - reflexivity.
  - discriminate.
  - reflexivity.
Defined.

(** [configure] refuses fields of the two requirement sections: it exits
    with status 1 and the configuration object is as before. *)
Lemma configure_refuses_requirements
    (host : Host) (w w1 : World) (c : ConfigParser.t) (group name : string)
    (value : option string) (clear : bool) :
  move_to_robotpy_dir host w = Done tt w1 ->
  config w = Some c ->
  PyStr.contains_char "." name = false ->
  group = "requirements" \/ group = "requirements.deployed" ->
  exists w',
    configure host {| config_field := group ++ "." ++ name;
                      config_value := value;
                      config_clear := clear |} w = Exit 1%Z w'
    /\ config w' = Some c.
Proof.
  intros Hmove Hcfg Hname Hgroup.
  destruct (move_to_robotpy_dir_done host _ _ Hmove) as [d [-> _]].
  set (w1 := with_cwd d w) in *.
  assert (Hcfg1 : config w1 = Some c) by exact Hcfg.
  unfold configure. run. run. cbn [config_field config_clear config_value].
  destruct (FieldFacts.field_parts group name Hname) as [Eg En].
  cbn zeta in Eg, En. rewrite Eg, En.
  change (group ++ "." ++ name)%string with (group ++ String "." name)%string.
  rewrite FieldFacts.contains_char_app. cbn [negb].
  assert (Hmem : PyStr.mem group ["requirements"; "requirements.deployed"] = true)
    by (destruct Hgroup; subst; reflexivity).
  rewrite Hmem. run. eexists. split; [reflexivity | exact Hcfg1].
Qed.

(* ===================================================================== *)
(** ** The dispatcher and custom commands *)
(* ===================================================================== *)

Section Dispatcher.
Import DictFacts ConfigFacts.
Variable host : Host.
Local Open Scope list_scope.

Lemma load_config_fresh (w : World) (c : CP.t) :
  config w = None -> marker_at w (cwd w) = Some c ->
  load_config w =
    Done c (with_config (Some c) (with_trace (trace w ++ [EvRead (cwd w)]) w)).
Proof. intros Hc Hm. unfold load_config. now rewrite Hc, Hm. Qed.

Lemma load_config_absent (w : World) :
  config w = None -> marker_at w (cwd w) = None ->
  load_config w =
    Done CP.empty
      (with_config (Some CP.empty) (with_trace (trace w ++ [EvRead (cwd w)]) w)).
Proof. intros Hc Hm. unfold load_config. now rewrite Hc, Hm. Qed.

Lemma last_cons_default {A} (l : list A) :
  forall x d, last (x :: l) d = last l x.
Proof.
  induction l as [|y l IH]; intros x d; [reflexivity|].
  change (last (x :: y :: l) d) with (last (y :: l) d).
  now rewrite !IH.
Qed.

(** The registration loop leaves [command] at the last name. *)
Lemma register_all_run (names : list string) :
  forall (f : frame) (w : World),
    NoDup names ->
    (forall n, In n names -> ~ In n (registered f)) ->
    register_all f names w =
      Done {| command := last (map Some names) (command f);
              registered := registered f ++ names |} w.
Proof.
  induction names as [|n names IH]; intros f w Hnd Hfresh.
  - cbn. rewrite app_nil_r. now destruct f.
  - cbn [register_all]. unfold register.
    assert (Hn : PyStr.mem n (registered f) = false)
      by (apply mem_false; apply Hfresh; now left).
    rewrite Hn. erewrite bind_done by reflexivity.
    inversion Hnd as [|? ? Hnin Hnd']; subst.
    rewrite IH; cbn [command registered].
    + rewrite <- app_assoc. cbn [app map]. now rewrite last_cons_default.
    + assumption.
    + intros m Hm Hin. apply in_app_or in Hin. destruct Hin as [Hin|[<-|[]]].
      * apply (Hfresh m); [now right | assumption].
      * contradiction.
Qed.

Lemma last_key {V} (d : CP.dict V) (dflt : string * V) :
  d <> [] -> last (map Some (CP.keys d)) None = Some (fst (last d dflt)).
Proof.
  induction d as [|[k v] d IH]; [congruence|intros _].
  destruct d as [|e d]; [reflexivity|].
  change (last (map Some (CP.keys ((k, v) :: e :: d))) None)
    with (last (map Some (CP.keys (e :: d))) None).
  change (last ((k, v) :: e :: d) dflt) with (last (e :: d) dflt).
  apply IH. discriminate.
Qed.

Lemma lookup_last {V} (d : CP.dict V) (dflt : string * V) :
  d <> [] -> NoDup (CP.keys d) ->
  CP.lookup (fst (last d dflt)) d = Some (snd (last d dflt)).
Proof.
  induction d as [|[k v] d IH]; [congruence|intros _ Hnd].
  inversion Hnd as [|? ? Hnin Hnd']; subst.
  destruct d as [|e d].
  - cbn. now rewrite String.eqb_refl.
  - change (last ((k, v) :: e :: d) dflt) with (last (e :: d) dflt).
    cbn [CP.lookup].
    destruct (String.eqb_spec (fst (last (e :: d) dflt)) k) as [E|_].
    + exfalso. apply Hnin. rewrite <- E. unfold CP.keys. apply in_map.
      destruct (@exists_last _ (e :: d)) as [l' [a Ha]]; [discriminate|].
      rewrite Ha. rewrite last_last. apply in_or_app. right. now left.
    + apply IH; [discriminate | assumption].
Qed.

(** C4 (the code departs from the claim).  The claim: the sub-command
    registered for an entry of section [command] runs that entry's own
    command line.  The code: every lambda reads the loop variable
    [command] of [main] when it is called, after the loop has ended; so
    whichever custom sub-command is invoked, the command line of the last
    entry of the section is run, followed by the trailing arguments. *)
Theorem custom_command_runs_last_entry
    (w : World) (c : CP.t) (cmds : CP.options)
    (verbose : Z) (name : string) (rest : list string) :
  config w = None ->
  marker_at w (cwd w) = Some c ->
  CP.wf c ->
  CP.lookup "command" c = Some cmds ->
  (forall n, In n (CP.keys cmds) -> ~ In n builtin_names) ->
  In name (CP.keys cmds) ->
  exists w',
    main host (Custom verbose name rest) w = Done tt w'
    /\ trace w' =
         trace w ++
         [EvRead (cwd w);
          EvRun (shlex_split host (snd (last cmds ("", ""))) ++ rest) false;
          EvWriteConfig (cwd w) c].
Proof.
  intros Hnone Hmark Hwf Hcmds Hfresh Hname.
  destruct (wf_section _ _ _ Hwf Hcmds) as [Hnd Hlow].
  assert (Hne : cmds <> []) by (destruct cmds; [destruct Hname | discriminate]).
  assert (Hsec : CP.has_section c "command" = true)
    by (apply has_section_lookup; eauto).
  unfold main.
  rewrite (bind_done _ _ _ _ _ (load_config_fresh w c Hnone Hmark)).
  set (w0 := with_config (Some c) (with_trace (trace w ++ [EvRead (cwd w)]) w)).
  assert (Hcfg0 : config w0 = Some c) by reflexivity.
  run. rewrite Hsec. run. run.
  assert (Hnames : CP.option_names c "command" = CP.keys cmds)
    by (unfold CP.option_names; now rewrite Hcmds).
  rewrite Hnames.
  erewrite bind_done by (apply register_all_run; assumption).
  cbn [command registered].
  assert (Hreg : PyStr.mem name (builtin_names ++ CP.keys cmds)
                 && negb (PyStr.mem name builtin_names) = true).
  { apply andb_true_iff. split.
    - apply mem_In. apply in_or_app. now right.
    - apply negb_true_iff. apply mem_false. now apply Hfresh. }
  rewrite Hreg. run. run.
  unfold custom_func. cbn [command].
  rewrite (last_key cmds ("", "") Hne).
  set (entry := last cmds ("", "")).
  assert (Hin : In (fst entry) (CP.keys cmds)).
  { unfold CP.keys. apply in_map. unfold entry.
    destruct (@exists_last _ cmds Hne) as [l' [a Ha]].
    rewrite Ha, last_last. apply in_or_app. right. now left. }
  assert (Hget : CP.get c "command" (fst entry) = Some (snd entry)).
  { unfold CP.get. rewrite Hcmds.
    rewrite Forall_forall in Hlow. rewrite (Hlow _ Hin).
    now apply lookup_last. }
  set (w1 := with_verbose_level verbose w0).
  assert (Hcfg1 : config w1 = Some c) by reflexivity.
  run. run. run.
  unfold write_config. run.
  eexists. split; [reflexivity|].
  cbn. rewrite <- !app_assoc. reflexivity.
Qed.

End Dispatcher.

Lemma custom_command_runs_last_entry_witness :
  let w := fresh_process ["home"; "team"] [(["home"; "team"], two_commands)] in
  exists w',
    main demo_host (Custom 1 "lint" ["src"]) w = Done tt w'
    /\ trace w' =
         (trace w ++
          [EvRead (cwd w);
           EvRun (shlex_split demo_host
                    (snd (last [("lint", "ruff check"); ("fmt", "black .")] ("", "")))
                  ++ ["src"]) false;
           EvWriteConfig (cwd w) two_commands])%list.
Proof.
  intros w.
  apply (custom_command_runs_last_entry demo_host w two_commands
           [("lint", "ruff check"); ("fmt", "black .")] 1 "lint" ["src"]).
  - reflexivity.
  - reflexivity.
  - split; repeat constructor; simpl; intuition discriminate.
  - reflexivity.
  - intros n [<-|[<-|[]]] H; simpl in H; intuition discriminate.
  - now left.
Defined.

(** With two custom commands, invoking the first one runs the second. *)
Example custom_command_runs_other_entry :
  let w := fresh_process ["home"; "team"] [(["home"; "team"], two_commands)] in
  children_of (final_trace (main demo_host (Custom 1 "lint" ["src"]) w))
    = [["black"; "."; "src"]]
  /\ ~ runs_own_command demo_host w two_commands 1 "lint" ["src"].
Proof.
  intros w. split.
  - vm_compute. reflexivity.
  - intros [w' [line [Hrun [Hline Hchildren]]]].
    vm_compute in Hrun. injection Hrun as <-.
    vm_compute in Hline. injection Hline as <-.
    vm_compute in Hchildren. discriminate.
Qed.

(* ===================================================================== *)
(** ** [initialize] in a directory without a marker file *)
(* ===================================================================== *)

Section InitializeNew.
Variable host : Host.
Local Open Scope list_scope.

(** Entering the target directory, when it is not a regular file. *)
Lemma enter_target_run (w : World) (args : init_args) :
  (forall d, init_directory args = Some d -> is_regular_file w d = false) ->
  enter_target host args w =
    Done (init_target args w)
         (with_cwd (init_target args w) (with_trace (trace w ++ enter_events args) w)).
Proof.
  intros Hdir. unfold enter_target, init_target, enter_events.
  destruct (init_directory args) as [d|] eqn:Ed.
  - run. rewrite (Hdir d eq_refl). run. run. run. run. reflexivity.
  - run. run. now rewrite with_trace_nil.
Qed.

(** C1 (the code departs from the claim).  The claim: [initialize] in a
    directory without a marker file ends with [execution.main] set to the
    requested entry file and [requirements.robotpy] set to the installed
    version of the base package.  The code: the version is read from the
    global [packages], which nothing has filled in by then (the call of
    [load_packages] survives only in a comment), so the handler raises
    [TypeError] before it records anything; the configuration object is
    untouched and no file is written. *)
Theorem initialize_new_project_raises
    (w : World) (c : CP.t) (args : init_args) :
  config w = Some c ->
  packages w = None ->
  (forall d, init_directory args = Some d -> is_regular_file w d = false) ->
  marker_at w (init_target args w) = None ->
  exists w',
    initialize host args w =
      Raise (TypeError "'NoneType' object is not subscriptable") w'
    /\ config w' = Some c
    /\ markers w' = markers w
    /\ files w' = files w.
Proof.
  intros Hcfg Hpk Hdir Hmark. unfold initialize.
  rewrite (bind_done _ _ _ _ _ (enter_target_run w args Hdir)).
  set (target := init_target args w) in *.
  set (w1 := with_cwd target (with_trace (trace w ++ enter_events args) w)).
  assert (Hcfg1 : config w1 = Some c) by exact Hcfg.
  assert (Hm1 : isfile_marker w1 = false).
  { unfold isfile_marker. change (marker_at w1 (cwd w1)) with (marker_at w target).
    now rewrite Hmark. }
  unfold initialize_project. run. run. rewrite Hm1. rewrite ?bind_bind.
  erewrite bind_raise
    by (unfold global_packages_getitem; change (packages w1) with (packages w);
        rewrite Hpk; reflexivity).
  eexists. split; [reflexivity|]. repeat split. exact Hcfg.
Qed.

End InitializeNew.

Lemma initialize_new_project_raises_witness :
  let w := mkWorld ["home"; "new"] [] [] (Some CP.empty) None 1%Z [] in
  exists w',
    initialize demo_host plain_init w =
      Raise (TypeError "'NoneType' object is not subscriptable") w'
    /\ config w' = Some CP.empty
    /\ markers w' = markers w
    /\ files w' = files w.
Proof.
  intros w.
  apply (initialize_new_project_raises demo_host w CP.empty plain_init).
  - reflexivity.
  - reflexivity.
  - discriminate.
  - reflexivity.
Defined.

(** [robotpy init] in an empty directory, as a whole process: the
    configuration is read, the handler raises, nothing is saved. *)
Example init_in_empty_directory :
  main demo_host (Builtin 1 (Initialize plain_init)) (fresh_process ["home"; "new"] []) =
    Raise (TypeError "'NoneType' object is not subscriptable")
      (mkWorld ["home"; "new"] [] [] (Some CP.empty) None 1%Z [EvRead ["home"; "new"]]).
Proof. vm_compute. reflexivity. Qed.

(* ===================================================================== *)
(** ** [deploy] *)
(* ===================================================================== *)

Lemma python_run (host : Host) (args : list string) (cap : option bool) (w : World) :
  python host args cap w =
    Done (child host (trace w) (sys_executable host :: args))
         (with_trace
            (trace w ++
             [EvRun (sys_executable host :: args)
                (match cap with Some b => b | None => (verbose_level w <=? 1)%Z end)])
            w).
Proof. reflexivity. Qed.

Lemma rpinst_run (host : Host) (args : list string) (w : World) :
  rpinst host args w =
    Done (child host (trace w) (sys_executable host :: "-m" :: "robotpy_installer" :: args))
         (with_trace
            (trace w ++
             [EvRun (sys_executable host :: "-m" :: "robotpy_installer" :: args)
                (verbose_level w <=? 1)%Z])
            w).
Proof. reflexivity. Qed.

Lemma expect_result_ok (host : Host) (r : CompletedProcess) (m : string) (a : bool)
    (w : World) :
  returncode r = 0%Z -> expect_result host r m a w = Done tt w.
Proof. intros H. unfold expect_result. now rewrite H. Qed.

Lemma expect_result_error (host : Host) (r : CompletedProcess) (m : string) (w : World) :
  returncode r <> 0%Z ->
  expect_result host r m false w =
    Done tt (with_trace (trace w ++ msg_events host ("error: " ++ m) true w) w).
Proof.
  intros H. unfold expect_result. apply Z.eqb_neq in H. rewrite H. apply error_run.
Qed.

#[global] Hint Resolve python_run rpinst_run expect_result_ok : run.

Lemma filter_m_run {A} (cond : A -> M bool) (f : A -> bool) (xs : list A) (w : World) :
  (forall x, In x xs -> cond x w = Done (f x) w) ->
  filter_m cond xs w = Done (filter f xs) w.
Proof.
  induction xs as [|x xs IH]; intros H; [reflexivity|].
  cbn [filter_m filter].
  erewrite bind_done by (apply H; now left).
  erewrite bind_done by (apply IH; intros y Hy; apply H; now right).
  reflexivity.
Qed.

Module SetItemFacts.
Import ConfigParser DictFacts ConfigFacts.
Local Open Scope list_scope.

Lemma store_store {V} (k : string) (v v' : V) (d : dict V) :
  store k v (store k v' d) = store k v d.
Proof.
  induction d as [|[k0 v0] d IH]; simpl.
  - now rewrite String.eqb_refl.
  - destruct (String.eqb_spec k k0) as [->|Hne]; simpl.
    + now rewrite String.eqb_refl.
    + apply String.eqb_neq in Hne. rewrite Hne. now rewrite IH.
Qed.

Lemma store_fresh {V} (k : string) (v : V) (d : dict V) :
  ~ In k (keys d) -> store k v d = d ++ [(k, v)].
Proof.
  induction d as [|[k0 v0] d IH]; simpl; intros Hn; [reflexivity|].
  destruct (String.eqb_spec k k0) as [->|Hne]; [exfalso; apply Hn; now left|].
  rewrite IH; [reflexivity | tauto].
Qed.

Lemma fold_set (c : t) (s : string) (items : list (string * string)) :
  forall acc,
    NoDup (keys acc ++ keys items) ->
    Forall (fun k => optionxform k = k) (keys items) ->
    fold_left (fun a kv => set a s (fst kv) (snd kv)) items (store s acc c)
    = store s (acc ++ items) c.
Proof.
  induction items as [|[k v] items IH]; intros acc Hnd Hlow.
  - cbn. now rewrite app_nil_r.
  - cbn [fold_left fst snd]. unfold set at 2. rewrite lookup_store_same.
    inversion Hlow as [|? ? Hk Hlow']; subst. cbn in Hk. rewrite Hk.
    rewrite store_store.
    assert (Hfresh : ~ In k (keys acc)).
    { intros Hin. apply NoDup_remove_2 in Hnd. apply Hnd.
      apply in_or_app. now left. }
    rewrite (store_fresh k v acc Hfresh).
    rewrite IH.
    + now rewrite <- app_assoc.
    + unfold keys in *. rewrite map_app. cbn [map fst]. rewrite <- app_assoc. exact Hnd.
    + assumption.
Qed.

(** Assigning a well-formed option list to a section stores it as it is. *)
Lemma setitem_wf (c : t) (s : string) (items : options) :
  wf_options items -> setitem c s items = store s items c.
Proof.
  intros [Hnd Hlow]. exact (fold_set c s items [] Hnd Hlow).
Qed.
End SetItemFacts.

Section Deploy.
Import DictFacts ConfigFacts.
Variable host : Host.
Local Open Scope list_scope.

Lemma needs_deploy_run (w : World) (c : CP.t) (pkg : string) :
  config w = Some c -> CP.wf c ->
  In pkg (CP.option_names c "requirements") ->
  needs_deploy "requirements.deployed" "requirements" pkg w = Done (outdated c pkg) w.
Proof.
  intros Hcfg Hwf Hin. unfold needs_deploy, outdated.
  run. destruct (CP.has_option c "requirements.deployed" pkg) eqn:Hdep; cbn [negb orb].
  - destruct (proj1 (has_option_get _ _ _) Hdep) as [old Hold].
    destruct (option_names_get _ _ _ Hwf Hin) as [new Hnew].
    rewrite Hold, Hnew. run. run. reflexivity.
  - reflexivity.
Qed.

Lemma pushes_app (t1 t2 : list event) : pushes (t1 ++ t2) = pushes t1 ++ pushes t2.
Proof. apply flat_map_app. Qed.

Lemma pushes_msg_events (m : string) (b : bool) (w : World) :
  pushes (msg_events host m b w) = [].
Proof. unfold msg_events. now destruct (_ || _). Qed.

Lemma pushes_quiet (t : list event) : Forall (fun e => pushed e = []) t -> pushes t = [].
Proof.
  induction 1 as [|e t He _ IH]; [reflexivity|].
  unfold pushes in *. cbn [flat_map]. now rewrite He, IH.
Qed.

(** The code-deployment half of [deploy] pushes no libraries and leaves
    the configuration object alone. *)
Lemma ok_deploy_robot_code :
  ensures (changes eq (fun e => pushed e = [])) (deploy_robot_code host).
Proof.
  assert (Ht : forall c1 c2 c3 : CP.t, c1 = c2 -> c2 = c3 -> c1 = c3) by congruence.
  apply ok_bind; auto; [now apply ok_cfg_getitem | intros ex].
  apply ok_bind; auto; [now apply ok_proxy_getitem | intros entry].
  apply ok_bind; auto; [now apply ok_msg | intros _].
  apply ok_bind; auto; [now apply ok_cfg_getitem | intros ex'].
  apply ok_bind; auto; [now apply ok_proxy_getitem | intros entry'].
  apply ok_bind; auto; [now apply ok_python | intros res].
  now apply ok_expect_result.
Qed.

Lemma after_deploy_code (dc : bool) (w2 : World) (c2 : CP.t) :
  config w2 = Some c2 ->
  exists w',
    final_world ((if dc then deploy_robot_code host else ret tt) w2) = Some w'
    /\ (dc = false -> (if dc then deploy_robot_code host else ret tt) w2 = Done tt w')
    /\ config w' = Some c2
    /\ pushes (trace w') = pushes (trace w2).
Proof.
  intros Hcfg. destruct dc.
  - pose proof (ok_deploy_robot_code w2) as H.
    destruct (deploy_robot_code host w2) as [[] w'|code w'|e w'|]; cbn in H;
      try contradiction;
      destruct (H c2 Hcfg) as [_ [_ [[c' [Hc' <-]] [new [Ht HQ]]]]];
      (exists w'; split; [reflexivity|]; split; [discriminate|]; split; [assumption|]);
      rewrite Ht, pushes_app, (pushes_quiet new HQ); apply app_nil_r.
  - exists w2. repeat split; auto.
Qed.

(** Without a section [requirements.deployed], library deployment stops
    with [KeyError] before anything is pushed. *)
Lemma deploy_raises_without_deployed_section
    (w w1 : World) (c : CP.t) (dc : bool) :
  move_to_robotpy_dir host w = Done tt w1 ->
  config w = Some c ->
  CP.has_section c "requirements.deployed" = false ->
  deploy host {| deploy_code := dc; deploy_lib := true |} w =
    Raise (KeyError "requirements.deployed") w1.
Proof.
  intros Hmove Hcfg Hdep.
  destruct (move_to_robotpy_dir_done host _ _ Hmove) as [d [-> _]].
  set (w1 := with_cwd d w) in *.
  assert (Hcfg1 : config w1 = Some c) by exact Hcfg.
  unfold deploy. run. run. cbn [deploy_lib]. unfold deploy_libraries.
  rewrite ?bind_bind.
  erewrite bind_raise by (apply (cfg_getitem_missing w1 c); assumption).
  reflexivity.
Qed.

(** What library deployment does when both requirement sections are
    there and the installer succeeds.  The requirements that the script
    takes for pending (never deployed, or recorded with a string that is
    greater than the deployed one) are pushed in one installer call; if
    there were any, section [requirements.deployed] is then overwritten
    with section [requirements]; if there were none, nothing is pushed
    and the configuration is left as it was. *)
Lemma deploy_pushes_pending_updates
    (w w1 : World) (c : CP.t) (dc : bool) :
  move_to_robotpy_dir host w = Done tt w1 ->
  config w = Some c ->
  CP.wf c ->
  CP.has_section c "requirements.deployed" = true ->
  CP.has_section c "requirements" = true ->
  (forall t, returncode (child host t (installer_install host (pending_updates c))) = 0%Z) ->
  NoDup (pending_updates c) /\
  exists w' c',
    final_world (deploy host {| deploy_code := dc; deploy_lib := true |} w) = Some w'
    /\ (dc = false ->
        deploy host {| deploy_code := dc; deploy_lib := true |} w = Done tt w')
    /\ config w' = Some c'
    /\ pushes (trace w') =
         pushes (trace w) ++
         match pending_updates c with [] => [] | _ :: _ => [pending_updates c] end
    /\ (pending_updates c = [] -> c' = c)
    /\ (pending_updates c <> [] ->
          CP.lookup "requirements.deployed" c' = CP.lookup "requirements" c'
          /\ forall s, s <> "requirements.deployed" -> CP.lookup s c' = CP.lookup s c).
Proof.
  intros Hmove Hcfg Hwf Hdep Hreq Hinst.
  split; [apply NoDup_filter; now apply NoDup_option_names|].
  destruct (move_to_robotpy_dir_done host _ _ Hmove) as [d [-> _]].
  set (w1 := with_cwd d w) in *.
  assert (Hcfg1 : config w1 = Some c) by exact Hcfg.
  assert (Htr1 : trace w1 = trace w) by reflexivity.
  unfold deploy. run. run. cbn [deploy_lib deploy_code]. unfold deploy_libraries.
  run. run. run.
  run_by ltac:(apply (filter_m_run _ (outdated c)); intros; now apply needs_deploy_run).
  fold (pending_updates c).
  destruct (pending_updates c) as [|p ps] eqn:Epend.
  - cbn [length Nat.eqb negb]. run.
    destruct (after_deploy_code dc w1 c Hcfg1) as [w' [Hf [Hd [Hc Hp]]]].
    exists w', c.
    split; [assumption|]. split; [assumption|]. split; [assumption|]. split.
    + rewrite Hp, Htr1. now rewrite app_nil_r.
    + split; [reflexivity | intros H; now elim H].
  - cbn [length Nat.eqb negb]. run. run. run.
    run_by ltac:(apply expect_result_ok; apply Hinst).
    rewrite ?bind_bind.
    match goal with
    | |- context [bind (cfg_getitem "requirements") _ ?w] => set (w2 := w)
    end.
    assert (Hcfg2 : config w2 = Some c) by exact Hcfg.
    run. run. run.
    match goal with
    | |- context [(if dc then _ else _) ?w] => set (w3 := w)
    end.
    destruct (proj1 (has_section_lookup c "requirements") Hreq) as [opts Hopts].
    assert (Hitems : CP.items c "requirements" = opts)
      by (unfold CP.items; now rewrite Hopts).
    assert (Hset : CP.setitem c "requirements.deployed" (CP.items c "requirements")
                   = CP.store "requirements.deployed" opts c).
    { rewrite Hitems. apply SetItemFacts.setitem_wf. now apply (wf_section c "requirements"). }
    assert (Hcfg3 : config w3 = Some (CP.store "requirements.deployed" opts c))
      by (unfold w3; cbn [config with_config]; now rewrite Hset).
    destruct (after_deploy_code dc w3 _ Hcfg3) as [w' [Hf [Hd [Hc Hp]]]].
    exists w', (CP.store "requirements.deployed" opts c).
    split; [assumption|]. split; [assumption|]. split; [assumption|]. split.
    + rewrite Hp. unfold w3, w2.
      cbn [trace with_config with_trace with_cwd w1].
      rewrite !pushes_app, !pushes_msg_events, !app_nil_r.
      reflexivity.
    + split; [discriminate|]. intros _. split.
      * rewrite lookup_store_same.
        rewrite lookup_store_other by discriminate. now rewrite Hopts.
      * intros s Hs. now apply lookup_store_other.
Qed.

Lemma not_pending (c : CP.t) (pkg old new : string) :
  CP.get c "requirements.deployed" pkg = Some old ->
  CP.get c "requirements" pkg = Some new ->
  PyStr.lt old new = false ->
  ~ In pkg (pending_updates c).
Proof.
  intros Hold Hnew Hlt Hin. unfold pending_updates in Hin.
  apply filter_In in Hin. destruct Hin as [_ Hout].
  unfold outdated in Hout. rewrite Hold, Hnew, Hlt in Hout.
  assert (Hopt : CP.has_option c "requirements.deployed" pkg = true)
    by (apply has_option_get; eauto).
  rewrite Hopt in Hout. discriminate.
Qed.

(** C3 (the code departs from the claim).  [deploy] with library
    deployment misses what the claim, and the comment at the head of the
    handler, have it push:
    - in a project that has not been deployed yet, where section
      [requirements.deployed] is absent, the handler raises [KeyError]
      before it pushes anything;
    - a requirement whose recorded version is the higher version number
      but not the greater string (10.0 recorded, 9.0 deployed) is not
      pushed, although the installer works: the versions are compared as
      strings. *)
Theorem deploy_misses_first_and_higher_versions
    (w w1 : World) (c : CP.t) (dc : bool) :
  move_to_robotpy_dir host w = Done tt w1 ->
  config w = Some c ->
  (CP.has_section c "requirements.deployed" = false ->
   deploy host {| deploy_code := dc; deploy_lib := true |} w =
     Raise (KeyError "requirements.deployed") w1)
  /\
  (CP.wf c ->
   plain_config c ->
   (forall t, returncode (child host t (installer_install host (pending_updates c))) = 0%Z) ->
   forall pkg old new,
     ascii_only pkg = true ->
     In pkg (CP.option_names c "requirements") ->
     CP.get c "requirements.deployed" pkg = Some old ->
     CP.get c "requirements" pkg = Some new ->
     version_lt old new = true ->
     PyStr.lt old new = false ->
     exists w' sent,
       final_world (deploy host {| deploy_code := dc; deploy_lib := true |} w) = Some w'
       /\ pushes (trace w') = pushes (trace w) ++ sent
       /\ forall pkgs, In pkgs sent -> ~ In pkg pkgs).
Proof.
  intros Hmove Hcfg. split.
  - intros Hdep. now apply deploy_raises_without_deployed_section with (c := c).
  - intros Hwf _ Hinst pkg old new _ Hin Hold Hnew _ Hlt.
    assert (Hdep : CP.has_section c "requirements.deployed" = true).
    { apply (has_option_section c "requirements.deployed" pkg).
      apply has_option_get. eauto. }
    assert (Hreq : CP.has_section c "requirements" = true).
    { apply (has_option_section c "requirements" pkg).
      apply has_option_get. eauto. }
    destruct (deploy_pushes_pending_updates w w1 c dc Hmove Hcfg Hwf Hdep Hreq Hinst)
      as [_ [w' [c' [Hf [_ [_ [Hp _]]]]]]].
    exists w'. eexists. split; [exact Hf|]. split; [exact Hp|].
    intros pkgs Hpk.
    destruct (pending_updates c) as [|p ps] eqn:Epend; [destruct Hpk|].
    destruct Hpk as [<-|[]]. rewrite <- Epend.
    now apply (not_pending c pkg old new).
Qed.

End Deploy.

Lemma deploy_misses_first_and_higher_versions_witness :
  let deploy_lib_only := {| deploy_code := false; deploy_lib := true |} in
  let fresh := loaded_process ["home"; "team"] never_deployed in
  let w := loaded_process ["home"; "team"] upgraded_since_deploy in
  deploy demo_host deploy_lib_only fresh = Raise (KeyError "requirements.deployed") fresh
  /\ exists w' sent,
       final_world (deploy demo_host deploy_lib_only w) = Some w'
       /\ pushes (trace w') = (pushes (trace w) ++ sent)%list
       /\ forall pkgs, In pkgs sent -> ~ In "foo" pkgs.
Proof.
  intros deploy_lib_only fresh w. split.
  - apply (proj1 (deploy_misses_first_and_higher_versions demo_host fresh fresh
                    never_deployed false eq_refl eq_refl)).
    reflexivity.
  - apply (proj2 (deploy_misses_first_and_higher_versions demo_host w w
                    upgraded_since_deploy false eq_refl eq_refl))
      with (old := "9.0") (new := "10.0").
    + split; repeat constructor; simpl; intuition discriminate.
    + split; [reflexivity | repeat constructor].
    + reflexivity.
    + reflexivity.
    + simpl. tauto.
    + reflexivity.
    + reflexivity.
    + reflexivity.
    + reflexivity.
Defined.

(** A run in the project to which [foo] was added: only [foo] is pushed. *)
Example deploy_pushes_only_the_delta :
  let o := deploy demo_host {| deploy_code := false; deploy_lib := true |}
             (loaded_process ["home"; "team"] added_since_deploy) in
  pending_updates added_since_deploy = ["foo"]
  /\ completes o = true
  /\ pushes (final_trace o) = [["foo"]]
  /\ final_config o =
       Some [("requirements", [("robotpy", "2024.3.2"); ("foo", "1.0")]);
             ("requirements.deployed", [("robotpy", "2024.3.2"); ("foo", "1.0")])].
Proof. vm_compute. repeat split. Qed.

(** The snapshot is taken only when something is pushed.  After [foo]
    has been removed from a project in which it had been deployed,
    nothing is pending; [deploy] pushes nothing and does not refresh the
    snapshot, so section [requirements.deployed] still differs from
    section [requirements]. *)
Lemma deploy_leaves_stale_snapshot :
  ~ deploy_as_specified demo_host
      (loaded_process ["home"; "team"] removed_after_deploy) removed_after_deploy.
Proof.
  intros [w' [c' [Hrun [Hcfg [_ Heq]]]]].
  vm_compute in Hrun. injection Hrun as <-.
  vm_compute in Hcfg. injection Hcfg as <-.
  vm_compute in Heq. discriminate.
Qed.

(** The section [requirements.deployed] is never created by the script
    itself: in a project that [deploy] has not seen yet the handler
    raises [KeyError]. *)
Example deploy_in_fresh_project :
  deploy demo_host {| deploy_code := false; deploy_lib := true |}
    (loaded_process ["home"; "team"] never_deployed)
  = Raise (KeyError "requirements.deployed")
      (loaded_process ["home"; "team"] never_deployed).
Proof. vm_compute. reflexivity. Qed.

(** 10.0 is the higher version number but the smaller string: [foo],
    recorded at 10.0 and deployed at 9.0, is not pending; [deploy]
    completes without a push and leaves 9.0 in the snapshot. *)
Example deploy_skips_higher_version_number :
  let o := deploy demo_host {| deploy_code := false; deploy_lib := true |}
             (loaded_process ["home"; "team"] upgraded_since_deploy) in
  version_lt "9.0" "10.0" = true
  /\ PyStr.lt "9.0" "10.0" = false
  /\ pending_updates upgraded_since_deploy = []
  /\ completes o = true
  /\ pushes (final_trace o) = []
  /\ final_config o = Some upgraded_since_deploy.
Proof. vm_compute. repeat split. Qed.

(* ===================================================================== *)
(** ** [install_package] and [update] *)
(* ===================================================================== *)

Section InstallChanges.
Variable P : CP.t -> CP.t -> Prop.
Variable Q : event -> Prop.
Hypothesis P_refl : forall c, P c c.
Hypothesis P_trans : forall c1 c2 c3, P c1 c2 -> P c2 c3 -> P c1 c3.
Hypothesis Q_print : forall b s, Q (EvPrint b s).
Variable host : Host.
Hypothesis Q_download : forall pkg b, Q (EvRun (installer_download host pkg) b).
Hypothesis Q_freeze : forall b, Q (EvRun (pip_freeze host) b).

Lemma ok_install_one (download : bool) (pkg : string) :
  (forall b, Q (EvRun (pip_upgrade host pkg) b)) ->
  (forall c v, P c (CP.set c "requirements" pkg v)) ->
  ensures (changes P Q) (install_one host download pkg).
Proof.
  intros Qup Pset. unfold install_one.
  apply ok_bind; auto; [now apply ok_msg | intros _].
  apply ok_bind; auto; [apply ok_python; auto; exact Qup | intros res].
  apply ok_bind; auto; [now apply ok_expect_result | intros _].
  destruct (negb _); [now apply ok_ret|].
  destruct download; [|now apply ok_ret].
  apply ok_bind; auto; [now apply ok_msg | intros _].
  apply ok_bind; auto; [apply ok_rpinst; auto; exact (Q_download pkg) | intros res'].
  apply ok_bind; auto; [now apply ok_expect_result | intros _].
  destruct (negb _); [now apply ok_ret|].
  apply ok_bind; auto; [apply ok_load_packages; auto | intros pk].
  unfold record_if_newer.
  apply ok_bind; auto; [now apply ok_cfg_getitem | intros req].
  apply ok_bind; auto; [now apply ok_proxy_contains | intros present].
  apply ok_bind; auto.
  - destruct (negb present); [now apply ok_ret|].
    apply ok_bind; auto; [now apply ok_cfg_getitem | intros req'].
    apply ok_bind; auto; [now apply ok_proxy_getitem | intros recorded].
    apply ok_bind; auto; [now apply ok_dict_getitem | intros installed].
    now apply ok_ret.
  - intros newer. destruct newer; [|now apply ok_ret].
    apply ok_bind; auto; [now apply ok_dict_getitem | intros installed].
    apply ok_bind_cfg_getitem; auto.
    apply ok_config_update; auto.
Qed.

Lemma ok_install_package (pkgs : list string) (download : bool) :
  (forall pkg b, In pkg pkgs -> Q (EvRun (pip_upgrade host pkg) b)) ->
  (forall pkg c v, In pkg pkgs -> P c (CP.set c "requirements" pkg v)) ->
  ensures (changes P Q) (install_package host pkgs download).
Proof.
  intros Qup Pset. unfold install_package.
  destruct (length pkgs =? 0)%nat; [now apply ok_ret|].
  apply ok_bind; auto; [now apply ok_load_config | intros _].
  apply ok_for_each; auto. intros pkg Hin.
  apply ok_install_one; intros; auto.
Qed.

End InstallChanges.

Section Update.
Import DictFacts ConfigFacts.
Variable host : Host.
Local Open Scope list_scope.

Lemma with_trace_twice (w : World) (t1 t2 : list event) :
  with_trace (trace (with_trace (trace w ++ t1) w) ++ t2) (with_trace (trace w ++ t1) w)
  = with_trace (trace w ++ (t1 ++ t2)) w.
Proof. destruct w. cbn. now rewrite app_assoc. Qed.

Lemma tracked_run (w : World) (c : CP.t) (pkg : string) :
  config w = Some c -> CP.has_section c "requirements" = true ->
  tracked pkg w = Done (CP.has_option c "requirements" pkg) w.
Proof. intros Hcfg Hsec. unfold tracked. run. now apply proxy_contains_run. Qed.

(** The warning loop of [update] only prints. *)
Lemma update_warnings_run (c : CP.t) (pkgs : list string) :
  CP.has_section c "requirements" = true ->
  forall w, config w = Some c ->
    exists prints,
      Forall is_print prints /\
      for_each
        (fun pkg =>
           known <- tracked pkg ;;
           if negb known then
             warn host ("'" ++ pkg ++ "' is not a registered package. Use `robotpy install "
                        ++ pkg ++ "` instead")
           else ret tt)
        pkgs w
      = Done tt (with_trace (trace w ++ prints) w).
Proof.
  intros Hsec. induction pkgs as [|pkg pkgs IH]; intros w Hcfg.
  - exists []. split; [constructor|]. cbn. now rewrite with_trace_nil.
  - cbn [for_each]. rewrite bind_bind.
    rewrite (bind_done _ _ _ _ _ (tracked_run w c pkg Hcfg Hsec)).
    destruct (CP.has_option c "requirements" pkg); cbn [negb].
    + rewrite (bind_done _ _ _ _ _ (ret_run tt w)).
      exact (IH w Hcfg).
    + rewrite (bind_done _ _ _ _ _ (warn_run host _ w)).
      match goal with
      | |- context [for_each _ pkgs ?w1] => destruct (IH w1 Hcfg) as [prints [Hp Hrun]]
      end.
      eexists. split; [|rewrite Hrun; apply f_equal; apply with_trace_twice].
      apply Forall_app. split; [|assumption].
      unfold msg_events. destruct (_ || _); repeat constructor.
Qed.

(** What [update] selects: the candidates that are tracked. *)
Lemma update_selection_run (w : World) (c : CP.t) (args : update_args) :
  config w = Some c ->
  CP.has_section c "requirements" = true ->
  exists prints,
    Forall is_print prints /\
    update_selection host args w =
      Done (filter (CP.has_option c "requirements") (update_candidates c args))
           (with_trace (trace w ++ prints) w).
Proof.
  intros Hcfg Hsec. unfold update_selection.
  assert (Hcand :
    (if (length (update_packages args) =? 0)%nat then
       requirements <- cfg_getitem "requirements" ;;
       names <- proxy_iter requirements ;;
       ret ("robotpy" :: names)
     else ret (update_packages args)) w = Done (update_candidates c args) w).
  { unfold update_candidates. destruct (update_packages args); cbn [length Nat.eqb].
    - run. now run.
    - reflexivity. }
  rewrite (bind_done _ _ _ _ _ Hcand).
  destruct (update_warnings_run c (update_candidates c args) Hsec w Hcfg)
    as [prints [Hp Hrun]].
  rewrite (bind_done _ _ _ _ _ Hrun).
  exists prints. split; [assumption|].
  apply filter_m_run. intros pkg _. now apply tracked_run.
Qed.

Lemma upgrades_app (t1 t2 : list event) : upgrades (t1 ++ t2) = upgrades t1 ++ upgrades t2.
Proof. apply flat_map_app. Qed.

Lemma upgrades_prints (t : list event) : Forall is_print t -> upgrades t = [].
Proof.
  induction 1 as [|e t He _ IH]; [reflexivity|].
  unfold upgrades in *. cbn [flat_map]. rewrite IH.
  destruct e; try contradiction. reflexivity.
Qed.

Lemma upgrades_within (pkgs : list string) (t : list event) :
  Forall (fun e => forall pkg, In pkg (upgraded e) -> In pkg pkgs) t ->
  forall pkg, In pkg (upgrades t) -> In pkg pkgs.
Proof.
  induction 1 as [|e t He _ IH]; intros pkg Hin; [destruct Hin|].
  unfold upgrades in Hin. cbn [flat_map] in Hin. apply in_app_or in Hin.
  destruct Hin; [now apply He | now apply IH].
Qed.

(** [install_package] hands to the package manager only packages of its
    argument list. *)
Lemma install_package_upgrades_listed (pkgs : list string) (download : bool) :
  ensures (changes (fun _ _ => True)
                   (fun e => forall pkg, In pkg (upgraded e) -> In pkg pkgs))
          (install_package host pkgs download).
Proof.
  apply ok_install_package; auto.
  - intros b s pkg [].
  - intros pkg b p [].
  - intros b p [].
  - intros pkg b Hin p [<-|[]]. exact Hin.
Qed.

Lemma filter_all {A} (f : A -> bool) (l : list A) :
  (forall x, In x l -> f x = true) -> filter f l = l.
Proof.
  induction l as [|a l IH]; intros H; [reflexivity|].
  cbn. rewrite (H a) by now left. f_equal. apply IH. intros x Hx. apply H. now right.
Qed.

(** Without a section [requirements], [update] raises before it selects
    anything. *)
Lemma update_selection_raises (w : World) (c : CP.t) (args : update_args) :
  config w = Some c ->
  CP.has_section c "requirements" = false ->
  update_selection host args w = Raise (KeyError "requirements") w.
Proof.
  intros Hcfg Hsec. unfold update_selection.
  destruct (update_packages args) as [|p ps]; cbn [length Nat.eqb].
  - rewrite ?bind_bind.
    erewrite bind_raise by (apply (cfg_getitem_missing w c); assumption).
    reflexivity.
  - run. cbn [for_each]. rewrite ?bind_bind. unfold tracked at 1. rewrite ?bind_bind.
    erewrite bind_raise by (apply (cfg_getitem_missing w c); assumption).
    reflexivity.
Qed.

(** C7, as amended.  In a project whose marker file has no section
    [[DEFAULT]]: [update] without package names, when the configuration
    has a section [requirements], hands to [install_package] exactly the
    options of that section, after the base package if (and only if) the
    base package is one of them; and whatever names are given (in ASCII),
    in any such project, every package that [update] hands to the package
    manager is an option of section [requirements]: names that are not
    tracked never reach it. *)
Theorem update_installs_tracked_requirements
    (w w1 : World) (c : CP.t) (args : update_args) :
  move_to_robotpy_dir host w = Done tt w1 ->
  config w = Some c ->
  CP.wf c ->
  no_defaults c ->
  Forall (fun pkg => ascii_only pkg = true) (update_packages args) ->
  (CP.has_section c "requirements" = true ->
   update_packages args = [] ->
     exists w2,
       update_selection host args w1 = Done (update_default_selection c) w2
       /\ update host args w =
            install_package host (update_default_selection c) (update_download args) w2)
  /\ exists w' new,
       final_world (update host args w) = Some w'
       /\ trace w' = trace w ++ new
       /\ forall pkg, In pkg (upgrades new) -> CP.has_option c "requirements" pkg = true.
Proof.
  intros Hmove Hcfg Hwf _ _.
  destruct (move_to_robotpy_dir_done host _ _ Hmove) as [d [-> _]].
  set (w1 := with_cwd d w) in *.
  assert (Hcfg1 : config w1 = Some c) by exact Hcfg.
  destruct (CP.has_section c "requirements") eqn:Hsec; cycle 1.
  { split; [discriminate|].
    exists w1, []. split; [|split; [now rewrite app_nil_r | intros pkg []]].
    unfold update. run. run.
    erewrite bind_raise by (apply (update_selection_raises w1 c); assumption).
    reflexivity. }
  destruct (update_selection_run w1 c args Hcfg1 Hsec) as [prints [Hprints Hsel]].
  set (selected := filter (CP.has_option c "requirements") (update_candidates c args)) in *.
  set (w2 := with_trace (trace w1 ++ prints) w1) in *.
  assert (Hrun : update host args w = install_package host selected (update_download args) w2).
  { unfold update. run. run. now rewrite (bind_done _ _ _ _ _ Hsel). }
  split.
  - intros _ Hnone. exists w2.
    assert (Hall : selected = update_default_selection c).
    { unfold selected, update_candidates, update_default_selection. rewrite Hnone.
      cbn [filter].
      rewrite (filter_all (CP.has_option c "requirements")
                 (CP.option_names c "requirements"))
        by (intros x Hx; now apply option_names_has_option).
      now destruct (CP.has_option c "requirements" "robotpy"). }
    rewrite <- Hall. split; assumption.
  - rewrite Hrun.
    pose proof (install_package_upgrades_listed selected (update_download args) w2) as Hens.
    assert (Hcfg2 : config w2 = Some c) by exact Hcfg.
    destruct (install_package host selected (update_download args) w2)
      as [[] w'|code w'|e w'|]; cbn in Hens; try contradiction;
      destruct (Hens c Hcfg2) as [_ [_ [_ [new [Ht HQ]]]]];
      exists w', (prints ++ new);
      (split; [reflexivity|]);
      (split; [rewrite Ht; unfold w2; cbn [trace with_trace]; now rewrite <- app_assoc|]);
      intros pkg Hin; rewrite upgrades_app, (upgrades_prints prints Hprints) in Hin;
      cbn [app] in Hin; apply (upgrades_within selected new HQ) in Hin;
      unfold selected in Hin; apply filter_In in Hin; tauto.
Qed.

End Update.

Lemma update_installs_tracked_requirements_witness :
  let c := small_project in
  let w := loaded_process ["home"; "team"] c in
  let args := {| update_download := true; update_packages := [] |} in
  (exists w2,
     update_selection demo_host args w = Done (update_default_selection c) w2
     /\ update demo_host args w =
          install_package demo_host (update_default_selection c) (update_download args) w2)
  /\ exists w' new,
       final_world (update demo_host args w) = Some w'
       /\ trace w' = (trace w ++ new)%list
       /\ forall pkg, In pkg (upgrades new) -> CP.has_option c "requirements" pkg = true.
Proof.
  intros c w args.
  destruct (update_installs_tracked_requirements demo_host w w c args) as [HA HB].
  - reflexivity.
  - reflexivity.
  - split; repeat constructor; simpl; intuition discriminate.
  - reflexivity.
  - constructor.
  - split; [apply HA; reflexivity | exact HB].
Defined.

(** C7 as stated fails.  In a project whose base package is no longer
    tracked, [robotpy update] passes the tracked requirements to
    installation and not the base package: the name [robotpy], put in
    front of the list, is filtered out with the names that are not
    tracked. *)
Lemma update_passes_over_untracked_base :
  ~ update_as_specified demo_host
      (loaded_process ["home"; "team"] base_untracked) base_untracked.
Proof.
  intros [pkgs [w' [Hrun Hiff]]].
  vm_compute in Hrun. injection Hrun as <- _.
  destruct (proj2 (Hiff "robotpy") (or_introl eq_refl)) as [H|[]].
  discriminate.
Qed.

Example update_with_untracked_base :
  let o := update demo_host update_all
             (loaded_process ["home"; "team"] base_untracked) in
  completes o = true /\ upgrades (final_trace o) = ["foo"].
Proof. vm_compute. split; reflexivity. Qed.

(** [robotpy update] in the small project upgrades the base package (which
    is named twice) and [foo]; [robotpy update bar] upgrades nothing. *)
Example update_without_names :
  let o := update demo_host {| update_download := true; update_packages := [] |}
             (loaded_process ["home"; "team"] small_project) in
  completes o = true /\ upgrades (final_trace o) = ["robotpy"; "robotpy"; "foo"].
Proof. vm_compute. split; reflexivity. Qed.

Example update_untracked_name :
  let o := update demo_host {| update_download := true; update_packages := ["bar"] |}
             (loaded_process ["home"; "team"] small_project) in
  completes o = true
  /\ final_trace o =
       [EvPrint false
          "robotpy: warning: 'bar' is not a registered package. Use `robotpy install bar` instead"].
Proof. vm_compute. split; reflexivity. Qed.

(* ===================================================================== *)
(** ** Recording installed versions *)
(* ===================================================================== *)

Lemma dict_getitem_run (d : CP.dict string) (k v : string) (w : World) :
  CP.lookup k d = Some v -> dict_getitem d k w = Done v w.
Proof. intros H. unfold dict_getitem. now rewrite H. Qed.

Lemma dict_getitem_missing (d : CP.dict string) (k : string) (w : World) :
  CP.lookup k d = None -> dict_getitem d k w = Raise (KeyError k) w.
Proof. intros H. unfold dict_getitem. now rewrite H. Qed.

#[global] Hint Resolve dict_getitem_run : run.

Module SetFacts.
Import ConfigParser DictFacts ConfigFacts.

Lemma get_set_same (c : t) (s k v : string) :
  has_section c s = true -> get (set c s k v) s k = Some v.
Proof.
  intros Hs. apply has_section_lookup in Hs. destruct Hs as [opts Ho].
  unfold get, set. rewrite Ho. rewrite lookup_store_same. apply lookup_store_same.
Qed.

Lemma get_set_other (c : t) (s k v s' k' : string) :
  s' <> s \/ optionxform k' <> optionxform k ->
  get (set c s k v) s' k' = get c s' k'.
Proof.
  intros Hne. unfold get, set. destruct (lookup s c) as [opts|] eqn:Ho; [|reflexivity].
  destruct (string_dec s' s) as [->|Hs].
  - rewrite lookup_store_same, Ho. apply lookup_store_other.
    destruct Hne; congruence.
  - now rewrite lookup_store_other.
Qed.

Lemma lookup_set_other (c : t) (s k v s' : string) :
  s' <> s -> lookup s' (set c s k v) = lookup s' c.
Proof.
  intros Hne. unfold set. destruct (lookup s c); [|reflexivity].
  now apply lookup_store_other.
Qed.

End SetFacts.

Section Record.
Import DictFacts ConfigFacts SetFacts.
Variable host : Host.
Local Open Scope list_scope.

Lemma only_newer_refl (pkg : string) (c : CP.t) : only_newer pkg c c.
Proof. split; [reflexivity | intros old H; exists old; auto]. Qed.

Lemma only_newer_set (pkg : string) (c : CP.t) (v : string) :
  CP.has_section c "requirements" = true ->
  (forall old, CP.get c "requirements" pkg = Some old -> PyStr.lt old v = true) ->
  only_newer pkg c (CP.set c "requirements" pkg v).
Proof.
  intros Hsec Hguard. split.
  - intros s k Hne. now apply get_set_other.
  - intros old Hold. exists v. split; [now apply get_set_same|].
    right. now apply Hguard.
Qed.

(** A world that differs in the configuration object only. *)
Lemma changes_with_config (P : CP.t -> CP.t -> Prop) (Q : event -> Prop)
    (w : World) (c c' : CP.t) :
  config w = Some c -> P c c' -> changes P Q w (with_config (Some c') w).
Proof.
  intros Hc HP c0 Hc0. assert (c0 = c) by congruence. subst c0.
  cbn. repeat split; eauto.
  exists []. split; [now rewrite app_nil_r | constructor].
Qed.

(** The recording statement changes nothing but, at most, the entry of
    its package, and that only to a greater version. *)
Lemma record_if_newer_only_newer (pk : CP.dict string) (pkg : string) :
  ensures (changes (only_newer pkg) (fun _ => True)) (record_if_newer pk pkg).
Proof.
  intros w.
  assert (Hrefl : changes (only_newer pkg) (fun _ => True) w w)
    by (apply changes_refl; apply only_newer_refl).
  destruct (config w) as [c|] eqn:Hcfg; cycle 1.
  { unfold record_if_newer, bind at 1, cfg_getitem, bind at 1, config_obj.
    rewrite Hcfg. exact Hrefl. }
  unfold record_if_newer.
  destruct (CP.has_section c "requirements") eqn:Hsec; cycle 1.
  { erewrite bind_raise by (apply (cfg_getitem_missing w c); assumption).
    exact Hrefl. }
  run. run.
  destruct (CP.has_option c "requirements" pkg) eqn:Hopt; cbn [negb].
  - destruct (proj1 (has_option_get _ _ _) Hopt) as [old Hold].
    run. run.
    destruct (CP.lookup pkg pk) as [v|] eqn:Hpk; cycle 1.
    { rewrite ?bind_bind.
      erewrite bind_raise by (apply dict_getitem_missing; assumption).
      exact Hrefl. }
    run. run.
    destruct (PyStr.lt old v) eqn:Hlt.
    + run. run.
      rewrite (proxy_setitem_run w c Hcfg).
      apply (changes_with_config _ _ w c); [assumption|].
      apply only_newer_set; [assumption|]. intros old' Hold'. congruence.
    + exact Hrefl.
  - run.
    destruct (CP.lookup pkg pk) as [v|] eqn:Hpk; cycle 1.
    { rewrite ?bind_bind.
      erewrite bind_raise by (apply dict_getitem_missing; assumption).
      exact Hrefl. }
    run. run.
    rewrite (proxy_setitem_run w c Hcfg).
    apply (changes_with_config _ _ w c); [assumption|].
    apply only_newer_set; [assumption|].
    intros old Hold. apply has_option_false_get in Hopt. congruence.
Qed.

(** An action that leaves the configuration alone, followed by one that
    changes it by [P]. *)
Lemma ok_bind_frame {A B} (P : CP.t -> CP.t -> Prop) (Q : event -> Prop)
    (m : M A) (k : A -> M B) :
  (forall c, P c c) ->
  ensures (changes eq Q) m ->
  (forall a, ensures (changes P Q) (k a)) ->
  ensures (changes P Q) (bind m k).
Proof.
  intros Prefl Hm Hk w. unfold bind. specialize (Hm w).
  assert (Hweak : forall w', changes eq Q w w' -> changes P Q w w').
  { intros w' H c Hc. destruct (H c Hc) as [H1 [H2 [[c' [H3 <-]] H4]]].
    repeat split; eauto. }
  destruct (m w) as [a w'| | |]; cbn in *; auto.
  specialize (Hk a w').
  assert (Hcomp : forall w'', changes P Q w' w'' -> changes P Q w w'').
  { intros w'' H c Hc. destruct (Hm c Hc) as [H1 [H2 [[c' [H3 <-]] [n1 [H4 H5]]]]].
    destruct (H c H3) as [H1' [H2' [H3' [n2 [H4' H5']]]]].
    repeat split; try congruence; auto.
    exists (n1 ++ n2). split; [rewrite H4', H4; now rewrite app_assoc|].
    apply Forall_app. now split. }
  destruct (k a w'); cbn in *; auto.
Qed.

Lemma install_one_only_newer (download : bool) (pkg : string) :
  ensures (changes (only_newer pkg) (fun _ => True)) (install_one host download pkg).
Proof.
  assert (Pr : forall c, only_newer pkg c c) by apply only_newer_refl.
  assert (Et : forall c1 c2 c3 : CP.t, c1 = c2 -> c2 = c3 -> c1 = c3) by congruence.
  assert (Hret : ensures (changes (only_newer pkg) (fun _ => True)) (ret tt))
    by now apply ok_ret.
  unfold install_one.
  apply ok_bind_frame; auto; [now apply ok_msg | intros _].
  apply ok_bind_frame; auto; [now apply ok_python | intros res].
  apply ok_bind_frame; auto; [now apply ok_expect_result | intros _].
  destruct (negb _); [exact Hret|].
  destruct download; [|exact Hret].
  apply ok_bind_frame; auto; [now apply ok_msg | intros _].
  apply ok_bind_frame; auto; [now apply ok_rpinst | intros res'].
  apply ok_bind_frame; auto; [now apply ok_expect_result | intros _].
  destruct (negb _); [exact Hret|].
  apply ok_bind_frame; auto; [now apply ok_load_packages | intros pk].
  apply record_if_newer_only_newer.
Qed.

Lemma load_packages_refresh (w : World) (lines : list string) :
  child host (trace w) (pip_freeze host) = {| returncode := 0%Z; stdout := lines |} ->
  load_packages host true w =
    Done (freeze_dict lines)
         (with_packages (Some (freeze_dict lines))
            (with_trace (trace w ++ [EvRun (pip_freeze host) true]) w)).
Proof.
  intros Hfreeze.
  assert (Hre : reload_packages host w =
                Done (freeze_dict lines)
                  (with_packages (Some (freeze_dict lines))
                     (with_trace (trace w ++ [EvRun (pip_freeze host) true]) w))).
  { unfold reload_packages. run.
    change (sys_executable host :: ["-m"; "pip"; "freeze"]) with (pip_freeze host).
    rewrite Hfreeze. cbn [returncode stdout Z.eqb negb]. run. reflexivity. }
  unfold load_packages. destruct (packages w); exact Hre.
Qed.

(** With the upgrade and the pre-download succeeding and the listing
    showing [version], the entry of the package ends up at
    [recorded_after]. *)
Lemma install_one_records (w : World) (c : CP.t) (pkg version : string)
    (lines : list string) :
  config w = Some c ->
  CP.has_section c "requirements" = true ->
  (forall t, returncode (child host t (pip_upgrade host pkg)) = 0%Z) ->
  (forall t, returncode (child host t (installer_download host pkg)) = 0%Z) ->
  (forall t, child host t (pip_freeze host) = {| returncode := 0%Z; stdout := lines |}) ->
  CP.lookup pkg (freeze_dict lines) = Some version ->
  exists w' c',
    install_one host true pkg w = Done tt w'
    /\ config w' = Some c'
    /\ CP.get c' "requirements" pkg = Some (recorded_after c pkg version).
Proof.
  intros Hcfg Hsec Hpip Hdl Hfreeze Hver. unfold install_one.
  run. run.
  change (sys_executable host :: ["-m"; "pip"; "install"; "--upgrade"; pkg])
    with (pip_upgrade host pkg).
  run_by ltac:(apply expect_result_ok; apply Hpip).
  rewrite Hpip. cbn [Z.eqb negb].
  run. run.
  change (sys_executable host :: "-m" :: "robotpy_installer" :: ["download"; pkg])
    with (installer_download host pkg).
  run_by ltac:(apply expect_result_ok; apply Hdl).
  rewrite Hdl. cbn [Z.eqb negb].
  run_by ltac:(apply load_packages_refresh; apply Hfreeze).
  match goal with |- context [record_if_newer _ _ ?w0] => set (w4 := w0) end.
  assert (Hcfg4 : config w4 = Some c) by exact Hcfg.
  unfold record_if_newer, recorded_after.
  run. run.
  destruct (CP.has_option c "requirements" pkg) eqn:Hopt; cbn [negb].
  - destruct (proj1 (has_option_get _ _ _) Hopt) as [old Hold]. rewrite Hold.
    run. run. run. run.
    destruct (PyStr.lt old version).
    + run. run. rewrite (proxy_setitem_run w4 c Hcfg4).
      eexists _, _. split; [reflexivity|]. split; [reflexivity|].
      now apply get_set_same.
    + eexists _, _. split; [reflexivity|]. split; [exact Hcfg4 | exact Hold].
  - apply has_option_false_get in Hopt. rewrite Hopt.
    run. run. run. rewrite (proxy_setitem_run w4 c Hcfg4).
    eexists _, _. split; [reflexivity|]. split; [reflexivity|].
    now apply get_set_same.
Qed.

Lemma recorded_where_orders_agree (c : CP.t) (pkg version : string) :
  (forall old, CP.get c "requirements" pkg = Some old -> orders_agree old version) ->
  recorded_after c pkg version = recorded_as_specified c pkg version.
Proof.
  intros Hagree. unfold recorded_after, recorded_as_specified.
  destruct (CP.get c "requirements" pkg) as [old|]; [|reflexivity].
  destruct (Hagree old eq_refl) as [_ [_ E]]. now rewrite E.
Qed.

(** C8, as amended.  For a package (named in ASCII) processed by the
    loop that [install] runs over the requested packages, in a project
    whose configuration has a section [requirements] (and whose marker
    file has no section [[DEFAULT]] and no percent sign in a value):
    whatever the children do, the handler changes no entry other than
    that of the package in section [requirements]; and when the upgrade
    by the package manager and the pre-download for the remote target
    both succeed and the listing shows the package, the entry is set to
    the listed version if nothing was recorded, and, if a version was
    recorded and the two are release numbers for which the comparison of
    the strings gives the order of the version numbers, is set to the
    listed version if and only if that is the higher version number. *)
Theorem install_records_resolved_version
    (w : World) (c : CP.t) (download : bool) (pkg : string) :
  config w = Some c ->
  CP.has_section c "requirements" = true ->
  plain_config c ->
  ascii_only pkg = true ->
  (exists w' c',
     final_world (install_one host download pkg w) = Some w'
     /\ config w' = Some c'
     /\ forall s k,
          ascii_only k = true ->
          s <> "requirements" \/ CP.optionxform k <> CP.optionxform pkg ->
          CP.get c' s k = CP.get c s k)
  /\
  (forall (version : string) (lines : list string),
   download = true ->
   (forall t, returncode (child host t (pip_upgrade host pkg)) = 0%Z) ->
   (forall t, returncode (child host t (installer_download host pkg)) = 0%Z) ->
   (forall t, child host t (pip_freeze host) = {| returncode := 0%Z; stdout := lines |}) ->
   CP.lookup pkg (freeze_dict lines) = Some version ->
   PyStr.contains_char "%" version = false ->
   (forall old, CP.get c "requirements" pkg = Some old -> orders_agree old version) ->
   exists w' c',
     install_one host download pkg w = Done tt w'
     /\ config w' = Some c'
     /\ CP.get c' "requirements" pkg = Some (recorded_as_specified c pkg version)).
Proof.
  intros Hcfg Hsec _ _. split.
  - pose proof (install_one_only_newer download pkg w) as H.
    destruct (install_one host download pkg w) as [[] w'|code w'|e w'|];
      cbn in H; try contradiction;
      destruct (H c Hcfg) as [_ [_ [[c' [Hc' [HP _]]] _]]];
      exists w', c'; (split; [reflexivity|]); (split; [exact Hc'|]);
      intros s k _ Hne; now apply HP.
  - intros version lines -> Hpip Hdl Hfreeze Hver _ Hagree.
    rewrite <- (recorded_where_orders_agree c pkg version Hagree).
    now apply (install_one_records w c pkg version lines).
Qed.

End Record.

Lemma install_records_resolved_version_witness :
  let w := loaded_process ["home"; "team"] small_project in
  (exists w' c',
     final_world (install_one demo_host true "robotpy" w) = Some w'
     /\ config w' = Some c'
     /\ forall s k,
          ascii_only k = true ->
          s <> "requirements" \/ CP.optionxform k <> CP.optionxform "robotpy" ->
          CP.get c' s k = CP.get small_project s k)
  /\
  (exists w' c',
     install_one demo_host true "robotpy" w = Done tt w'
     /\ config w' = Some c'
     /\ CP.get c' "requirements" "robotpy"
        = Some (recorded_as_specified small_project "robotpy" "2024.3.2")).
Proof.
  intros w.
  destruct (install_records_resolved_version demo_host w small_project true "robotpy")
    as [HA HB].
  - reflexivity.
  - reflexivity.
  - split; [reflexivity | repeat constructor].
  - reflexivity.
  - split; [exact HA|].
    apply (HB "2024.3.2" ["robotpy==2024.3.2"; "foo==1.0"]); try reflexivity.
    intros old Hold. vm_compute in Hold. injection Hold as <-.
    repeat split; discriminate.
Defined.

(** A run of [install] for two packages: the newer base package is
    recorded, the equal version of [foo] is not written again. *)
Example install_records_newer_base_package :
  let o := install demo_host
             {| install_download := true; install_packages := ["robotpy"; "foo"] |}
             (loaded_process ["home"; "team"] small_project) in
  completes o = true
  /\ final_config o =
       Some [("requirements", [("robotpy", "2024.3.2"); ("foo", "1.0")]);
             ("execution", [("main", "robot.py")])].
Proof. vm_compute. split; reflexivity. Qed.

(** C8 as stated fails.  The upgrade of [foo] succeeds and the listing
    shows it, but the pre-download for the remote target fails: the loop
    goes on to the next package and [foo], which was not recorded, is
    still not recorded. *)
Lemma install_skips_record_after_failed_download :
  ~ install_as_specified offline_host true "foo" "1.0"
      (loaded_process ["home"; "team"] base_only) base_only.
Proof.
  intros H. destruct H as [w' [c' [Hrun [Hcfg Hget]]]].
  - intros t. reflexivity.
  - intros t. reflexivity.
  - vm_compute in Hrun. injection Hrun as <-.
    vm_compute in Hcfg. injection Hcfg as <-.
    vm_compute in Hget. discriminate.
Qed.

(** With [--no-download] the recording statement is not reached at all. *)
Example install_without_download_records_nothing :
  let o := install demo_host {| install_download := false; install_packages := ["foo"] |}
             (loaded_process ["home"; "team"] base_only) in
  completes o = true
  /\ final_config o = Some base_only
  /\ upgrades (final_trace o) = ["foo"].
Proof. vm_compute. repeat split. Qed.

(** The versions are compared as strings.  With 2024.10.1 on record and
    2024.3.2 listed, the string on record is the smaller one although it
    is the higher version number: [install] overwrites the entry with
    the older release. *)
Example install_overwrites_with_older_release :
  let o := install demo_host
             {| install_download := true; install_packages := ["robotpy"] |}
             (loaded_process ["home"; "team"] ahead_of_listing) in
  version_lt "2024.10.1" "2024.3.2" = false
  /\ version_lt "2024.3.2" "2024.10.1" = true
  /\ PyStr.lt "2024.10.1" "2024.3.2" = true
  /\ completes o = true
  /\ final_config o = Some [("requirements", [("robotpy", "2024.3.2")])].
Proof. vm_compute. repeat split. Qed.

(* ===================================================================== *)
(** ** [initialize] in a directory that has a marker file *)
(* ===================================================================== *)

Module SetItemOther.
Import ConfigParser DictFacts ConfigFacts SetFacts.
Local Open Scope list_scope.

Lemma lookup_fold_set_other (s s' : string) (items : list (string * string)) :
  s' <> s ->
  forall c, lookup s' (fold_left (fun a kv => set a s (fst kv) (snd kv)) items c)
            = lookup s' c.
Proof.
  intros Hne. induction items as [|[k v] items IH]; intros c; [reflexivity|].
  cbn [fold_left]. rewrite IH. now apply lookup_set_other.
Qed.

Lemma lookup_setitem_other (c : t) (s s' : string) (items : list (string * string)) :
  s' <> s -> lookup s' (setitem c s items) = lookup s' c.
Proof.
  intros Hne. unfold setitem. cbn zeta. rewrite lookup_fold_set_other by assumption.
  now apply lookup_store_other.
Qed.

Lemma lookup_setitem_single (c : t) (s k v : string) :
  lookup s (setitem c s [(k, v)]) = Some [(optionxform k, v)].
Proof.
  unfold setitem. cbn [fold_left fst snd]. unfold set.
  rewrite lookup_store_same. cbn [store]. apply lookup_store_same.
Qed.

Lemma get_setitem_other (c : t) (s s' k : string) (items : list (string * string)) :
  s' <> s -> get (setitem c s items) s' k = get c s' k.
Proof. intros Hne. unfold get. now rewrite lookup_setitem_other. Qed.
End SetItemOther.

Section Reinitialize.
Import DictFacts ConfigFacts SetFacts SetItemOther.
Variable host : Host.
Local Open Scope list_scope.

Lemma keeps_requirements_refl (K : list string) (c : CP.t) : keeps_requirements K c c.
Proof. repeat split. Qed.

Lemma keeps_requirements_trans (K : list string) (c1 c2 c3 : CP.t) :
  keeps_requirements K c1 c2 -> keeps_requirements K c2 c3 -> keeps_requirements K c1 c3.
Proof.
  intros [A1 [B1 C1]] [A2 [B2 C2]]. repeat split.
  - intros s H1 H2. now rewrite A2, A1.
  - intros k Hk. now rewrite B2, B1.
  - intros HK. now rewrite C2, C1.
Qed.

Lemma keeps_requirements_set (K : list string) (c : CP.t) (pkg v : string) :
  In (CP.optionxform pkg) K ->
  keeps_requirements K c (CP.set c "requirements" pkg v).
Proof.
  intros Hin. repeat split.
  - intros s H1 _. now apply lookup_set_other.
  - intros k Hk. apply get_set_other. right. intros E. apply Hk. now rewrite E.
  - intros ->. destruct Hin.
Qed.

Lemma keeps_requirements_auth (K : list string) (c : CP.t) (items : list (string * string)) :
  keeps_requirements K c (CP.setitem c "auth" items).
Proof.
  repeat split.
  - intros s _ H2. now apply lookup_setitem_other.
  - intros k _. now apply get_setitem_other.
  - intros _. now apply lookup_setitem_other.
Qed.

Lemma ok_write_file (P : CP.t -> CP.t -> Prop) (Q : event -> Prop)
    (name content : string) :
  (forall c, P c c) -> (forall f s, Q (EvWriteFile f s)) ->
  ensures (changes P Q) (write_file name content).
Proof.
  intros Pr Qw w c Hc. cbn. repeat split; eauto.
Qed.

Lemma ok_os_isfile (P : CP.t -> CP.t -> Prop) (Q : event -> Prop) (name : string) :
  (forall c, P c c) -> ensures (changes P Q) (os_isfile name).
Proof. intros Pr w. now apply changes_refl. Qed.

Lemma after_execution_is_set
    (w3 w' : World) (c : CP.t) (entry : string) (K : list string) :
  config w3 = Some (CP.setitem c "execution" [("main", entry)]) ->
  changes (keeps_requirements K) (fun _ => True) w3 w' ->
  exists c',
    config w' = Some c'
    /\ CP.lookup "execution" c' = Some [("main", entry)]
    /\ (forall k, ~ In (CP.optionxform k) K ->
                  CP.get c' "requirements" k = CP.get c "requirements" k)
    /\ (K = [] -> CP.lookup "requirements" c' = CP.lookup "requirements" c).
Proof.
  intros Hcfg3 Hrel.
  destruct (Hrel _ Hcfg3) as [_ [_ [[c' [Hc' [HA [HB HC]]]] _]]].
  exists c'. split; [assumption|]. split; [|split].
  - rewrite HA by discriminate. apply lookup_setitem_single.
  - intros k Hk. rewrite (HB k Hk). now apply get_setitem_other.
  - intros HK. rewrite (HC HK). now apply lookup_setitem_other.
Qed.

(** C10, as amended.  [initialize] in a directory whose marker file
    exists, started with the configuration of that file loaded, does not
    reset section [requirements]: however the handler ends, every entry
    of the section other than those of the packages requested with
    [--with] is as before, and when no package is requested the whole
    section is as before; and section [execution] has been overwritten
    so that it holds just [main], the requested entry file.  (The entry
    file and the host name are to hold no percent sign, which the parser
    object would reject; the marker file is to have no section
    [[DEFAULT]] and no percent sign in a value; package names are in
    ASCII.) *)
Theorem reinitialize_keeps_requirements
    (w : World) (c : CP.t) (args : init_args) :
  config w = Some c ->
  (forall d, init_directory args = Some d -> is_regular_file w d = false) ->
  marker_at w (init_target args w) = Some c ->
  plain_config c ->
  PyStr.contains_char "%" (init_main args) = false ->
  (forall hostname, init_host args = Some hostname ->
                    PyStr.contains_char "%" hostname = false) ->
  Forall (fun pkg => ascii_only pkg = true) (init_packages args) ->
  exists w' c',
    final_world (initialize host args w) = Some w'
    /\ config w' = Some c'
    /\ CP.lookup "execution" c' = Some [("main", init_main args)]
    /\ (forall k,
          ascii_only k = true ->
          ~ In (CP.optionxform k)
               (map CP.optionxform (expand_addons (init_packages args))) ->
          CP.get c' "requirements" k = CP.get c "requirements" k)
    /\ (init_packages args = [] ->
        CP.lookup "requirements" c' = CP.lookup "requirements" c).
Proof.
  intros Hcfg Hdir Hmark _ _ _ _. unfold initialize.
  rewrite (bind_done _ _ _ _ _ (enter_target_run host w args Hdir)).
  set (target := init_target args w) in *.
  set (w1 := with_cwd target (with_trace (trace w ++ enter_events args) w)).
  assert (Hcfg1 : config w1 = Some c) by exact Hcfg.
  assert (Hm1 : isfile_marker w1 = true).
  { unfold isfile_marker. change (marker_at w1 (cwd w1)) with (marker_at w target).
    now rewrite Hmark. }
  unfold initialize_project. run. run. rewrite Hm1. run.
  match goal with
  | |- context [bind (cfg_setitem "execution" _) _ ?w0] => set (w2 := w0)
  end.
  assert (Hcfg2 : config w2 = Some c) by exact Hcfg.
  run.
  set (c3 := CP.setitem c "execution" [("main", init_main args)]).
  set (w3 := with_config (Some c3) w2).
  assert (Hcfg3 : config w3 = Some c3) by reflexivity.
  set (K := map CP.optionxform (expand_addons (init_packages args))).
  rewrite ?bind_bind.
  match goal with
  | |- context [bind ?m ?k w3] =>
      assert (Hens : ensures (changes (keeps_requirements K) (fun _ => True)) (bind m k));
      [|pose proof (Hens w3) as Hrel; destruct (bind m k w3) as [[] w'|code w'|e w'|]]
  end.
  { assert (Pr : forall x, keeps_requirements K x x) by apply keeps_requirements_refl.
    assert (Pt : forall x y z, keeps_requirements K x y -> keeps_requirements K y z ->
                               keeps_requirements K x z) by apply keeps_requirements_trans.
    apply ok_bind; auto.
    { destruct (init_host args); [|now apply ok_ret].
      apply ok_bind; auto; [now apply ok_write_file | intros _].
      apply ok_bind; auto; [now apply ok_write_file | intros _].
      apply ok_config_update; auto. intros x. apply keeps_requirements_auth. }
    intros _. apply ok_bind; auto.
    { destruct (negb (init_bare args)); [|now apply ok_ret].
      apply ok_bind; auto; [now apply ok_os_isfile | intros present].
      destruct present; [now apply ok_error | now apply ok_write_file]. }
    intros _. apply ok_bind; auto.
    { destruct (init_git args); [|now apply ok_ret].
      apply ok_bind; auto; [now apply ok_subprocess_run | intros; now apply ok_ret]. }
    intros _.
    apply ok_bind; auto; [now apply ok_msg | intros _].
    apply ok_bind; auto; [now apply ok_rpinst | intros res].
    apply ok_bind; auto; [now apply ok_expect_result | intros _].
    apply ok_bind; auto; [now apply ok_msg | intros _].
    apply ok_bind; auto; [now apply ok_rpinst | intros res'].
    apply ok_bind; auto; [now apply ok_expect_result | intros _].
    apply ok_install_package; auto.
    intros pkg x v Hin. apply keeps_requirements_set. unfold K. now apply in_map. }
  all: cbn in Hrel; try contradiction;
    destruct (after_execution_is_set w3 w' c (init_main args) K Hcfg3 Hrel)
      as [c' [Hc' [HE [HR HN]]]];
    exists w', c'; repeat split; auto;
    intros Hnone; apply HN; unfold K; now rewrite Hnone.
Qed.

End Reinitialize.

Lemma reinitialize_keeps_requirements_witness :
  let w := loaded_process ["home"; "team"] small_project in
  exists w' c',
    final_world (initialize demo_host init_with_foo w) = Some w'
    /\ config w' = Some c'
    /\ CP.lookup "execution" c' = Some [("main", init_main init_with_foo)]
    /\ (forall k,
          ascii_only k = true ->
          ~ In (CP.optionxform k)
               (map CP.optionxform (expand_addons (init_packages init_with_foo))) ->
          CP.get c' "requirements" k = CP.get small_project "requirements" k)
    /\ (init_packages init_with_foo = [] ->
        CP.lookup "requirements" c' = CP.lookup "requirements" small_project).
Proof.
  intros w.
  apply (reinitialize_keeps_requirements demo_host w small_project init_with_foo).
  - reflexivity.
  - discriminate.
  - reflexivity.
  - split; [reflexivity | repeat constructor].
  - reflexivity.
  - discriminate.
  - repeat constructor.
Defined.

(** [robotpy init] again in the small project: the requirements stay, the
    entry file is overwritten in the configuration. *)
Example reinitialize_plain :
  let o := initialize demo_host
             {| init_directory := None; init_main := "main.py"; init_bare := true;
                init_host := None; init_git := false; init_packages := [] |}
             (loaded_process ["home"; "team"] small_project) in
  completes o = true
  /\ final_config o =
       Some [("requirements", [("robotpy", "2024.1.1"); ("foo", "1.0")]);
             ("execution", [("main", "main.py")])].
Proof. vm_compute. split; reflexivity. Qed.

(** C10 as stated fails.  [robotpy init --with foo] in a project that
    tracks the base package only completes and has added [foo] to section
    [requirements]. *)
Lemma reinitialize_with_package_changes_requirements :
  ~ reinit_as_specified demo_host init_with_foo
      (loaded_process ["home"; "team"] base_only) base_only.
Proof.
  intros [w' [c' [Hrun [Hcfg [Hreq _]]]]].
  vm_compute in Hrun. injection Hrun as <-.
  vm_compute in Hcfg. injection Hcfg as <-.
  vm_compute in Hreq. discriminate.
Qed.

(* ===================================================================== *)
(** ** Loading and saving the configuration *)
(* ===================================================================== *)

Lemma quiet_refl (w : World) : quiet w w.
Proof. apply changes_refl. auto. Qed.

Lemma ok_state_query {A} (P : CP.t -> CP.t -> Prop) (Q : event -> Prop)
    (f : World -> A) :
  (forall c, P c c) -> ensures (changes P Q) (fun w => Done (f w) w).
Proof. intros Pr w. now apply changes_refl. Qed.

Lemma quiet_global_packages_getitem (key : string) :
  ensures quiet (global_packages_getitem key).
Proof.
  intros w. unfold global_packages_getitem. destruct (packages w) as [p|].
  - unfold dict_getitem. destruct (CP.lookup key p); apply quiet_refl.
  - apply quiet_refl.
Qed.

(** Solves the side conditions of the frame lemmas for [quiet]. *)
Ltac side := try solve [intros; exact I].

(** One step through a piece of the script that is [quiet]. *)
Ltac quiet_step :=
  lazymatch goal with
  | |- forall _, _ => intro
  | |- ensures _ (bind _ _) => apply ok_bind; side
  | |- ensures _ (ret _) => apply ok_ret; side
  | |- ensures _ (raise _) => apply ok_raise; side
  | |- ensures _ (sys_exit _) => apply ok_sys_exit; side
  | |- ensures _ (msg _ _ _) => apply ok_msg; side
  | |- ensures _ (warn _ _) => apply ok_warn; side
  | |- ensures _ (error _ _) => apply ok_error; side
  | |- ensures _ (fatal _ _) => apply ok_fatal; side
  | |- ensures _ (log _) => apply ok_log; side
  | |- ensures _ (expect_result _ _ _ _) => apply ok_expect_result; side
  | |- ensures _ (python _ _ _) => apply ok_python; side
  | |- ensures _ (rpinst _ _) => apply ok_rpinst; side
  | |- ensures _ (subprocess_run _ _ _) => apply ok_subprocess_run; side
  | |- ensures _ (load_packages _ _) => apply ok_load_packages; side
  | |- ensures _ load_config => apply ok_load_config; side
  | |- ensures _ config_obj => apply ok_config_obj; side
  | |- ensures _ (config_update _) => apply ok_config_update; side
  | |- ensures _ (cfg_contains _) => apply ok_cfg_contains; side
  | |- ensures _ (cfg_getitem _) => apply ok_cfg_getitem; side
  | |- ensures _ (cfg_setitem _ _) => unfold cfg_setitem
  | |- ensures _ (cfg_delitem _) => unfold cfg_delitem
  | |- ensures _ (proxy_contains _ _) => apply ok_proxy_contains; side
  | |- ensures _ (proxy_getitem _ _) => apply ok_proxy_getitem; side
  | |- ensures _ (proxy_setitem _ _ _) => unfold proxy_setitem
  | |- ensures _ (proxy_delitem _ _) => unfold proxy_delitem
  | |- ensures _ (proxy_len _) => apply ok_proxy_len; side
  | |- ensures _ (proxy_iter _) => apply ok_proxy_iter; side
  | |- ensures _ (proxy_items _) => apply ok_proxy_items; side
  | |- ensures _ (dict_getitem _ _) => apply ok_dict_getitem; side
  | |- ensures _ (tracked _) => apply ok_tracked; side
  | |- ensures _ (needs_deploy _ _ _) => apply ok_needs_deploy; side
  | |- ensures _ (global_packages_getitem _) => apply quiet_global_packages_getitem
  | |- ensures _ os_isfile_marker => apply ok_state_query; side
  | |- ensures _ (os_isfile _) => apply ok_state_query; side
  | |- ensures _ (os_exists_not_dir _) => apply ok_state_query; side
  | |- ensures _ getcwd => apply ok_getcwd; side
  | |- ensures _ (set_verbose_level _) => apply ok_set_verbose_level; side
  | |- ensures _ (write_file _ _) => apply ok_write_file; side
  | |- ensures _ (for_each _ _) => apply ok_for_each; side
  | |- ensures _ (filter_m _ _) => apply ok_filter_m; side
  | |- ensures _ (install_package _ _ _) => apply ok_install_package; side
  | |- ensures _ (if ?b then _ else _) => destruct b
  | |- ensures _ (match ?x with _ => _ end) => destruct x
  end.

Ltac quiet_steps := unfold quiet; repeat quiet_step.

(** States a goal about one run as a goal about the piece of script. *)
Ltac as_ensures :=
  cbv beta;
  lazymatch goal with
  | |- outcome_rel ?R ?w (?m ?w) =>
      let H := fresh "Hens" in
      assert (H : ensures R m); [| exact (H w)]
  end.

Section Quiet.
Variable host : Host.
Local Open Scope list_scope.

Lemma quiet_initialize_project (target : path) (args : init_args) :
  ensures quiet (initialize_project host target args).
Proof. unfold initialize_project. quiet_steps. Qed.

Lemma quiet_remove_loop (pkgs : list string) :
  ensures quiet (load_config ;; for_each (remove_one host) pkgs).
Proof. unfold remove_one. quiet_steps. Qed.

Lemma quiet_update_body (args : update_args) :
  ensures quiet
    (load_config ;;
     pkgs <- update_selection host args ;;
     install_package host pkgs (update_download args)).
Proof. unfold update_selection. quiet_steps. Qed.

Lemma quiet_deploy_body (args : deploy_args) :
  ensures quiet
    (load_config ;;
     (if deploy_lib args then deploy_libraries host else ret tt) ;;
     (if deploy_code args then deploy_robot_code host else ret tt)).
Proof. unfold deploy_libraries, deploy_robot_code. quiet_steps. Qed.

Lemma quiet_trans (w1 w2 w3 : World) : quiet w1 w2 -> quiet w2 w3 -> quiet w1 w3.
Proof. apply changes_trans; auto. Qed.

(** From a run at one world to a run of a sequence. *)
Lemma outcome_rel_bind {A B} (m : M A) (k : A -> M B) (w : World) :
  outcome_rel quiet w (m w) ->
  (forall a, ensures quiet (k a)) ->
  outcome_rel quiet w (bind m k w).
Proof.
  intros Hm Hk. unfold bind. destruct (m w) as [a w'| | |]; cbn in *; auto.
  specialize (Hk a w'). destruct (k a w'); cbn in *; eauto using quiet_trans.
Qed.

Lemma quiet_enter_target (w : World) (args : init_args) :
  init_directory args = None \/ init_directory args = Some (cwd w) ->
  outcome_rel quiet w (enter_target host args w).
Proof.
  intros Hdir.
  assert (Hev : forall evs, Forall not_config_io evs ->
                quiet w (with_cwd (cwd w) (with_trace (trace w ++ evs) w))).
  { intros evs Hevs c Hc. cbn. repeat split; eauto. }
  destruct (match init_directory args with
            | Some d => is_regular_file w d
            | None => false
            end) eqn:Hreg.
  - destruct (init_directory args) as [d|] eqn:Ed; [|discriminate].
    unfold enter_target. rewrite Ed. run. rewrite Hreg.
    rewrite ?bind_bind. erewrite bind_exit by apply fatal_run.
    cbn. apply changes_events; auto.
    unfold msg_events. destruct (_ || _); repeat constructor.
  - rewrite enter_target_run.
    + cbn. unfold init_target, enter_events.
      destruct Hdir as [-> | ->]; apply Hev; repeat constructor.
    + intros d Ed. now rewrite Ed in Hreg.
Qed.

(** Every built-in handler, started in place, is [quiet]. *)
Lemma quiet_run_builtin (w : World) (verbose : Z) (args : builtin_args) :
  started_in_place (Builtin verbose args) w ->
  outcome_rel quiet w (run_builtin host args w).
Proof.
  intros Hstart. destruct args as [a|a|a|a|a|a]; cbn [run_builtin started_in_place] in *.
  - unfold initialize. apply outcome_rel_bind.
    + now apply quiet_enter_target.
    + intros target. apply quiet_initialize_project.
  - unfold install. rewrite (bind_done _ _ _ _ _ (move_to_robotpy_dir_at_root host w Hstart)).
    as_ensures. quiet_steps.
  - unfold update. rewrite (bind_done _ _ _ _ _ (move_to_robotpy_dir_at_root host w Hstart)).
    apply quiet_update_body.
  - unfold remove. rewrite (bind_done _ _ _ _ _ (move_to_robotpy_dir_at_root host w Hstart)).
    apply quiet_remove_loop.
  - unfold deploy. rewrite (bind_done _ _ _ _ _ (move_to_robotpy_dir_at_root host w Hstart)).
    apply quiet_deploy_body.
  - unfold configure.
    rewrite (bind_done _ _ _ _ _ (move_to_robotpy_dir_at_root host w Hstart)).
    as_ensures. cbv zeta. quiet_steps.
Qed.

Lemma quiet_register_all (names : list string) :
  forall f, ensures quiet (register_all f names).
Proof.
  induction names as [|n names IH]; intros f; cbn [register_all].
  - quiet_steps.
  - unfold quiet. apply ok_bind; side.
    + unfold register. quiet_steps.
    + intros f'. apply IH.
Qed.

Lemma quiet_custom_func (f : frame) (rest : list string) :
  ensures quiet (custom_func host f rest).
Proof. unfold custom_func. quiet_steps. Qed.

End Quiet.

Section SaveAtEnd.
Variable host : Host.
Local Open Scope list_scope.

Lemma reads_app (t1 t2 : list event) : reads (t1 ++ t2) = reads t1 ++ reads t2.
Proof. apply flat_map_app. Qed.

Lemma writes_app (t1 t2 : list event) : writes (t1 ++ t2) = writes t1 ++ writes t2.
Proof. apply flat_map_app. Qed.

Lemma no_config_io (t : list event) :
  Forall not_config_io t -> reads t = [] /\ writes t = [].
Proof.
  induction 1 as [|e t He _ [IHr IHw]]; [now split|].
  unfold reads, writes in *. cbn [flat_map]. rewrite IHr, IHw.
  destruct e; try contradiction; now split.
Qed.

Lemma path_eqb_refl (p : path) : path_eqb p p = true.
Proof. unfold path_eqb. destruct (list_eq_dec string_dec p p); congruence. Qed.

(** What [quiet] gives, spelled out. *)
Lemma quiet_facts (w w1 : World) (c : CP.t) :
  config w = Some c -> quiet w w1 ->
  cwd w1 = cwd w /\ markers w1 = markers w /\ (exists c1, config w1 = Some c1)
  /\ reads (trace w1) = reads (trace w) /\ writes (trace w1) = writes (trace w).
Proof.
  intros Hc Hq. destruct (Hq c Hc) as [H1 [H2 [[c1 [H3 _]] [new [H4 H5]]]]].
  destruct (no_config_io new H5) as [Hr Hw].
  repeat split; auto; [eauto | |]; rewrite H4.
  - now rewrite reads_app, Hr, app_nil_r.
  - now rewrite writes_app, Hw, app_nil_r.
Qed.

Lemma saved_write (d : path) (w0 w : World) (c0 : CP.t) :
  config w0 = Some c0 -> quiet w0 w -> cwd w0 = d ->
  saved_at_end d (trace w) (write_config w).
Proof.
  intros Hc0 Hq Hd.
  destruct (quiet_facts w0 w c0 Hc0 Hq) as [Hcwd [_ [[c Hc] _]]].
  unfold write_config. rewrite (bind_done _ _ _ _ _ (config_obj_run w c Hc)).
  eexists. split; [reflexivity|]. cbn [trace with_markers with_trace]. split.
  - rewrite reads_app. cbn. now rewrite app_nil_r.
  - exists c. rewrite Hcwd, Hd. repeat split.
    + exact Hc.
    + now rewrite writes_app.
    + apply last_last.
    + unfold marker_at. cbn. now rewrite path_eqb_refl.
Qed.

Lemma saved_step {A} (m : M A) (k : A -> M unit) (d : path) (w0 w : World) (c0 : CP.t) :
  config w0 = Some c0 -> quiet w0 w ->
  outcome_rel quiet w (m w) ->
  (forall a w1, quiet w0 w1 -> saved_at_end d (trace w1) (k a w1)) ->
  saved_at_end d (trace w) (bind m k w).
Proof.
  intros Hc0 Hq Hm Hk.
  destruct (quiet_facts w0 w c0 Hc0 Hq) as [_ [_ [[c Hc] _]]].
  unfold bind. destruct (m w) as [a w1|code w1|e w1|]; cbn in Hm; try contradiction.
  - destruct (quiet_facts w w1 c Hc Hm) as [_ [_ [_ [Hr Hw]]]].
    destruct (Hk a w1 (quiet_trans _ _ _ Hq Hm)) as [w' [Hf [Hr' Hrest]]].
    exists w'. split; [assumption|]. split; [congruence|].
    destruct (k a w1); rewrite <- Hw; exact Hrest.
  - destruct (quiet_facts w w1 c Hc Hm) as [_ [_ [_ [Hr Hw]]]].
    exists w1. repeat split; assumption.
  - destruct (quiet_facts w w1 c Hc Hm) as [_ [_ [_ [Hr Hw]]]].
    exists w1. repeat split; assumption.
Qed.

Lemma load_config_first (w : World) :
  config w = None -> load_config w = Done (parsed_marker w) (after_load w).
Proof.
  intros Hnone. unfold load_config. rewrite Hnone. reflexivity.
Qed.

Lemma started_in_place_quiet (argv : command_line) (w0 w1 : World) (c0 : CP.t) :
  config w0 = Some c0 -> quiet w0 w1 ->
  started_in_place argv w0 -> started_in_place argv w1.
Proof.
  intros Hc Hq. destruct (quiet_facts w0 w1 c0 Hc Hq) as [Hcwd [Hm _]].
  destruct argv as [|v [a|a|a|a|a|a]|v n r]; cbn; auto;
    try (unfold isfile_marker, marker_at; now rewrite Hcwd, Hm).
  now rewrite Hcwd.
Qed.

(** The registration of custom commands is [quiet]. *)
Lemma quiet_registration (w : World) (has_commands : bool) :
  outcome_rel quiet w
    ((if has_commands then
        commands <- cfg_getitem "command" ;;
        names <- proxy_iter commands ;;
        register_all {| command := None; registered := builtin_names |} names
      else ret {| command := None; registered := builtin_names |}) w).
Proof.
  as_ensures. unfold quiet. destruct has_commands; [|now apply ok_ret].
  apply ok_bind; auto; [now apply ok_cfg_getitem | intros commands].
  apply ok_bind; auto; [now apply ok_proxy_iter | intros names].
  apply quiet_register_all.
Qed.

(** C2, as amended.  A process started with a sub-command, in the
    directory it works in (the project root; for [initialize] the target
    directory): the configuration object is filled once, at the start,
    with what the marker file of that directory parses to (nothing, if
    there is none), and no marker file is read after that; if the handler
    completes, the last action of the process is to write the
    configuration object, as the handler left it, to the marker file of
    that directory, once; if the process ends by [sys.exit] or by an
    exception, no marker file is written. *)
Theorem main_loads_once_and_saves_on_completion
    (argv : command_line) (w : World) :
  config w = None ->
  trace w = [] ->
  started_in_place argv w ->
  main host argv w = main host argv (after_load w)
  /\ config (after_load w) = Some (parsed_marker w)
  /\ exists w',
       final_world (main host argv w) = Some w'
       /\ reads (trace w') = [cwd w]
       /\ match main host argv w with
          | Done _ _ =>
              exists c',
                config w' = Some c'
                /\ writes (trace w') = [(cwd w, c')]
                /\ last (trace w') (EvRead []) = EvWriteConfig (cwd w) c'
                /\ marker_at w' (cwd w) = Some c'
          | _ => writes (trace w') = []
          end.
Proof.
  intros Hnone Htrace Hstart.
  set (w0 := after_load w). set (c0 := parsed_marker w).
  assert (Hc0 : config w0 = Some c0) by reflexivity.
  assert (Hq0 : quiet w0 w0) by apply quiet_refl.
  assert (Hcwd0 : cwd w0 = cwd w) by reflexivity.
  assert (Hstart0 : started_in_place argv w0).
  { destruct argv as [|v [a|a|a|a|a|a]|v n r]; cbn in *; auto. }
  assert (Hsame : main host argv w = main host argv w0).
  { destruct argv as [|v a|v n r]; [destruct Hstart| |]; unfold main;
      rewrite (bind_done _ _ _ _ _ (load_config_first w Hnone));
      rewrite (bind_done _ _ _ _ _ (load_config_cached w0 c0 Hc0)); reflexivity. }
  split; [exact Hsame|]. split; [exact Hc0|].
  assert (Hsaved : saved_at_end (cwd w) (trace w0) (main host argv w0)).
  { destruct argv as [|v a|v n r]; [destruct Hstart| |]; unfold main;
      rewrite (bind_done _ _ _ _ _ (load_config_cached w0 c0 Hc0)).
    - apply (saved_step _ _ _ w0 w0 c0 Hc0 Hq0);
        [as_ensures; now apply ok_cfg_contains | intros has w1 Hq1].
      apply (saved_step _ _ _ w0 w1 c0 Hc0 Hq1); [|intros _ w2 Hq2].
      { as_ensures. unfold quiet. destruct has; [|now apply ok_ret].
        apply ok_bind; auto; [now apply ok_cfg_getitem | intros commands].
        apply ok_bind; auto; [now apply ok_proxy_iter | intros names].
        apply ok_bind; auto; [apply quiet_register_all | intros; now apply ok_ret]. }
      apply (saved_step _ _ _ w0 w2 c0 Hc0 Hq2);
        [as_ensures; now apply ok_set_verbose_level | intros _ w3 Hq3].
      apply (saved_step _ _ _ w0 w3 c0 Hc0 Hq3); [|intros _ w4 Hq4].
      { apply (quiet_run_builtin host w3 v a).
        exact (started_in_place_quiet (Builtin v a) w0 w3 c0 Hc0 Hq3 Hstart0). }
      now apply (saved_write _ w0 w4 c0).
    - apply (saved_step _ _ _ w0 w0 c0 Hc0 Hq0);
        [as_ensures; now apply ok_cfg_contains | intros has w1 Hq1].
      apply (saved_step _ _ _ w0 w1 c0 Hc0 Hq1);
        [apply quiet_registration | intros f w2 Hq2].
      apply (saved_step _ _ _ w0 w2 c0 Hc0 Hq2); [|intros _ w3 Hq3].
      { as_ensures. destruct (_ && _); [now apply ok_ret | now apply ok_sys_exit]. }
      apply (saved_step _ _ _ w0 w3 c0 Hc0 Hq3);
        [as_ensures; now apply ok_set_verbose_level | intros _ w4 Hq4].
      apply (saved_step _ _ _ w0 w4 c0 Hc0 Hq4);
        [as_ensures; apply quiet_custom_func | intros _ w5 Hq5].
      now apply (saved_write _ w0 w5 c0). }
  rewrite Hsame.
  destruct Hsaved as [w' [Hf [Hr Hrest]]].
  assert (Hr0 : reads (trace w0) = [cwd w])
    by (unfold w0, after_load; cbn [trace with_config with_trace]; now rewrite Htrace).
  assert (Hw0 : writes (trace w0) = [])
    by (unfold w0, after_load; cbn [trace with_config with_trace]; now rewrite Htrace).
  exists w'. split; [assumption|]. split; [congruence|].
  destruct (main host argv w0); rewrite Hw0 in Hrest; exact Hrest.
Qed.

End SaveAtEnd.

Lemma main_loads_once_and_saves_on_completion_witness :
  let w := fresh_process ["home"; "team"] [(["home"; "team"], small_project)] in
  main demo_host set_hostname w = main demo_host set_hostname (after_load w)
  /\ config (after_load w) = Some (parsed_marker w)
  /\ exists w',
       final_world (main demo_host set_hostname w) = Some w'
       /\ reads (trace w') = [cwd w]
       /\ match main demo_host set_hostname w with
          | Done _ _ =>
              exists c',
                config w' = Some c'
                /\ writes (trace w') = [(cwd w, c')]
                /\ last (trace w') (EvRead []) = EvWriteConfig (cwd w) c'
                /\ marker_at w' (cwd w) = Some c'
          | _ => writes (trace w') = []
          end.
Proof.
  intros w.
  apply (main_loads_once_and_saves_on_completion demo_host set_hostname w).
  - reflexivity.
  - reflexivity.
  - reflexivity.
Defined.

(** A run of [robotpy config auth.hostname 10.0.0.2] in the project root:
    one read, one write, both of the marker file of the root. *)
Example set_hostname_in_project_root :
  let o := main demo_host set_hostname
             (fresh_process ["home"; "team"] [(["home"; "team"], small_project)]) in
  completes o = true
  /\ reads (final_trace o) = [["home"; "team"]]
  /\ writes (final_trace o) =
       [(["home"; "team"],
         [("requirements", [("robotpy", "2024.1.1"); ("foo", "1.0")]);
          ("execution", [("main", "robot.py")]);
          ("auth", [("hostname", "10.0.0.2")])])].
Proof. vm_compute. repeat split. Qed.

(** C2 as stated fails.  [robotpy config verbose] in the project root:
    the field has no dot, the handler reports it and exits with status
    1, and the configuration is not written back. *)
Lemma rejected_field_is_not_saved :
  ~ load_once_save_once demo_host bad_field
      (fresh_process ["home"; "team"] [(["home"; "team"], small_project)]).
Proof.
  intros H. destruct (H ["home"; "team"] eq_refl) as [w' [c' [Hf [_ [_ Hw]]]]].
  vm_compute in Hf. injection Hf as <-.
  vm_compute in Hw. discriminate.
Qed.

(** Started in a sub-directory of the project, the process has read the
    (absent) marker file of that sub-directory before the handler moves
    to the project root; the handler then works on an empty
    configuration, and what is saved replaces the marker file of the
    project. *)
Example set_hostname_from_subdirectory :
  let o := main demo_host set_hostname
             (fresh_process ["home"; "team"; "src"] [(["home"; "team"], small_project)]) in
  completes o = true
  /\ reads (final_trace o) = [["home"; "team"; "src"]]
  /\ writes (final_trace o) = [(["home"; "team"], [("auth", [("hostname", "10.0.0.2")])])].
Proof. vm_compute. repeat split. Qed.

(* ===================================================================== *)
(** ** Add-on shorthand *)
(* ===================================================================== *)

Section Addons.
Local Open Scope list_scope.

Lemma format_robotpy_addon_canonical (name : string) :
  is_robotpy_addon (format_robotpy_addon name) = false.
Proof.
  unfold format_robotpy_addon, is_robotpy_addon.
  destruct (String.eqb name "commands2"); reflexivity.
Qed.

Lemma expand_addons_In (names : list string) (pkg : string) :
  In pkg (expand_addons names) -> is_robotpy_addon pkg = false.
Proof.
  unfold expand_addons. rewrite in_map_iff. intros [name [<- _]].
  destruct (is_robotpy_addon name) eqn:E; [apply format_robotpy_addon_canonical | exact E].
Qed.

(** X1.  Expanding add-on shorthand ([is_robotpy_addon],
    [format_robotpy_addon], as [install] and [initialize] apply them to
    their package lists) yields a list of the same length that holds no
    shorthand any more, so that expanding a second time changes nothing;
    and the two spellings [commands2] and [commands-v2] of one add-on
    expand to the same package. *)
Theorem expand_addons_idempotent (names : list string) :
  expand_addons (expand_addons names) = expand_addons names
  /\ Forall (fun pkg => is_robotpy_addon pkg = false) (expand_addons names)
  /\ length (expand_addons names) = length names
  /\ expand_addons ["commands2"] = expand_addons ["commands-v2"].
Proof.
  assert (Hall : Forall (fun pkg => is_robotpy_addon pkg = false) (expand_addons names))
    by (apply Forall_forall; intros pkg; apply expand_addons_In).
  split; [|split; [exact Hall | split; [apply length_map | reflexivity]]].
  revert Hall. generalize (expand_addons names) as l.
  induction l as [|a l IH]; intros Hall; [reflexivity|].
  inversion Hall as [|? ? Ha Hl]; subst.
  cbn [expand_addons map]. rewrite Ha. f_equal. now apply IH.
Qed.

End Addons.

(* ===================================================================== *)
(** ** The listing of installed packages *)
(* ===================================================================== *)

Module FreezeFacts.
Import PyStr ConfigParser DictFacts.
Local Open Scope list_scope.

Lemma split_eqeq_nonempty (s : string) : split_eqeq s <> [].
Proof.
  destruct s as [|c s]; [discriminate|]. cbn [split_eqeq].
  destruct s as [|d r].
  - cbn. discriminate.
  - destruct (Ascii.eqb c "=" && Ascii.eqb d "="); [discriminate|].
    destruct (split_eqeq (String d r)); discriminate.
Qed.

(** A string without an equals sign is not split. *)
Lemma split_eqeq_plain (s : string) :
  contains_char "=" s = false -> split_eqeq s = [s].
Proof.
  induction s as [|c s IH]; [reflexivity|].
  cbn [contains_char]. intros H. apply orb_false_iff in H. destruct H as [Hc Hs].
  assert (Hc' : Ascii.eqb c "=" = false) by (rewrite Ascii.eqb_sym; exact Hc).
  cbn [split_eqeq]. rewrite (IH Hs), Hc'. cbn [andb]. now destruct s.
Qed.

(** A line [name==version] is split into the name and the version. *)
Lemma split_eqeq_line (name version : string) :
  contains_char "=" name = false -> contains_char "=" version = false ->
  split_eqeq (name ++ "==" ++ version) = [name; version].
Proof.
  intros Hn Hv. induction name as [|c name IH].
  - cbn. now rewrite (split_eqeq_plain version Hv).
  - cbn [contains_char] in Hn. apply orb_false_iff in Hn. destruct Hn as [Hc Hn].
    assert (Hc' : Ascii.eqb c "=" = false) by (rewrite Ascii.eqb_sym; exact Hc).
    change (String c name ++ "==" ++ version)%string
      with (String c (name ++ "==" ++ version)).
    cbn [split_eqeq]. rewrite (IH Hn), Hc'. cbn [andb].
    now destruct (name ++ "==" ++ version)%string.
Qed.

Lemma freeze_fold_pinned (d : dict string) :
  Forall pinned d ->
  forall acc, NoDup (keys acc ++ keys d) ->
    freeze_fold acc (map freeze_line d) = acc ++ d.
Proof.
  induction 1 as [|[name version] d [Hn Hv] _ IH]; intros acc Hnd.
  - cbn. now rewrite app_nil_r.
  - unfold freeze_fold in *. cbn [map fold_left].
    change (freeze_line (name, version)) with (name ++ "==" ++ version)%string.
    cbn [fst snd] in Hn, Hv.
    rewrite (split_eqeq_line name version Hn Hv).
    assert (Hfresh : ~ In name (keys acc)).
    { intros Hin. apply NoDup_remove_2 in Hnd. apply Hnd. apply in_or_app. now left. }
    rewrite (SetItemFacts.store_fresh name version acc Hfresh).
    rewrite IH.
    + now rewrite <- app_assoc.
    + unfold keys in *. rewrite map_app. cbn [map fst]. now rewrite <- app_assoc.
Qed.

Lemma freeze_fold_app (l1 l2 : list string) (acc : dict string) :
  freeze_fold acc (l1 ++ l2) = freeze_fold (freeze_fold acc l1) l2.
Proof. unfold freeze_fold. now rewrite map_app, fold_left_app. Qed.

End FreezeFacts.

Section Freeze.
Import PyStr FreezeFacts.
Local Open Scope list_scope.

(** X2.  Reading back a listing ([load_packages], the comprehension over
    the lines of [pip freeze]): for packages with distinct names, whose
    names and versions hold no equals sign, the lines [name==version]
    are parsed to exactly these packages with these versions, in the
    order of the lines. *)
Theorem freeze_dict_reads_back_pinned_packages (d : CP.dict string) :
  NoDup (CP.keys d) ->
  Forall pinned d ->
  freeze_dict (map freeze_line d) = d.
Proof.
  intros Hnd Hp. exact (freeze_fold_pinned d Hp [] Hnd).
Qed.

(** X3.  A line of the listing that does not have the form
    [name==version] is ignored ([load_packages]: "just ignore local
    packages for now"): a line without an equals sign, such as a path,
    and a line with two separators, leave the result as it would be
    without them. *)
Theorem freeze_dict_ignores_other_lines (before after : list string) (line a b c : string) :
  contains_char "=" line = false ->
  contains_char "=" a = false -> contains_char "=" b = false ->
  contains_char "=" c = false ->
  freeze_dict (before ++ line :: after) = freeze_dict (before ++ after)
  /\ freeze_dict (before ++ (a ++ "==" ++ b ++ "==" ++ c)%string :: after)
     = freeze_dict (before ++ after).
Proof.
  intros Hl Ha Hb Hc.
  change freeze_dict with (freeze_fold []).
  rewrite !freeze_fold_app.
  set (acc := freeze_fold [] before).
  split; unfold freeze_fold; cbn [map fold_left].
  - now rewrite (split_eqeq_plain line Hl).
  - assert (E : split_eqeq (a ++ "==" ++ b ++ "==" ++ c)%string = [a; b; c]).
    { clear - Ha Hb Hc. induction a as [|x a IH].
      - change (split_eqeq ("" ++ "==" ++ b ++ "==" ++ c)%string)
          with ("" :: split_eqeq (b ++ "==" ++ c)%string).
        now rewrite (split_eqeq_line b c Hb Hc).
      - cbn [contains_char] in Ha. apply orb_false_iff in Ha. destruct Ha as [Hx Ha].
        assert (Hx' : Ascii.eqb x "=" = false) by (rewrite Ascii.eqb_sym; exact Hx).
        change (String x a ++ "==" ++ b ++ "==" ++ c)%string
          with (String x (a ++ "==" ++ b ++ "==" ++ c)).
        cbn [split_eqeq]. rewrite (IH Ha), Hx'. cbn [andb].
        now destruct (a ++ "==" ++ b ++ "==" ++ c)%string. }
    now rewrite E.
Qed.

End Freeze.

Lemma freeze_dict_reads_back_pinned_packages_witness :
  freeze_dict (map freeze_line [("robotpy", "2024.3.2"); ("foo", "1.0")])
  = [("robotpy", "2024.3.2"); ("foo", "1.0")].
Proof.
  apply freeze_dict_reads_back_pinned_packages.
  - repeat constructor; simpl; intuition discriminate.
  - repeat constructor.
Defined.

Lemma freeze_dict_ignores_other_lines_witness :
  freeze_dict (["robotpy==2024.3.2"] ++ "-e /home/team/lib" :: ["foo==1.0"])
  = freeze_dict (["robotpy==2024.3.2"] ++ ["foo==1.0"])
  /\ freeze_dict (["robotpy==2024.3.2"] ++ ("a" ++ "==" ++ "b" ++ "==" ++ "c") :: ["foo==1.0"])
     = freeze_dict (["robotpy==2024.3.2"] ++ ["foo==1.0"]).
Proof.
  apply freeze_dict_ignores_other_lines; reflexivity.
Defined.

(* ===================================================================== *)
(** ** Frames: relations that every step of the script preserves *)
(* ===================================================================== *)

Section Frame.
Variable R : World -> World -> Prop.
Variable Qw : World -> event -> Prop.
Hypothesis R_refl : forall w, R w w.
Hypothesis R_trans : forall w1 w2 w3, R w1 w2 -> R w2 w3 -> R w1 w3.
Hypothesis R_event : forall w e, Qw w e -> R w (with_trace (trace w ++ [e]) w).
Hypothesis R_config : forall w c, R w (with_config c w).
Hypothesis R_packages : forall w p, R w (with_packages p w).
Hypothesis R_cwd : forall w d, R w (with_cwd d w).
Hypothesis R_files : forall w f, R w (with_files f w).
Local Open Scope list_scope.

Local Abbreviation fr := (ensures R).

Lemma fr_ret {A} (a : A) : fr (ret a).
Proof. now apply ensures_ret. Qed.

Lemma fr_sys_exit {A} (code : Z) : fr (@sys_exit A code).
Proof. now apply ensures_sys_exit. Qed.

Lemma fr_raise {A} (e : exn) : fr (@raise A e).
Proof. now apply ensures_raise. Qed.

Lemma fr_bind {A B} (m : M A) (k : A -> M B) :
  fr m -> (forall a, fr (k a)) -> fr (bind m k).
Proof. intros. eapply ensures_bind; eauto. Qed.

Lemma fr_for_each {A} (body : A -> M unit) (xs : list A) :
  (forall x, In x xs -> fr (body x)) -> fr (for_each body xs).
Proof. intros. eapply ensures_for_each; eauto. Qed.

Lemma fr_filter_m {A} (cond : A -> M bool) (xs : list A) :
  (forall x, In x xs -> fr (cond x)) -> fr (filter_m cond xs).
Proof. intros. eapply ensures_filter_m; eauto. Qed.

(** One run, continued by a piece that may rely on how the run ended. *)
Lemma fr_step {A B} (m : M A) (k : A -> M B) (w : World) :
  outcome_rel R w (m w) ->
  (forall a w', m w = Done a w' -> outcome_rel R w' (k a w')) ->
  outcome_rel R w (bind m k w).
Proof.
  intros Hm Hk. unfold bind. destruct (m w) as [a w'| | |]; cbn in *; auto.
  specialize (Hk a w' eq_refl). destruct (k a w'); cbn in *; eauto.
Qed.

Lemma fr_query {A} (f : World -> A) : fr (fun w => Done (f w) w).
Proof. intros w. apply R_refl. Qed.

Lemma fr_log (e : event) : (forall w, Qw w e) -> fr (log e).
Proof. intros He w. apply R_event, He. Qed.

Lemma fr_chdir (d : path) : fr (chdir d).
Proof. intros w. apply R_cwd. Qed.

Lemma fr_config_obj : fr config_obj.
Proof. intros w. unfold config_obj. destruct (config w); apply R_refl. Qed.

Lemma fr_config_update (f : CP.t -> CP.t) : fr (config_update f).
Proof.
  apply fr_bind; [apply fr_config_obj | intros c w]. apply R_config.
Qed.

Lemma fr_cfg_contains (s : string) : fr (cfg_contains s).
Proof. apply fr_bind; [apply fr_config_obj | intros; apply fr_ret]. Qed.

Lemma fr_cfg_getitem (s : string) : fr (cfg_getitem s).
Proof.
  apply fr_bind; [apply fr_config_obj | intros c].
  destruct (CP.has_section c s); [apply fr_ret | apply fr_raise].
Qed.

Lemma fr_cfg_setitem (s : string) (value : list (string * string)) :
  fr (cfg_setitem s value).
Proof. apply fr_config_update. Qed.

Lemma fr_cfg_delitem (s : string) : fr (cfg_delitem s).
Proof.
  apply fr_bind; [apply fr_config_obj | intros c].
  destruct (CP.has_section c s); [apply fr_config_update | apply fr_raise].
Qed.

Lemma fr_proxy_contains (p n : string) : fr (proxy_contains p n).
Proof. apply fr_bind; [apply fr_config_obj | intros; apply fr_ret]. Qed.

Lemma fr_proxy_getitem (p n : string) : fr (proxy_getitem p n).
Proof.
  apply fr_bind; [apply fr_config_obj | intros c].
  destruct (CP.get c p n); [apply fr_ret | apply fr_raise].
Qed.

Lemma fr_proxy_setitem (p n v : string) : fr (proxy_setitem p n v).
Proof. apply fr_config_update. Qed.

Lemma fr_proxy_delitem (p n : string) : fr (proxy_delitem p n).
Proof.
  apply fr_bind; [apply fr_config_obj | intros c].
  destruct (CP.has_option c p n); [apply fr_config_update | apply fr_raise].
Qed.

Lemma fr_proxy_len (p : string) : fr (proxy_len p).
Proof. apply fr_bind; [apply fr_config_obj | intros; apply fr_ret]. Qed.

Lemma fr_proxy_iter (p : string) : fr (proxy_iter p).
Proof. apply fr_bind; [apply fr_config_obj | intros; apply fr_ret]. Qed.

Lemma fr_proxy_items (p : string) : fr (proxy_items p).
Proof. apply fr_bind; [apply fr_config_obj | intros; apply fr_ret]. Qed.

Lemma fr_dict_getitem (d : CP.dict string) (k : string) : fr (dict_getitem d k).
Proof. unfold dict_getitem. destruct (CP.lookup k d); [apply fr_ret | apply fr_raise]. Qed.

Lemma fr_global_packages_getitem (key : string) : fr (global_packages_getitem key).
Proof.
  intros w. unfold global_packages_getitem. destruct (packages w) as [p|].
  - apply fr_dict_getitem.
  - apply R_refl.
Qed.

Lemma fr_tracked (pkg : string) : fr (tracked pkg).
Proof. apply fr_bind; [apply fr_cfg_getitem | intros; apply fr_proxy_contains]. Qed.

Lemma fr_needs_deploy (deployed pkgs pkg : string) : fr (needs_deploy deployed pkgs pkg).
Proof.
  apply fr_bind; [apply fr_proxy_contains | intros b].
  destruct b; cbn [negb]; [|apply fr_ret].
  apply fr_bind; [apply fr_proxy_getitem | intros old].
  apply fr_bind; [apply fr_proxy_getitem | intros new]. apply fr_ret.
Qed.

Lemma fr_register_all (names : list string) : forall f, fr (register_all f names).
Proof.
  induction names as [|n names IH]; intros f; cbn [register_all].
  - apply fr_ret.
  - apply fr_bind; [|intros f'; apply IH].
    unfold register. destruct (PyStr.mem n (registered f)); [apply fr_raise | apply fr_ret].
Qed.

Lemma fr_load_config : (forall w, Qw w (EvRead (cwd w))) -> fr load_config.
Proof.
  intros Hread w. unfold load_config. destruct (config w); cbn.
  - apply R_refl.
  - eapply R_trans; [apply R_event, Hread | apply R_config].
Qed.

Lemma fr_write_file (name content : string) :
  (forall w f s, Qw w (EvWriteFile f s)) -> fr (write_file name content).
Proof.
  intros Hw w. unfold write_file. cbn.
  eapply R_trans; [apply R_event, Hw | apply R_files].
Qed.

Section WithHost.
Variable host : Host.
Hypothesis Q_msg : forall w m b,
  ((verbose_level w <? 1)%Z && negb b) || (verbose_level w <? 0)%Z = false ->
  Qw w (EvPrint b (argv0 host ++ ": " ++ m)).
Hypothesis Q_child : forall w args,
  Qw w (EvRun (sys_executable host :: args) (verbose_level w <=? 1)%Z).
Hypothesis Q_freeze : forall w, Qw w (EvRun (pip_freeze host) true).
Hypothesis Q_git : forall w, Qw w (EvRun ["git"; "init"] false).
Hypothesis Q_read : forall w, Qw w (EvRead (cwd w)).
Hypothesis Q_write_file : forall w f s, Qw w (EvWriteFile f s).
Hypothesis Q_makedirs : forall w d, Qw w (EvMakedirs d).

Lemma fr_msg (m : string) (b : bool) : fr (msg host m b).
Proof.
  intros w. unfold msg.
  destruct (((verbose_level w <? 1)%Z && negb b) || (verbose_level w <? 0)%Z) eqn:E.
  - apply R_refl.
  - apply R_event. now apply Q_msg.
Qed.

Lemma fr_warn (m : string) : fr (warn host m).
Proof. apply fr_msg. Qed.

Lemma fr_error (m : string) : fr (error host m).
Proof. apply fr_msg. Qed.

Lemma fr_fatal (m : string) : fr (fatal host m).
Proof. apply fr_bind; [apply fr_msg | intros; apply fr_sys_exit]. Qed.

Lemma fr_expect_result (r : CompletedProcess) (m : string) (absolute : bool) :
  fr (expect_result host r m absolute).
Proof.
  unfold expect_result. destruct (negb _); [|apply fr_ret].
  destruct absolute; [apply fr_fatal | apply fr_error].
Qed.

Lemma fr_python (args : list string) : fr (python host args None).
Proof. intros w. apply R_event, Q_child. Qed.

Lemma fr_rpinst (args : list string) : fr (rpinst host args).
Proof. apply fr_python. Qed.

Lemma fr_load_packages (refresh : bool) : fr (load_packages host refresh).
Proof.
  assert (Hre : fr (reload_packages host)).
  { apply fr_bind; [intros w; apply R_event, Q_freeze | intros res].
    apply fr_bind; [destruct (negb _); [apply fr_fatal | apply fr_ret] | intros _ w].
    apply R_packages. }
  intros w. unfold load_packages. destruct (packages w).
  - destruct refresh; [apply Hre | apply R_refl].
  - apply Hre.
Qed.

Lemma fr_move_to_robotpy_dir : fr (move_to_robotpy_dir host).
Proof.
  intros w. rewrite move_to_robotpy_dir_searches. unfold search_result.
  destruct (find _ _) as [d|].
  - apply R_cwd.
  - pose proof (fr_fatal not_in_project (with_cwd [] w)) as H.
    destruct (fatal host not_in_project (with_cwd [] w)); cbn in *; try contradiction;
      (eapply R_trans; [apply (R_cwd w []) | exact H]).
Qed.

(** One step through a piece of the script. *)
Ltac frame_step :=
  lazymatch goal with
  | |- forall _, _ => intro
  | |- ensures _ (bind _ _) => apply fr_bind
  | |- ensures _ (ret _) => apply fr_ret
  | |- ensures _ (raise _) => apply fr_raise
  | |- ensures _ (sys_exit _) => apply fr_sys_exit
  | |- ensures _ (msg _ _ _) => apply fr_msg
  | |- ensures _ (warn _ _) => apply fr_warn
  | |- ensures _ (error _ _) => apply fr_error
  | |- ensures _ (fatal _ _) => apply fr_fatal
  | |- ensures _ (expect_result _ _ _ _) => apply fr_expect_result
  | |- ensures _ (python _ _ None) => apply fr_python
  | |- ensures _ (rpinst _ _) => apply fr_rpinst
  | |- ensures _ (load_packages _ _) => apply fr_load_packages
  | |- ensures _ (move_to_robotpy_dir _) => apply fr_move_to_robotpy_dir
  | |- ensures _ load_config => apply fr_load_config; apply Q_read
  | |- ensures _ config_obj => apply fr_config_obj
  | |- ensures _ (config_update _) => apply fr_config_update
  | |- ensures _ (cfg_contains _) => apply fr_cfg_contains
  | |- ensures _ (cfg_getitem _) => apply fr_cfg_getitem
  | |- ensures _ (cfg_setitem _ _) => apply fr_cfg_setitem
  | |- ensures _ (cfg_delitem _) => apply fr_cfg_delitem
  | |- ensures _ (proxy_contains _ _) => apply fr_proxy_contains
  | |- ensures _ (proxy_getitem _ _) => apply fr_proxy_getitem
  | |- ensures _ (proxy_setitem _ _ _) => apply fr_proxy_setitem
  | |- ensures _ (proxy_delitem _ _) => apply fr_proxy_delitem
  | |- ensures _ (proxy_len _) => apply fr_proxy_len
  | |- ensures _ (proxy_iter _) => apply fr_proxy_iter
  | |- ensures _ (proxy_items _) => apply fr_proxy_items
  | |- ensures _ (dict_getitem _ _) => apply fr_dict_getitem
  | |- ensures _ (global_packages_getitem _) => apply fr_global_packages_getitem
  | |- ensures _ (tracked _) => apply fr_tracked
  | |- ensures _ (needs_deploy _ _ _) => apply fr_needs_deploy
  | |- ensures _ os_isfile_marker => apply fr_query
  | |- ensures _ (os_isfile _) => apply fr_query
  | |- ensures _ (os_exists_not_dir _) => apply fr_query
  | |- ensures _ getcwd => apply fr_query
  | |- ensures _ (chdir _) => apply fr_chdir
  | |- ensures _ (write_file _ _) => apply fr_write_file; apply Q_write_file
  | |- ensures _ (for_each _ _) => apply fr_for_each
  | |- ensures _ (filter_m _ _) => apply fr_filter_m
  | |- ensures _ (if ?b then _ else _) => destruct b
  | |- ensures _ (match ?x with _ => _ end) => destruct x
  end.

Lemma fr_install_package (pkgs : list string) (download : bool) :
  fr (install_package host pkgs download).
Proof. unfold install_package, install_one, record_if_newer. repeat frame_step. Qed.

Lemma fr_install (args : install_args) : fr (install host args).
Proof. unfold install. apply fr_bind; [apply fr_move_to_robotpy_dir | intros _]. apply fr_install_package. Qed.

Lemma fr_update (args : update_args) : fr (update host args).
Proof.
  unfold update, update_selection.
  apply fr_bind; [apply fr_move_to_robotpy_dir | intros _].
  apply fr_bind; [apply fr_load_config; apply Q_read | intros _].
  apply fr_bind; [repeat frame_step | intros pkgs; apply fr_install_package].
Qed.

Lemma fr_remove (args : remove_args) : fr (remove host args).
Proof. unfold remove, remove_one. repeat frame_step. Qed.

Lemma fr_deploy (args : deploy_args) : fr (deploy host args).
Proof. unfold deploy, deploy_libraries, deploy_robot_code. repeat frame_step. Qed.

Lemma fr_configure (args : config_args) :
  config_clear args = true \/ config_value args <> None ->
  fr (configure host args).
Proof.
  intros Hq. unfold configure. cbv zeta.
  apply fr_bind; [apply fr_move_to_robotpy_dir | intros _].
  apply fr_bind; [apply fr_load_config; apply Q_read | intros _].
  destruct (negb _); [repeat frame_step|].
  destruct (PyStr.mem _ _); [repeat frame_step|].
  destruct (config_clear args); [repeat frame_step|].
  destruct (config_value args) as [value|]; [repeat frame_step|].
  destruct Hq as [Hq|Hq]; [discriminate | now elim Hq].
Qed.

(** [configure] whatever is asked, when the printed value is allowed. *)
Lemma fr_configure_any (args : config_args) :
  (forall w value, Qw w (EvPrint false value)) -> fr (configure host args).
Proof.
  intros Hprint. unfold configure. cbv zeta.
  apply fr_bind; [apply fr_move_to_robotpy_dir | intros _].
  apply fr_bind; [apply fr_load_config; apply Q_read | intros _].
  destruct (negb _); [repeat frame_step|].
  destruct (PyStr.mem _ _); [repeat frame_step|].
  destruct (config_clear args); [repeat frame_step|].
  destruct (config_value args) as [value|]; [repeat frame_step|].
  repeat frame_step. apply fr_log. intros w. apply Hprint.
Qed.

(** Every built-in handler but [initialize]. *)
Lemma fr_run_handler (args : builtin_args) :
  (forall w value, Qw w (EvPrint false value)) ->
  match args with Initialize _ => False | _ => True end ->
  fr (run_builtin host args).
Proof.
  intros Hprint Hargs. destruct args as [a|a|a|a|a|a]; cbn [run_builtin] in *.
  - contradiction.
  - apply fr_install.
  - apply fr_update.
  - apply fr_remove.
  - apply fr_deploy.
  - now apply fr_configure_any.
Qed.

(** [initialize_project] is its set-up of the configuration followed by
    [initialize_finish]. *)
Lemma initialize_project_finish (target : path) (args : init_args) :
  initialize_project host target args =
    (load_config ;;
     marker <- os_isfile_marker ;;
     (if marker then
        msg host (path_str (target ++ [".robotpy"]) ++
             " already exists. If you want to reset, delete the file an re-run `robotpy init`")
            false
      else
        version <- global_packages_getitem "robotpy" ;;
        cfg_setitem "requirements" [("robotpy", version)]) ;;
     cfg_setitem "execution" [("main", init_main args)] ;;
     (match init_host args with
      | Some hostname =>
          write_file ".deploy_cfg" (auth_text hostname) ;;
          write_file ".installer_cfg" (auth_text hostname) ;;
          cfg_setitem "auth" [("hostname", hostname)]
      | None => ret tt
      end) ;;
     initialize_finish host args).
Proof. reflexivity. Qed.

Lemma fr_initialize_finish (args : init_args) :
  fr (scaffold_entry_file host args) -> fr (initialize_finish host args).
Proof.
  intros Hscaffold. unfold initialize_finish.
  apply fr_bind; [destruct (negb (init_bare args)); [exact Hscaffold | apply fr_ret] | intros _].
  apply fr_bind.
  { destruct (init_git args); [|apply fr_ret].
    apply fr_bind; [intros w; apply R_event, Q_git | intros; apply fr_ret]. }
  intros _. unfold initialize_downloads. repeat frame_step. apply fr_install_package.
Qed.

Lemma fr_initialize_project (target : path) (args : init_args) :
  (forall hostname,
     init_host args = Some hostname ->
     fr (write_file ".deploy_cfg" (auth_text hostname) ;;
         write_file ".installer_cfg" (auth_text hostname))) ->
  fr (scaffold_entry_file host args) ->
  fr (initialize_project host target args).
Proof.
  intros Hcred Hscaffold. rewrite initialize_project_finish.
  apply fr_bind; [apply fr_load_config; apply Q_read | intros _].
  apply fr_bind; [apply fr_query | intros marker].
  apply fr_bind; [destruct marker; repeat frame_step | intros _].
  apply fr_bind; [apply fr_cfg_setitem | intros _].
  apply fr_bind; [|intros _; now apply fr_initialize_finish].
  destruct (init_host args) as [hostname|]; [|apply fr_ret].
  specialize (Hcred hostname eq_refl). intros w.
  rewrite <- (bind_bind (write_file ".deploy_cfg" (auth_text hostname))
                (fun _ => write_file ".installer_cfg" (auth_text hostname))
                (fun _ => cfg_setitem "auth" [("hostname", hostname)])).
  apply fr_bind; [exact Hcred | intros _; apply fr_cfg_setitem].
Qed.

Lemma fr_enter_target (args : init_args) : fr (enter_target host args).
Proof.
  unfold enter_target.
  apply fr_bind; [|intros target; repeat frame_step].
  destruct (init_directory args) as [d|]; [|apply fr_query].
  apply fr_bind; [apply fr_query | intros not_dir].
  apply fr_bind; [destruct not_dir; [apply fr_fatal | apply fr_ret] | intros _].
  apply fr_bind; [apply fr_log; intros w; apply Q_makedirs | intros _; apply fr_ret].
Qed.

Lemma fr_initialize (args : init_args) : fr (initialize host args).
Proof.
  unfold initialize.
  apply fr_bind; [apply fr_enter_target | intros target].
  apply fr_initialize_project.
  - intros hostname _. repeat frame_step.
  - unfold scaffold_entry_file. repeat frame_step.
Qed.

(** Every built-in handler but the plain [config FIELD] query. *)
Lemma fr_run_builtin (args : builtin_args) :
  not_a_query args -> fr (run_builtin host args).
Proof.
  intros Hq. destruct args as [a|a|a|a|a|a]; cbn [run_builtin not_a_query] in *.
  - apply fr_initialize.
  - apply fr_install.
  - apply fr_update.
  - apply fr_remove.
  - apply fr_deploy.
  - now apply fr_configure.
Qed.

End WithHost.
End Frame.

(* ===================================================================== *)
(** ** Verbosity: messages and the output of children *)
(* ===================================================================== *)

Section Verbosity.
Variable host : Host.
Local Open Scope list_scope.

Lemma only_events_refl (Q : event -> Prop) (w : World) : only_events Q w w.
Proof. exists []. split; [now rewrite app_nil_r | constructor]. Qed.

Lemma only_events_same (Q : event -> Prop) (w w' : World) :
  trace w' = trace w -> only_events Q w w'.
Proof. intros H. exists []. split; [now rewrite app_nil_r | constructor]. Qed.

Lemma only_events_trans (Q : event -> Prop) (w1 w2 w3 : World) :
  only_events Q w1 w2 -> only_events Q w2 w3 -> only_events Q w1 w3.
Proof.
  intros [n1 [H1 Q1]] [n2 [H2 Q2]]. exists (n1 ++ n2). split.
  - rewrite H2, H1. now rewrite app_assoc.
  - apply Forall_app. now split.
Qed.

Lemma only_events_event (Q : event -> Prop) (w : World) (e : event) :
  Q e -> only_events Q w (with_trace (trace w ++ [e]) w).
Proof. intros He. exists [e]. split; [reflexivity | now constructor]. Qed.

Lemma respects_verbosity_refl (w : World) : respects_verbosity host w w.
Proof. split; [reflexivity | apply only_events_refl]. Qed.

Lemma respects_verbosity_same (w w' : World) :
  verbose_level w' = verbose_level w -> trace w' = trace w ->
  respects_verbosity host w w'.
Proof. intros Hv Ht. split; [exact Hv | now apply only_events_same]. Qed.

Lemma respects_verbosity_trans (w1 w2 w3 : World) :
  respects_verbosity host w1 w2 -> respects_verbosity host w2 w3 ->
  respects_verbosity host w1 w3.
Proof.
  intros [V1 H1] [V2 H2]. split; [congruence|].
  rewrite V1 in H2. exact (only_events_trans _ _ _ _ H1 H2).
Qed.

Lemma msg_obeys (w : World) (m : string) (b : bool) :
  ((verbose_level w <? 1)%Z && negb b) || (verbose_level w <? 0)%Z = false ->
  obeys_verbosity host (verbose_level w) (EvPrint b (argv0 host ++ ": " ++ m)).
Proof.
  intros H. apply orb_false_iff in H. destruct H as [H1 H0].
  apply Z.ltb_ge in H0. split; [|exact I]. split; [exact H0|].
  intros ->. cbn in H1. rewrite andb_true_r in H1. apply Z.ltb_ge in H1. exact H1.
Qed.

(** Every built-in handler but the plain [config FIELD] query leaves the
    verbosity alone and obeys it in all it prints and all it starts. *)
Lemma run_builtin_respects_verbosity (args : builtin_args) :
  not_a_query args -> ensures (respects_verbosity host) (run_builtin host args).
Proof.
  apply (fr_run_builtin (respects_verbosity host)
           (fun w e => obeys_verbosity host (verbose_level w) e)).
  - apply respects_verbosity_refl.
  - apply respects_verbosity_trans.
  - intros w e He. split; [reflexivity | now apply only_events_event].
  - intros w c. now apply respects_verbosity_same.
  - intros w p. now apply respects_verbosity_same.
  - intros w d. now apply respects_verbosity_same.
  - intros w f. now apply respects_verbosity_same.
  - apply msg_obeys.
  - intros w args0. split; [exact I|]. right. right. now exists args0.
  - intros w. split; [exact I|]. right. left. now split.
  - intros w. split; [exact I|]. left. now split.
  - intros w. now split.
  - intros w f s. now split.
  - intros w d. now split.
Qed.

(** A whole run of a built-in sub-command adds only events that satisfy
    [Q], provided reading and writing the marker file do and the handler,
    started at the verbosity of the command line, adds only such events. *)
Lemma main_builtin_only_events (Q : event -> Prop) (verbose : Z) (args : builtin_args)
    (w : World) :
  (forall d, Q (EvRead d)) ->
  (forall d c, Q (EvWriteConfig d c)) ->
  (forall w1, verbose_level w1 = verbose ->
              outcome_rel (only_events Q) w1 (run_builtin host args w1)) ->
  outcome_rel (only_events Q) w (main host (Builtin verbose args) w).
Proof.
  intros Qread Qwrite Hrun.
  pose proof (only_events_refl Q) as Rr.
  pose proof (only_events_trans Q) as Rt.
  pose proof (only_events_event Q) as Re.
  assert (Rc : forall w0 c, only_events Q w0 (with_config c w0))
    by (intros; now apply only_events_same).
  unfold main.
  apply (fr_step _ Rt).
  { apply (fr_load_config (only_events Q) (fun _ => Q)); auto. }
  intros c0 w1 _.
  apply (fr_step _ Rt); [apply (fr_cfg_contains _ Rr Rt) | intros has w2 _].
  apply (fr_step _ Rt).
  { as_ensures. destruct has; [|apply (fr_ret _ Rr)].
    apply (fr_bind _ Rt); [apply (fr_cfg_getitem _ Rr Rt) | intros commands].
    apply (fr_bind _ Rt); [apply (fr_proxy_iter _ Rr Rt) | intros names].
    apply (fr_bind _ Rt); [apply (fr_register_all _ Rr Rt) | intros; apply (fr_ret _ Rr)]. }
  intros _ w3 _. apply (fr_step _ Rt); [now apply only_events_same | intros u w4 E4].
  apply (fr_step _ Rt).
  { apply Hrun.
    assert (E : w4 = with_verbose_level verbose w3)
      by (unfold set_verbose_level in E4; congruence).
    now rewrite E. }
  intros _ w5 _. unfold write_config.
  apply (fr_step _ Rt); [apply (fr_config_obj _ Rr) | intros c w6 _].
  cbn. apply Re. apply Qwrite.
Qed.

Lemma main_builtin_obeys_verbosity (verbose : Z) (args : builtin_args) (w : World) :
  not_a_query args ->
  outcome_rel (only_events (obeys_verbosity host verbose)) w
    (main host (Builtin verbose args) w).
Proof.
  intros Hq. apply main_builtin_only_events.
  - intros d. now split.
  - intros d c. now split.
  - intros w1 Hv. pose proof (run_builtin_respects_verbosity args Hq w1) as H.
    destruct (run_builtin host args w1); cbn in *; try contradiction;
      destruct H as [_ H]; rewrite Hv in H; exact H.
Qed.

(** X4.  The verbosity chosen on the command line governs every message
    of a run ([msg], [warn], [error], [fatal]): in a run of a built-in
    sub-command (other than the query [config FIELD], whose answer is
    printed with [print]) nothing at all is printed at a verbosity below
    0, and at a verbosity below 1 nothing is printed to the output
    stream; this holds however the run ends. *)
Theorem messages_follow_the_verbosity_flag
    (verbose : Z) (args : builtin_args) (w : World) :
  not_a_query args ->
  exists w' new,
    final_world (main host (Builtin verbose args) w) = Some w'
    /\ trace w' = trace w ++ new
    /\ Forall (message_allowed verbose) new
    /\ ((verbose < 0)%Z -> forall b line, ~ In (EvPrint b line) new)
    /\ ((verbose < 1)%Z -> forall line, ~ In (EvPrint false line) new).
Proof.
  intros Hq. pose proof (main_builtin_obeys_verbosity verbose args w Hq) as H.
  assert (Hall : forall new, Forall (obeys_verbosity host verbose) new ->
                 Forall (message_allowed verbose) new
                 /\ ((verbose < 0)%Z -> forall b line, ~ In (EvPrint b line) new)
                 /\ ((verbose < 1)%Z -> forall line, ~ In (EvPrint false line) new)).
  { intros new Hn. rewrite Forall_forall in Hn. split; [|split].
    - apply Forall_forall. intros e He. now destruct (Hn e He).
    - intros Hv b line Hin. destruct (Hn _ Hin) as [[H0 _] _]. lia.
    - intros Hv line Hin. destruct (Hn _ Hin) as [[_ H1] _]. specialize (H1 eq_refl). lia. }
  destruct (main host (Builtin verbose args) w) as [[] w'|code w'|e w'|];
    cbn in H; try contradiction;
    destruct H as [new [Ht Hn]]; exists w', new;
    (split; [reflexivity|]); (split; [exact Ht|]); now apply Hall.
Qed.

(** X5.  The verbosity chosen on the command line decides whether the
    output of children is captured ([python], [rpinst]): in a run of a
    built-in sub-command every child is either [git init], whose output
    is never captured, or [pip freeze], whose output always is, or a
    command of the interpreter that runs the script, captured exactly
    when the verbosity is at most 1. *)
Theorem children_are_captured_as_verbosity_says
    (verbose : Z) (args : builtin_args) (w : World) :
  not_a_query args ->
  exists w' new,
    final_world (main host (Builtin verbose args) w) = Some w'
    /\ trace w' = trace w ++ new
    /\ Forall (capture_allowed host verbose) new.
Proof.
  intros Hq. pose proof (main_builtin_obeys_verbosity verbose args w Hq) as H.
  destruct (main host (Builtin verbose args) w) as [[] w'|code w'|e w'|];
    cbn in H; try contradiction;
    destruct H as [new [Ht Hn]]; exists w', new;
    (split; [reflexivity|]); (split; [exact Ht|]);
    apply Forall_forall; intros ev Hev; rewrite Forall_forall in Hn;
    now destruct (Hn ev Hev).
Qed.

End Verbosity.

Lemma messages_follow_the_verbosity_flag_witness :
  let w := fresh_process ["home"; "team"] [(["home"; "team"], small_project)] in
  let args := Install {| install_download := true; install_packages := ["foo"] |} in
  exists w' new,
    final_world (main offline_host (Builtin (-1) args) w) = Some w'
    /\ trace w' = (trace w ++ new)%list
    /\ Forall (message_allowed (-1)) new
    /\ ((-1 < 0)%Z -> forall b line, ~ In (EvPrint b line) new)
    /\ ((-1 < 1)%Z -> forall line, ~ In (EvPrint false line) new).
Proof.
  intros w args.
  apply (messages_follow_the_verbosity_flag offline_host (-1) args w).
  exact I.
Defined.

Lemma children_are_captured_as_verbosity_says_witness :
  let w := fresh_process ["home"; "team"] [(["home"; "team"], small_project)] in
  let args := Install {| install_download := true; install_packages := ["foo"] |} in
  exists w' new,
    final_world (main demo_host (Builtin 2 args) w) = Some w'
    /\ trace w' = (trace w ++ new)%list
    /\ Forall (capture_allowed demo_host 2) new.
Proof.
  intros w args.
  apply (children_are_captured_as_verbosity_says demo_host 2 args w).
  exact I.
Defined.

(* ===================================================================== *)
(** ** [install]: what happens to one package *)
(* ===================================================================== *)

Section InstallOutcomes.
Import DictFacts ConfigFacts.
Variable host : Host.
Local Open Scope list_scope.

Lemma children_of_app (t1 t2 : list event) :
  children_of (t1 ++ t2) = children_of t1 ++ children_of t2.
Proof. apply flat_map_app. Qed.

Lemma children_of_msg_events (m : string) (b : bool) (w : World) :
  children_of (msg_events host m b w) = [].
Proof. unfold msg_events. now destruct (_ || _). Qed.

Lemma upgrades_msg_events (m : string) (b : bool) (w : World) :
  upgrades (msg_events host m b w) = [].
Proof. unfold msg_events. now destruct (_ || _). Qed.

(** The locator either enters a directory or exits with status 1 after
    its message. *)
Lemma move_to_robotpy_dir_cases (w : World) :
  (exists d, move_to_robotpy_dir host w = Done tt (with_cwd d w)) \/
  move_to_robotpy_dir host w =
    Exit 1%Z (with_trace (trace w ++ msg_events host ("fatal: " ++ not_in_project) true w)
                (with_cwd [] w)).
Proof.
  rewrite move_to_robotpy_dir_searches. unfold search_result.
  destruct (find _ _) as [d|]; [left; now exists d | right].
  now rewrite fatal_run.
Qed.

(** The first half of the loop body, up to the result of the upgrade. *)
Lemma install_one_upgrade (download : bool) (pkg : string) (w : World) (ok : bool) :
  (forall t, (returncode (child host t (pip_upgrade host pkg)) =? 0)%Z = ok) ->
  exists new,
    children_of new = [pip_upgrade host pkg] /\ upgrades new = [pkg] /\
    install_one host download pkg w =
      (if negb ok then ret tt
       else if download then
         msg host ("Downloading package '" ++ pkg ++ "' for robot installations") false ;;
         res <- rpinst host ["download"; pkg] ;;
         expect_result host res "Downloading package for remote use failed unexpectedly" false ;;
         if negb (returncode res =? 0)%Z then ret tt
         else
           packages <- load_packages host true ;;
           record_if_newer packages pkg
       else ret tt) (with_trace (trace w ++ new) w).
Proof.
  intros Hpip. unfold install_one. run. run.
  change (sys_executable host :: ["-m"; "pip"; "install"; "--upgrade"; pkg])
    with (pip_upgrade host pkg).
  rewrite ?bind_bind.
  match goal with
  | |- context [bind (expect_result host ?r ?m false) _ ?w0] =>
      set (res := r); set (w1 := w0)
  end.
  assert (Hres : (returncode res =? 0)%Z = ok) by apply Hpip.
  destruct ok.
  - apply Z.eqb_eq in Hres.
    erewrite bind_done by (apply expect_result_ok; exact Hres).
    rewrite Hres. cbn [Z.eqb negb].
    eexists. split; [|split; [|unfold w1; rewrite with_trace_twice; reflexivity]].
    + rewrite children_of_app, children_of_msg_events. reflexivity.
    + rewrite upgrades_app, upgrades_msg_events. reflexivity.
  - assert (Hne : returncode res <> 0%Z) by now apply Z.eqb_neq.
    erewrite bind_done by (apply expect_result_error; exact Hne).
    rewrite Hres. cbn [negb]. unfold ret.
    eexists. split; [|split; [|unfold w1; rewrite !with_trace_twice; reflexivity]].
    + rewrite !children_of_app, !children_of_msg_events. reflexivity.
    + rewrite !upgrades_app, !upgrades_msg_events. reflexivity.
Qed.

(** X6.  A package that the package manager fails to upgrade is reported
    and skipped ([install_package], the first [continue]): the loop body
    ends normally, so the loop goes on with the next package; the only
    child started for the package is the upgrade itself (no pre-download
    for the robot, no listing), and nothing but the trace has changed:
    the configuration and the cached listing are as before. *)
Theorem failed_upgrade_skips_the_package (download : bool) (pkg : string) (w : World) :
  (forall t, returncode (child host t (pip_upgrade host pkg)) <> 0%Z) ->
  exists new,
    install_one host download pkg w = Done tt (with_trace (trace w ++ new) w)
    /\ children_of new = [pip_upgrade host pkg].
Proof.
  intros Hpip.
  destruct (install_one_upgrade download pkg w false) as [new [Hc [_ Hrun]]].
  - intros t. apply Z.eqb_neq. apply Hpip.
  - exists new. split; [exact Hrun | exact Hc].
Qed.

(** Without pre-download the loop body is the upgrade and its report. *)
Lemma install_one_without_download (pkg : string) (w : World) :
  exists new,
    install_one host false pkg w = Done tt (with_trace (trace w ++ new) w)
    /\ children_of new = [pip_upgrade host pkg].
Proof.
  unfold install_one. run. run. rewrite ?bind_bind.
  match goal with
  | |- context [bind (expect_result host ?r ?m false) _ ?w0] =>
      set (res := r); set (w1 := w0)
  end.
  destruct (returncode res =? 0)%Z eqn:Hres.
  - apply Z.eqb_eq in Hres.
    erewrite bind_done by (apply expect_result_ok; exact Hres).
    cbn [negb]. unfold ret.
    eexists. split; [unfold w1; rewrite with_trace_twice; reflexivity|].
    rewrite !children_of_app, !children_of_msg_events. reflexivity.
  - assert (Hne : returncode res <> 0%Z) by now apply Z.eqb_neq.
    erewrite bind_done by (apply expect_result_error; exact Hne).
    cbn [negb]. unfold ret.
    eexists. split; [unfold w1; rewrite !with_trace_twice; reflexivity|].
    rewrite !children_of_app, !children_of_msg_events. reflexivity.
Qed.

Lemma install_loop_without_download (pkgs : list string) :
  forall w,
  exists new,
    for_each (install_one host false) pkgs w = Done tt (with_trace (trace w ++ new) w)
    /\ children_of new = map (pip_upgrade host) pkgs.
Proof.
  induction pkgs as [|pkg pkgs IH]; intros w.
  - exists []. split; [cbn; now rewrite with_trace_nil | reflexivity].
  - cbn [for_each map].
    destruct (install_one_without_download pkg w) as [n1 [H1 C1]].
    rewrite (bind_done _ _ _ _ _ H1).
    destruct (IH (with_trace (trace w ++ n1) w)) as [n2 [H2 C2]].
    exists (n1 ++ n2). split.
    + rewrite H2. now rewrite with_trace_twice.
    + now rewrite children_of_app, C1, C2.
Qed.

(** X7.  [install --no-download], in a project: the handler completes
    whatever the package manager answers; the children it starts are
    exactly the upgrades of the requested packages, add-on shorthand
    expanded, in the order given (nothing is downloaded for the robot,
    no listing is taken); and apart from the working directory, which is
    the project root, and the trace nothing has changed: no version is
    recorded. *)
Theorem install_without_download_only_upgrades
    (w w1 : World) (c : CP.t) (names : list string) :
  move_to_robotpy_dir host w = Done tt w1 ->
  config w = Some c ->
  exists new,
    install host {| install_download := false; install_packages := names |} w
      = Done tt (with_trace (trace w1 ++ new) w1)
    /\ children_of new = map (pip_upgrade host) (expand_addons names).
Proof.
  intros Hmove Hcfg.
  destruct (move_to_robotpy_dir_done host _ _ Hmove) as [d [-> _]].
  set (w1 := with_cwd d w) in *.
  assert (Hcfg1 : config w1 = Some c) by exact Hcfg.
  unfold install. run. cbn [install_packages install_download].
  unfold install_package.
  destruct (length (expand_addons names) =? 0)%nat eqn:Hlen.
  - exists []. split; [unfold ret; now rewrite with_trace_nil|].
    apply Nat.eqb_eq in Hlen. apply length_zero_iff_nil in Hlen. now rewrite Hlen.
  - run. apply install_loop_without_download.
Qed.

(** The second half of the loop body, up to the result of the pre-download. *)
Lemma install_one_download (pkg : string) (w : World) (ok : bool) :
  (forall t, returncode (child host t (pip_upgrade host pkg)) = 0%Z) ->
  (forall t, (returncode (child host t (installer_download host pkg)) =? 0)%Z = ok) ->
  exists new,
    children_of new = [pip_upgrade host pkg; installer_download host pkg] /\
    install_one host true pkg w =
      (if negb ok then ret tt
       else packages <- load_packages host true ;; record_if_newer packages pkg)
      (with_trace (trace w ++ new) w).
Proof.
  intros Hpip Hdl.
  destruct (install_one_upgrade true pkg w true) as [n1 [C1 [_ H1]]].
  { intros t. apply Z.eqb_eq. apply Hpip. }
  rewrite H1. cbn [negb]. set (w1 := with_trace (trace w ++ n1) w).
  run. run.
  change (sys_executable host :: "-m" :: "robotpy_installer" :: ["download"; pkg])
    with (installer_download host pkg).
  rewrite ?bind_bind.
  match goal with
  | |- context [bind (expect_result host ?r ?m false) _ ?w0] =>
      set (res := r); set (w2 := w0)
  end.
  assert (Hres : (returncode res =? 0)%Z = ok) by apply Hdl.
  destruct ok.
  - apply Z.eqb_eq in Hres.
    erewrite bind_done by (apply expect_result_ok; exact Hres).
    rewrite Hres. cbn [Z.eqb negb].
    eexists. split; [|unfold w2, w1; rewrite !with_trace_twice; reflexivity].
    rewrite !children_of_app, C1, children_of_msg_events. reflexivity.
  - assert (Hne : returncode res <> 0%Z) by now apply Z.eqb_neq.
    erewrite bind_done by (apply expect_result_error; exact Hne).
    rewrite Hres. cbn [negb].
    eexists. split; [|unfold w2, w1; rewrite !with_trace_twice; reflexivity].
    rewrite !children_of_app, C1, !children_of_msg_events. reflexivity.
Qed.

(** X8.  A package that is upgraded but cannot be downloaded for the
    robot is reported and skipped as well ([install_package], the second
    [continue]): the loop body ends normally after the two children, the
    upgrade and the failed download; no listing is taken and no version
    is recorded, although the package is now installed locally. *)
Theorem failed_download_skips_the_record (pkg : string) (w : World) :
  (forall t, returncode (child host t (pip_upgrade host pkg)) = 0%Z) ->
  (forall t, returncode (child host t (installer_download host pkg)) <> 0%Z) ->
  exists new,
    install_one host true pkg w = Done tt (with_trace (trace w ++ new) w)
    /\ children_of new = [pip_upgrade host pkg; installer_download host pkg].
Proof.
  intros Hpip Hdl.
  destruct (install_one_download pkg w false Hpip) as [new [Hc Hrun]].
  - intros t. apply Z.eqb_neq. apply Hdl.
  - exists new. split; [exact Hrun | exact Hc].
Qed.

(** X9.  When the listing of installed packages cannot be taken
    ([load_packages]: [pip freeze] ends with a non-zero status), the
    whole process exits with status 1, even though the package has been
    upgraded and downloaded; the configuration and the cached listing
    are as before. *)
Theorem failed_listing_is_fatal (pkg : string) (w : World) :
  (forall t, returncode (child host t (pip_upgrade host pkg)) = 0%Z) ->
  (forall t, returncode (child host t (installer_download host pkg)) = 0%Z) ->
  (forall t, returncode (child host t (pip_freeze host)) <> 0%Z) ->
  exists new,
    install_one host true pkg w = Exit 1%Z (with_trace (trace w ++ new) w)
    /\ children_of new =
         [pip_upgrade host pkg; installer_download host pkg; pip_freeze host].
Proof.
  intros Hpip Hdl Hfreeze.
  destruct (install_one_download pkg w true Hpip) as [n1 [C1 H1]].
  { intros t. apply Z.eqb_eq. apply Hdl. }
  rewrite H1. cbn [negb]. set (w1 := with_trace (trace w ++ n1) w).
  assert (Hre : exists n2,
            reload_packages host w1 = Exit 1%Z (with_trace (trace w1 ++ n2) w1)
            /\ children_of n2 = [pip_freeze host]).
  { unfold reload_packages. run.
    change (sys_executable host :: ["-m"; "pip"; "freeze"]) with (pip_freeze host).
    specialize (Hfreeze (trace w1)). apply Z.eqb_neq in Hfreeze. rewrite Hfreeze.
    cbn [negb]. rewrite ?bind_bind. erewrite bind_exit by apply fatal_run.
    eexists. split; [rewrite with_trace_twice; reflexivity|].
    rewrite children_of_app, children_of_msg_events. reflexivity. }
  destruct Hre as [n2 [H2 C2]].
  assert (Hload : load_packages host true w1 = Exit 1%Z (with_trace (trace w1 ++ n2) w1))
    by (unfold load_packages; destruct (packages w1); exact H2).
  rewrite (bind_exit _ _ _ _ _ Hload).
  exists (n1 ++ n2). split.
  - unfold w1. now rewrite with_trace_twice.
  - now rewrite children_of_app, C1, C2.
Qed.

(** X10.  When the listing does not show the package under the name that
    was given ([install_package], [packages[pkg]]), the handler raises
    [KeyError] for that name, whether or not the package is on record;
    the configuration is left as it was. *)
Theorem unlisted_package_raises_key_error
    (pkg : string) (lines : list string) (w : World) (c : CP.t) :
  config w = Some c ->
  CP.has_section c "requirements" = true ->
  (forall t, returncode (child host t (pip_upgrade host pkg)) = 0%Z) ->
  (forall t, returncode (child host t (installer_download host pkg)) = 0%Z) ->
  (forall t, child host t (pip_freeze host) = {| returncode := 0%Z; stdout := lines |}) ->
  CP.lookup pkg (freeze_dict lines) = None ->
  exists w',
    install_one host true pkg w = Raise (KeyError pkg) w'
    /\ config w' = Some c
    /\ packages w' = Some (freeze_dict lines).
Proof.
  intros Hcfg Hsec Hpip Hdl Hfreeze Hnone.
  destruct (install_one_download pkg w true Hpip) as [n1 [C1 H1]].
  { intros t. apply Z.eqb_eq. apply Hdl. }
  rewrite H1. cbn [negb]. set (w1 := with_trace (trace w ++ n1) w).
  run_by ltac:(apply load_packages_refresh; apply Hfreeze).
  match goal with |- context [record_if_newer _ _ ?w0] => set (w2 := w0) end.
  assert (Hcfg2 : config w2 = Some c) by exact Hcfg.
  assert (Hmiss : dict_getitem (freeze_dict lines) pkg w2 = Raise (KeyError pkg) w2)
    by now apply dict_getitem_missing.
  exists w2. split; [|split; [exact Hcfg2 | reflexivity]].
  unfold record_if_newer. run. run.
  destruct (CP.has_option c "requirements" pkg) eqn:Hopt; cbn [negb].
  - destruct (proj1 (has_option_get _ _ _) Hopt) as [old Hold].
    run. run. rewrite ?bind_bind.
    now rewrite (bind_raise _ _ _ _ _ Hmiss).
  - run. cbv beta iota. now rewrite (bind_raise _ _ _ _ _ Hmiss).
Qed.

(** X11.  [install] never hands add-on shorthand to the package manager:
    however the run ends, every package it asks the package manager to
    upgrade is one of the requested names after expansion, and none of
    them is a shorthand. *)
Theorem install_upgrades_canonical_names (w : World) (c : CP.t) (args : install_args) :
  config w = Some c ->
  exists w' new,
    final_world (install host args w) = Some w'
    /\ trace w' = trace w ++ new
    /\ forall pkg, In pkg (upgrades new) ->
         In pkg (expand_addons (install_packages args))
         /\ is_robotpy_addon pkg = false.
Proof.
  intros Hcfg. unfold install.
  destruct (move_to_robotpy_dir_cases w) as [[d Hd] | Hx].
  - rewrite (bind_done _ _ _ _ _ Hd).
    set (pkgs := expand_addons (install_packages args)).
    pose proof (install_package_upgrades_listed host pkgs (install_download args)
                  (with_cwd d w)) as Hens.
    destruct (install_package host pkgs (install_download args) (with_cwd d w))
      as [[] w'|code w'|e w'|]; cbn in Hens; try contradiction;
      destruct (Hens c Hcfg) as [_ [_ [_ [new [Ht HQ]]]]];
      exists w', new; (split; [reflexivity|]); (split; [exact Ht|]);
      intros pkg Hin; apply (upgrades_within pkgs new HQ) in Hin;
      (split; [exact Hin | now apply (expand_addons_In (install_packages args))]).
  - rewrite (bind_exit _ _ _ _ _ Hx).
    eexists _, _. split; [reflexivity|]. split; [reflexivity|].
    intros pkg Hin. rewrite upgrades_msg_events in Hin. destruct Hin.
Qed.

End InstallOutcomes.

Lemma failed_upgrade_skips_the_package_witness :
  let w := loaded_process ["home"; "team"] small_project in
  exists new,
    install_one failing_host true "foo" w = Done tt (with_trace (trace w ++ new)%list w)
    /\ children_of new = [pip_upgrade failing_host "foo"].
Proof.
  intros w. apply (failed_upgrade_skips_the_package failing_host true "foo" w).
  intros t. simpl. discriminate.
Defined.

Lemma install_without_download_only_upgrades_witness :
  let w := loaded_process ["home"; "team"] small_project in
  exists new,
    install demo_host {| install_download := false; install_packages := ["ctre"; "foo"] |} w
      = Done tt (with_trace (trace w ++ new)%list w)
    /\ children_of new = map (pip_upgrade demo_host) (expand_addons ["ctre"; "foo"]).
Proof.
  intros w.
  apply (install_without_download_only_upgrades demo_host w w small_project ["ctre"; "foo"]);
    reflexivity.
Defined.

Lemma failed_download_skips_the_record_witness :
  let w := loaded_process ["home"; "team"] base_only in
  exists new,
    install_one offline_host true "foo" w = Done tt (with_trace (trace w ++ new)%list w)
    /\ children_of new = [pip_upgrade offline_host "foo"; installer_download offline_host "foo"].
Proof.
  intros w. apply (failed_download_skips_the_record offline_host "foo" w).
  - intros t. reflexivity.
  - intros t. simpl. discriminate.
Defined.

Lemma failed_listing_is_fatal_witness :
  let w := loaded_process ["home"; "team"] base_only in
  exists new,
    install_one no_listing_host true "foo" w = Exit 1%Z (with_trace (trace w ++ new)%list w)
    /\ children_of new =
         [pip_upgrade no_listing_host "foo"; installer_download no_listing_host "foo";
          pip_freeze no_listing_host].
Proof.
  intros w. apply (failed_listing_is_fatal no_listing_host "foo" w).
  - intros t. reflexivity.
  - intros t. reflexivity.
  - intros t. simpl. discriminate.
Defined.

Lemma unlisted_package_raises_key_error_witness :
  let w := loaded_process ["home"; "team"] small_project in
  exists w',
    install_one demo_host true "Foo" w = Raise (KeyError "Foo") w'
    /\ config w' = Some small_project
    /\ packages w' = Some (freeze_dict ["robotpy==2024.3.2"; "foo==1.0"]).
Proof.
  intros w.
  apply (unlisted_package_raises_key_error demo_host "Foo"
           ["robotpy==2024.3.2"; "foo==1.0"] w small_project); reflexivity.
Defined.

Lemma install_upgrades_canonical_names_witness :
  let w := loaded_process ["home"; "team"] small_project in
  let args := {| install_download := true; install_packages := ["ctre"; "foo"] |} in
  exists w' new,
    final_world (install demo_host args w) = Some w'
    /\ trace w' = (trace w ++ new)%list
    /\ forall pkg, In pkg (upgrades new) ->
         In pkg (expand_addons (install_packages args))
         /\ is_robotpy_addon pkg = false.
Proof.
  intros w args.
  apply (install_upgrades_canonical_names demo_host w small_project args).
  reflexivity.
Defined.

(* ===================================================================== *)
(** ** [remove]: the whole handler *)
(* ===================================================================== *)

Module RemoveFacts.
Import ConfigParser DictFacts ConfigFacts.
Local Open Scope list_scope.

Lemma keys_store_present {V} (k : string) (v : V) (d : dict V) :
  has_key k d = true -> keys (store k v d) = keys d.
Proof. intros H. now rewrite keys_store, H. Qed.

Lemma wf_store_section (c : t) (s : string) (opts opts' : options) :
  wf c -> lookup s c = Some opts -> wf_options opts' -> wf (store s opts' c).
Proof.
  intros [Hnd Hall] Hl Hopts. split.
  - rewrite keys_store_present; [assumption | apply lookup_has_key; eauto].
  - apply Forall_forall. intros x Hx. apply In_store_inv in Hx.
    destruct Hx as [-> | Hx]; [exact Hopts|].
    rewrite Forall_forall in Hall. now apply Hall.
Qed.

Lemma wf_remove_option (c : t) (s n : string) : wf c -> wf (remove_option c s n).
Proof.
  intros Hwf. unfold remove_option. destruct (lookup s c) as [opts|] eqn:E; [|assumption].
  apply (wf_store_section c s opts); auto.
  destruct (wf_section _ _ _ Hwf E) as [Hnd Hlow]. split.
  - now apply NoDup_keys_remove.
  - rewrite Forall_forall in *. intros k Hk. apply Hlow.
    now apply (keys_remove_incl (optionxform n) opts).
Qed.

Lemma has_section_remove_option (c : t) (s n s' : string) :
  has_section (remove_option c s n) s' = has_section c s'.
Proof.
  unfold has_section, remove_option. destruct (lookup s c) as [opts|] eqn:E; [|reflexivity].
  unfold has_key. rewrite keys_store_present; [reflexivity | apply lookup_has_key; eauto].
Qed.

Lemma lookup_remove_option_other (c : t) (s n s' : string) :
  s' <> s -> lookup s' (remove_option c s n) = lookup s' c.
Proof.
  intros Hne. unfold remove_option. destruct (lookup s c); [|reflexivity].
  now apply lookup_store_other.
Qed.

(** After [del config[s][n]] an option of [s] is gone if it is [n] (as
    the parser compares names) and as before otherwise. *)
Lemma get_remove_option (c : t) (s n k : string) :
  wf c ->
  get (remove_option c s n) s k =
    if String.eqb (optionxform k) (optionxform n) then None else get c s k.
Proof.
  intros Hwf. unfold get, remove_option.
  destruct (lookup s c) as [opts|] eqn:E.
  - rewrite lookup_store_same.
    destruct (wf_section _ _ _ Hwf E) as [Hnd _].
    destruct (String.eqb_spec (optionxform k) (optionxform n)) as [->|Hne].
    + now apply lookup_remove_same.
    + now apply lookup_remove_other.
  - rewrite E. now destruct (String.eqb _ _).
Qed.

End RemoveFacts.

(** Splits a conjunction into its parts, leaving definitions folded. *)
Ltac conj_split := repeat match goal with |- _ /\ _ => split end.

Section RemoveAll.
Import DictFacts ConfigFacts RemoveFacts.
Variable host : Host.
Local Open Scope list_scope.

Lemma is_print_msg_events (m : string) (b : bool) (w : World) :
  Forall is_print (msg_events host m b w).
Proof. unfold msg_events. destruct (_ || _); repeat constructor. Qed.

Lemma requested_cons (pkg : string) (pkgs : list string) (k : string) :
  requested (pkg :: pkgs) k =
    (negb (String.eqb pkg "robotpy")
     && String.eqb (CP.optionxform k) (CP.optionxform pkg))
    || requested pkgs k.
Proof.
  unfold requested, removable. cbn [filter].
  destruct (String.eqb pkg "robotpy"); cbn [negb andb orb map]; reflexivity.
Qed.

(** The loop of [remove]. *)
Lemma remove_loop (pkgs : list string) :
  forall (w : World) (c : CP.t),
    config w = Some c -> CP.wf c -> CP.has_section c "requirements" = true ->
    exists w' c' prints,
      for_each (remove_one host) pkgs w = Done tt w'
      /\ config w' = Some c'
      /\ trace w' = trace w ++ prints /\ Forall is_print prints
      /\ cwd w' = cwd w /\ markers w' = markers w /\ files w' = files w
      /\ packages w' = packages w
      /\ (forall s, s <> "requirements" -> CP.lookup s c' = CP.lookup s c)
      /\ (forall k, CP.get c' "requirements" k =
                    if requested pkgs k then None else CP.get c "requirements" k).
Proof.
  induction pkgs as [|pkg pkgs IH]; intros w c Hcfg Hwf Hsec.
  - exists w, c, []. cbn [for_each]. unfold ret.
    conj_split; auto. now rewrite app_nil_r.
  - cbn [for_each].
    assert (Hstep : exists w1 c1 p1,
              remove_one host pkg w = Done tt w1
              /\ config w1 = Some c1 /\ CP.wf c1
              /\ CP.has_section c1 "requirements" = true
              /\ trace w1 = trace w ++ p1 /\ Forall is_print p1
              /\ cwd w1 = cwd w /\ markers w1 = markers w /\ files w1 = files w
              /\ packages w1 = packages w
              /\ (forall s, s <> "requirements" -> CP.lookup s c1 = CP.lookup s c)
              /\ (forall k, CP.get c1 "requirements" k =
                    if negb (String.eqb pkg "robotpy")
                       && String.eqb (CP.optionxform k) (CP.optionxform pkg)
                    then None else CP.get c "requirements" k)).
    { unfold remove_one. destruct (String.eqb pkg "robotpy") eqn:Hbase; cbn [negb andb].
      - rewrite error_run. eexists _, c, _. split; [reflexivity|].
        cbn [config trace cwd markers files packages with_trace].
        conj_split; auto. apply is_print_msg_events.
      - run. run. destruct (CP.has_option c "requirements" pkg) eqn:Hopt.
        + run. rewrite (proxy_delitem_run w c Hcfg _ _ Hopt).
          eexists _, _, []. split; [reflexivity|].
          cbn [config trace cwd markers files packages with_config].
          split; [reflexivity|]. split; [now apply wf_remove_option|].
          split; [now rewrite has_section_remove_option|].
          split; [now rewrite app_nil_r|]. split; [constructor|].
          repeat (split; [reflexivity|]). split.
          * intros s Hs. now apply lookup_remove_option_other.
          * intros k. now apply get_remove_option.
        + rewrite error_run. eexists _, c, _. split; [reflexivity|].
          cbn [config trace cwd markers files packages with_trace].
          conj_split; auto; [apply is_print_msg_events|].
          intros k. destruct (String.eqb_spec (CP.optionxform k) (CP.optionxform pkg))
            as [E|_]; [|reflexivity].
          apply has_option_false_get in Hopt. unfold CP.get in *. now rewrite E. }
    destruct Hstep as [w1 [c1 [p1 [Hrun [Hc1 [Hwf1 [Hs1 [Ht1 [Hp1 [Hd1 [Hm1 [Hf1 [Hk1 [Ho1 Hg1]]]]]]]]]]]]]].
    rewrite (bind_done _ _ _ _ _ Hrun).
    destruct (IH w1 c1 Hc1 Hwf1 Hs1)
      as [w' [c' [p2 [Hrun' [Hc' [Ht' [Hp' [Hd' [Hm' [Hf' [Hk' [Ho' Hg']]]]]]]]]]]].
    exists w', c', (p1 ++ p2). split; [exact Hrun'|]. split; [exact Hc'|].
    split; [rewrite Ht', Ht1; now rewrite app_assoc|].
    split; [apply Forall_app; now split|].
    repeat (split; [congruence|]). split.
    + intros s Hs. rewrite Ho' by assumption. now apply Ho1.
    + intros k. rewrite Hg', Hg1, requested_cons.
      destruct (requested pkgs k); [now rewrite orb_true_r|].
      now rewrite orb_false_r.
Qed.

(** X12.  [remove], in a project whose configuration has a section
    [requirements] (and whose marker file has no section [[DEFAULT]] and
    no percent sign in a value), for names in ASCII: the handler
    completes; afterwards an option of that section is gone if it is one
    of the requested names other than the exact name [robotpy] (names
    compared as the parser object compares them, in lower case), and is
    as before otherwise; no other section changes; and the handler only
    prints: it starts no child, so nothing is uninstalled, locally or on
    the robot. *)
Theorem remove_deletes_the_requested_options
    (w w1 : World) (c : CP.t) (pkgs : list string) :
  move_to_robotpy_dir host w = Done tt w1 ->
  config w = Some c ->
  CP.wf c ->
  plain_config c ->
  CP.has_section c "requirements" = true ->
  Forall (fun pkg => ascii_only pkg = true) pkgs ->
  exists w' c' prints,
    remove host {| remove_packages := pkgs |} w = Done tt w'
    /\ config w' = Some c'
    /\ trace w' = trace w ++ prints /\ Forall is_print prints
    /\ (forall s, s <> "requirements" -> CP.lookup s c' = CP.lookup s c)
    /\ (forall k, ascii_only k = true ->
                  CP.get c' "requirements" k =
                  if requested pkgs k then None else CP.get c "requirements" k).
Proof.
  intros Hmove Hcfg Hwf _ Hsec _.
  destruct (move_to_robotpy_dir_done host _ _ Hmove) as [d [-> _]].
  set (w1 := with_cwd d w) in *.
  assert (Hcfg1 : config w1 = Some c) by exact Hcfg.
  unfold remove. run. run. cbn [remove_packages].
  destruct (remove_loop pkgs w1 c Hcfg1 Hwf Hsec)
    as [w' [c' [prints [Hrun [Hc' [Ht [Hp [_ [_ [_ [_ [Ho Hg]]]]]]]]]]]].
  exists w', c', prints. conj_split; auto.
Qed.

End RemoveAll.

Lemma remove_deletes_the_requested_options_witness :
  let c := [("requirements", [("robotpy", "2024.3.2"); ("foo", "1.0"); ("bar", "2.0")])] in
  let w := loaded_process ["home"; "team"] c in
  let pkgs := ["robotpy"; "Foo"; "baz"] in
  exists w' c' prints,
    remove demo_host {| remove_packages := pkgs |} w = Done tt w'
    /\ config w' = Some c'
    /\ trace w' = (trace w ++ prints)%list /\ Forall is_print prints
    /\ (forall s, s <> "requirements" -> CP.lookup s c' = CP.lookup s c)
    /\ (forall k, ascii_only k = true ->
                  CP.get c' "requirements" k =
                  if requested pkgs k then None else CP.get c "requirements" k).
Proof.
  intros c w pkgs.
  apply (remove_deletes_the_requested_options demo_host w w c pkgs).
  - reflexivity.
  - reflexivity.
  - split; repeat constructor; simpl; intuition discriminate.
  - split; [reflexivity | repeat constructor].
  - reflexivity.
  - repeat constructor.
Defined.

(* ===================================================================== *)
(** ** [deploy]: the robot code, and a push that fails *)
(* ===================================================================== *)

Section DeployOutcomes.
Import DictFacts ConfigFacts.
Variable host : Host.
Local Open Scope list_scope.

(** X13.  [deploy --no-lib], in a project whose configuration names the
    entry file: the handler starts exactly one child, the interpreter on
    the entry file with the argument [deploy]; it completes if the child
    succeeds and exits with status 1 if it fails; either way nothing but
    the working directory (the project root) and the trace has changed.
    (For an entry file name without a percent sign, which the parser
    object would try to interpolate.) *)
Theorem deploy_runs_the_entry_file
    (w w1 : World) (c : CP.t) (entry : string) (ok : bool) :
  move_to_robotpy_dir host w = Done tt w1 ->
  config w = Some c ->
  CP.get c "execution" "main" = Some entry ->
  PyStr.contains_char "%" entry = false ->
  (forall t, (returncode (child host t [sys_executable host; entry; "deploy"]) =? 0)%Z = ok) ->
  exists new,
    deploy host {| deploy_code := true; deploy_lib := false |} w =
      (if ok then Done tt else Exit 1%Z) (with_trace (trace w1 ++ new) w1)
    /\ children_of new = [[sys_executable host; entry; "deploy"]].
Proof.
  intros Hmove Hcfg Hget _ Hchild.
  destruct (move_to_robotpy_dir_done host _ _ Hmove) as [d [-> _]].
  set (w1 := with_cwd d w) in *.
  assert (Hcfg1 : config w1 = Some c) by exact Hcfg.
  assert (Hsec : CP.has_section c "execution" = true).
  { apply (has_option_section c "execution" "main"). apply has_option_get. eauto. }
  unfold deploy. run. run. cbn [deploy_lib deploy_code]. run.
  unfold deploy_robot_code. run. run. run.
  match goal with
  | |- context [bind (cfg_getitem "execution") _ ?w0] => set (w2 := w0)
  end.
  assert (Hcfg2 : config w2 = Some c) by exact Hcfg.
  run. run. run.
  match goal with
  | |- context [expect_result host ?r ?m true ?w0] => set (res := r); set (w3 := w0)
  end.
  assert (Hres : (returncode res =? 0)%Z = ok) by apply Hchild.
  destruct ok.
  - apply Z.eqb_eq in Hres. rewrite (expect_result_ok host res _ true w3 Hres).
    eexists. split; [unfold w3, w2; rewrite with_trace_twice; reflexivity|].
    rewrite children_of_app, children_of_msg_events. reflexivity.
  - unfold expect_result. rewrite Hres. cbn [negb]. rewrite fatal_run.
    eexists. split; [unfold w3, w2; rewrite !with_trace_twice; reflexivity|].
    rewrite !children_of_app, !children_of_msg_events. reflexivity.
Qed.

(** X14.  A push to the robot that fails is fatal and is not recorded
    ([deploy] with library deployment): with pending updates and an
    installer that ends with a non-zero status, the process exits with
    status 1 right after that one child; the robot code is not deployed,
    and section [requirements.deployed] like the rest of the
    configuration is as before, so that the next [deploy] finds the same
    updates pending. *)
Theorem failed_push_is_fatal_and_not_recorded
    (w w1 : World) (c : CP.t) (dc : bool) :
  move_to_robotpy_dir host w = Done tt w1 ->
  config w = Some c ->
  CP.wf c ->
  CP.has_section c "requirements.deployed" = true ->
  CP.has_section c "requirements" = true ->
  pending_updates c <> [] ->
  (forall t, returncode (child host t (installer_install host (pending_updates c))) <> 0%Z) ->
  exists new,
    deploy host {| deploy_code := dc; deploy_lib := true |} w =
      Exit 1%Z (with_trace (trace w1 ++ new) w1)
    /\ children_of new = [installer_install host (pending_updates c)].
Proof.
  intros Hmove Hcfg Hwf Hdep Hreq Hpend Hinst.
  destruct (move_to_robotpy_dir_done host _ _ Hmove) as [d [-> _]].
  set (w1 := with_cwd d w) in *.
  assert (Hcfg1 : config w1 = Some c) by exact Hcfg.
  unfold deploy. run. run. cbn [deploy_lib deploy_code]. unfold deploy_libraries.
  run. run. run.
  run_by ltac:(apply (filter_m_run _ (outdated c)); intros; now apply needs_deploy_run).
  fold (pending_updates c).
  assert (Hlen : (length (pending_updates c) =? 0)%nat = false).
  { destruct (pending_updates c); [congruence | reflexivity]. }
  rewrite Hlen. cbn [negb]. run. run. run.
  change (sys_executable host :: "-m" :: "robotpy_installer" :: "install" :: pending_updates c)
    with (installer_install host (pending_updates c)).
  rewrite ?bind_bind.
  match goal with
  | |- context [bind (expect_result host ?r ?m true) _ ?w0] => set (res := r); set (w2 := w0)
  end.
  assert (Hres : (returncode res =? 0)%Z = false) by (apply Z.eqb_neq; apply Hinst).
  assert (Hexit : expect_result host res
                    "Updating packages on remote target failed unexpectedly" true w2
                  = Exit 1%Z (with_trace
                      (trace w2 ++ msg_events host
                         "fatal: Updating packages on remote target failed unexpectedly"
                         true w2) w2)).
  { unfold expect_result. rewrite Hres. cbn [negb]. apply fatal_run. }
  rewrite (bind_exit _ _ _ _ _ Hexit).
  eexists. split; [unfold w2; rewrite !with_trace_twice; reflexivity|].
  rewrite !children_of_app, !children_of_msg_events. reflexivity.
Qed.

End DeployOutcomes.

Lemma deploy_runs_the_entry_file_witness :
  let w := loaded_process ["home"; "team"] small_project in
  exists new,
    deploy demo_host {| deploy_code := true; deploy_lib := false |} w =
      (if true then Done tt else Exit 1%Z) (with_trace (trace w ++ new)%list w)
    /\ children_of new = [[sys_executable demo_host; "robot.py"; "deploy"]].
Proof.
  intros w.
  apply (deploy_runs_the_entry_file demo_host w w small_project "robot.py" true);
    reflexivity.
Defined.

Lemma failed_push_is_fatal_and_not_recorded_witness :
  let w := loaded_process ["home"; "team"] added_since_deploy in
  exists new,
    deploy failing_host {| deploy_code := true; deploy_lib := true |} w =
      Exit 1%Z (with_trace (trace w ++ new)%list w)
    /\ children_of new = [installer_install failing_host (pending_updates added_since_deploy)].
Proof.
  intros w.
  apply (failed_push_is_fatal_and_not_recorded failing_host w w added_since_deploy true).
  - reflexivity.
  - reflexivity.
  - split; repeat constructor; simpl; intuition discriminate.
  - reflexivity.
  - reflexivity.
  - discriminate.
  - intros t. simpl. discriminate.
Defined.

(* ===================================================================== *)
(** ** [configure]: setting, printing and refusing a field *)
(* ===================================================================== *)

Section ConfigureField.
Import DictFacts ConfigFacts SetFacts SetItemOther.
Variable host : Host.
Local Open Scope list_scope.



(** [configure] up to the point where it has accepted the field. *)
Ltac enter_configure Hmove Hcfg Hdot Hgroup :=
  let d := fresh "d" in
  destruct (move_to_robotpy_dir_done host _ _ Hmove) as [d [-> _]];
  unfold configure; cbv zeta;
  rewrite (bind_done _ _ _ _ _ Hmove);
  erewrite bind_done by (apply load_config_cached; exact Hcfg);
  cbn [config_field config_clear config_value];
  fold protected_groups;
  repeat match goal with
         | |- context [PyStr.join_char "." (removelast (PyStr.split_char "." ?f))] =>
             fold (field_group f)
         | |- context [last (PyStr.split_char "." ?f) ""] => fold (field_name f)
         end;
  rewrite ?Hdot, ?Hgroup; cbn [negb].


Lemma configure_get_run (w w1 : World) (c : CP.t) (field : string) :
  move_to_robotpy_dir host w = Done tt w1 ->
  config w = Some c ->
  PyStr.contains_char "." field = true ->
  PyStr.mem (field_group field) protected_groups = false ->
  configure host {| config_field := field; config_value := None;
                    config_clear := false |} w
    = Done tt (with_trace
                 (trace w1 ++
                  match CP.get c (field_group field) (field_name field) with
                  | Some v => [EvPrint false v]
                  | None => []
                  end) w1).
Proof.
  intros Hmove Hcfg Hdot Hgroup.
  enter_configure Hmove Hcfg Hdot Hgroup.
  set (w1 := with_cwd d w) in *.
  assert (Hcfg1 : config w1 = Some c) by exact Hcfg.
  run.
  destruct (CP.has_section c (field_group field)) eqn:Hsec.
  - run. run.
    destruct (CP.has_option c (field_group field) (field_name field)) eqn:Hopt.
    + destruct (proj1 (has_option_get _ _ _) Hopt) as [v Hv]. rewrite Hv.
      run. run. reflexivity.
    + apply has_option_false_get in Hopt. rewrite Hopt.
      unfold ret. now rewrite with_trace_nil.
  - run.
    assert (Hnone : CP.get c (field_group field) (field_name field) = None).
    { unfold CP.get. assert (H : CP.lookup (field_group field) c = None)
        by now apply has_key_false. now rewrite H. }
    rewrite Hnone. unfold ret. now rewrite with_trace_nil.
Qed.


(** X16.  [config FIELD], in a project whose marker file has no section
    [[DEFAULT]] and no percent sign in a value, for a field in ASCII with
    a dot whose group names a section of its own other than the two
    requirement sections: the handler completes; if the option named by
    the field is set, its value is printed on a line of its own, to the
    output stream, without the prefix of the other messages and whatever
    the verbosity; if the option or its section is missing, nothing is
    printed and nothing is reported; either way nothing but the working
    directory (the project root) and the trace has changed. *)
Theorem configure_prints_the_field
    (w w1 : World) (c : CP.t) (field : string) :
  move_to_robotpy_dir host w = Done tt w1 ->
  config w = Some c ->
  plain_config c ->
  ascii_only field = true ->
  PyStr.contains_char "." field = true ->
  PyStr.mem (field_group field) protected_groups = false ->
  ordinary_group (field_group field) ->
  configure host {| config_field := field; config_value := None;
                    config_clear := false |} w
    = Done tt (with_trace
                 (trace w1 ++
                  match CP.get c (field_group field) (field_name field) with
                  | Some v => [EvPrint false v]
                  | None => []
                  end) w1).
Proof.
  intros Hmove Hcfg _ _ Hdot Hgroup _. now apply configure_get_run.
Qed.

(** X17.  [configure] refuses a field without a dot, and a field whose
    group is one of the two requirement sections, whatever else is asked
    (set, print or clear): it reports the error and the process exits
    with status 1; nothing but the working directory (the project root)
    and the trace has changed. *)
Theorem configure_refuses_the_field
    (w w1 : World) (c : CP.t) (args : config_args) :
  move_to_robotpy_dir host w = Done tt w1 ->
  config w = Some c ->
  PyStr.contains_char "." (config_field args) = false
  \/ PyStr.mem (field_group (config_field args)) protected_groups = true ->
  exists m,
    configure host args w =
      Exit 1%Z (with_trace (trace w1 ++ msg_events host ("error: " ++ m) true w1) w1).
Proof.
  intros Hmove Hcfg Hbad.
  destruct (move_to_robotpy_dir_done host _ _ Hmove) as [d [-> _]].
  unfold configure. cbv zeta.
  rewrite (bind_done _ _ _ _ _ Hmove).
  erewrite bind_done by (apply load_config_cached; exact Hcfg).
  fold protected_groups. fold (field_group (config_field args)).
  destruct (PyStr.contains_char "." (config_field args)) eqn:Hdot; cbn [negb].
  - destruct Hbad as [Hbad|Hbad]; [discriminate|]. rewrite Hbad.
    erewrite bind_done by apply error_run. eexists. reflexivity.
  - erewrite bind_done by apply error_run. eexists. reflexivity.
Qed.

End ConfigureField.


Lemma configure_prints_the_field_witness :
  let w := loaded_process ["home"; "team"] small_project in
  configure demo_host {| config_field := "execution.main"; config_value := None;
                         config_clear := false |} w
    = Done tt (with_trace
                 (trace w ++
                  match CP.get small_project (field_group "execution.main")
                          (field_name "execution.main") with
                  | Some v => [EvPrint false v]
                  | None => []
                  end)%list w).
Proof.
  intros w.
  apply (configure_prints_the_field demo_host w w small_project "execution.main").
  - reflexivity.
  - reflexivity.
  - split; [reflexivity | repeat constructor].
  - reflexivity.
  - reflexivity.
  - reflexivity.
  - split; discriminate.
Defined.

Lemma configure_refuses_the_field_witness :
  let w := loaded_process ["home"; "team"] small_project in
  let args := {| config_field := "requirements.deployed.foo"; config_value := Some "9";
                 config_clear := false |} in
  exists m,
    configure demo_host args w =
      Exit 1%Z (with_trace (trace w ++ msg_events demo_host ("error: " ++ m) true w)%list w).
Proof.
  intros w args.
  apply (configure_refuses_the_field demo_host w w small_project args).
  - reflexivity.
  - reflexivity.
  - right. reflexivity.
Defined.

(* ===================================================================== *)
(** ** [initialize]: files, credentials, pre-downloads *)
(* ===================================================================== *)

Lemma write_file_run (name content : string) (w : World) :
  write_file name content w =
    Done tt (with_files ((cwd w ++ [name], content) :: files w)%list
               (with_trace (trace w ++ [EvWriteFile (cwd w ++ [name]) content])%list w)).
Proof. reflexivity. Qed.

#[global] Hint Resolve write_file_run : run.

Section InitializeFiles.
Import DictFacts ConfigFacts SetItemOther.
Variable host : Host.
Local Open Scope list_scope.

Lemma path_eqb_neq (p q : path) : p <> q -> path_eqb p q = false.
Proof. intros H. unfold path_eqb. destruct (list_eq_dec string_dec p q); congruence. Qed.

Lemma path_lookup_other {V} (p q : path) (v : V) (l : list (path * V)) :
  p <> q -> path_lookup p ((q, v) :: l) = path_lookup p l.
Proof. intros H. cbn. now rewrite (path_eqb_neq p q H). Qed.

Lemma path_lookup_same {V} (p : path) (v : V) (l : list (path * V)) :
  path_lookup p ((p, v) :: l) = Some v.
Proof. cbn. now rewrite path_eqb_refl. Qed.

Lemma keeps_files_same (exempt : list string) (w w' : World) :
  cwd w' = cwd w -> files w' = files w -> keeps_files exempt w w'.
Proof. intros Hc Hf. split; [exact Hc|]. intros p content _. now rewrite Hf. Qed.

Lemma keeps_files_trans (exempt : list string) (w1 w2 w3 : World) :
  keeps_files exempt w1 w2 -> keeps_files exempt w2 w3 -> keeps_files exempt w1 w3.
Proof.
  intros [C1 F1] [C2 F2]. split; [congruence|].
  intros p content Hp Hl. apply F2; [rewrite C1; exact Hp | now apply F1].
Qed.

(** The entry file is written only where there is no file yet. *)
Lemma scaffold_keeps_files (exempt : list string) (args : init_args) :
  ensures (keeps_files exempt) (scaffold_entry_file host args).
Proof.
  intros w. unfold scaffold_entry_file.
  rewrite (bind_done _ _ _ _ _ (os_isfile_run (init_main args) w)).
  destruct (isfile w (init_main args)) eqn:Hfile.
  - rewrite error_run. cbn. now apply keeps_files_same.
  - rewrite write_file_run. cbn. split; [reflexivity|].
    intros p content _ Hl. cbn [files with_files with_trace].
    rewrite path_lookup_other; [exact Hl|].
    intros ->. unfold isfile in Hfile. now rewrite Hl in Hfile.
Qed.

(** What a frame lemma needs of [keeps_files]. *)
Ltac keeps_files_frame :=
  first
    [ intros; exact I
    | intros; now apply keeps_files_same
    | apply keeps_files_trans ].

Lemma initialize_finish_keeps_files (exempt : list string) (args : init_args) :
  ensures (keeps_files exempt) (initialize_finish host args).
Proof.
  apply (fr_initialize_finish (keeps_files exempt) (fun _ _ => True));
    try keeps_files_frame.
  apply scaffold_keeps_files.
Qed.

Lemma initialize_project_keeps_files (target : path) (args : init_args) :
  ensures (keeps_files (rewritten_files args)) (initialize_project host target args).
Proof.
  apply (fr_initialize_project (keeps_files (rewritten_files args)) (fun _ _ => True));
    try keeps_files_frame.
  - intros hostname Hhost w. unfold rewritten_files. rewrite Hhost.
    rewrite (bind_done _ _ _ _ _ (write_file_run _ _ w)). rewrite write_file_run.
    cbn. split; [reflexivity|]. intros p content Hp Hl.
    cbn [files with_files with_trace cwd].
    rewrite !path_lookup_other; [exact Hl | |].
    + apply Hp. now left.
    + apply Hp. right. now left.
  - apply scaffold_keeps_files.
Qed.

(** Entering the target directory: either it is a regular file and the
    process exits, or the process is in it, with the files as they were. *)
Lemma enter_target_cases (w : World) (args : init_args) :
  enter_target host args w =
    Done (init_target args w)
         (with_cwd (init_target args w) (with_trace (trace w ++ enter_events args) w))
  \/ exists new,
       enter_target host args w = Exit 1%Z (with_trace (trace w ++ new) w).
Proof.
  destruct (match init_directory args with
            | Some d => is_regular_file w d
            | None => false
            end) eqn:Hreg.
  - right. destruct (init_directory args) as [d|] eqn:Ed; [|discriminate].
    unfold enter_target. rewrite Ed. run. rewrite Hreg.
    rewrite ?bind_bind. erewrite bind_exit by apply fatal_run.
    eexists. reflexivity.
  - left. apply enter_target_run. intros d Ed. now rewrite Ed in Hreg.
Qed.

(** X19.  [initialize] itself (what its children do aside) never changes
    a file that exists: however the run ends, every file that was there
    before has the content it had, except the two credential files of
    the target directory when a host is given; in particular an entry
    file that exists is not overwritten by the template. *)
Theorem initialize_keeps_existing_files (w : World) (args : init_args) :
  exists w',
    final_world (initialize host args w) = Some w'
    /\ forall p content,
         (forall name, In name (rewritten_files args) ->
                       p <> init_target args w ++ [name]) ->
         path_lookup p (files w) = Some content ->
         path_lookup p (files w') = Some content.
Proof.
  unfold initialize.
  destruct (enter_target_cases w args) as [Hin | [new Hout]].
  - rewrite (bind_done _ _ _ _ _ Hin).
    set (target := init_target args w).
    set (w1 := with_cwd target (with_trace (trace w ++ enter_events args) w)).
    pose proof (initialize_project_keeps_files target args w1) as H.
    destruct (initialize_project host target args w1) as [[] w'|code w'|e w'|];
      cbn in H; try contradiction; destruct H as [_ H];
      exists w'; (split; [reflexivity | exact H]).
  - rewrite (bind_exit _ _ _ _ _ Hout). eexists. split; [reflexivity|].
    intros p content _ Hl. exact Hl.
Qed.

(** [initialize_finish] touches no section but [requirements]. *)
Lemma initialize_finish_keeps_sections (args : init_args) :
  ensures (changes (fun c c' => forall s, s <> "requirements" ->
                                          CP.lookup s c' = CP.lookup s c)
                   (fun _ => True))
          (initialize_finish host args).
Proof.
  set (P := fun c c' : CP.t => forall s, s <> "requirements" -> CP.lookup s c' = CP.lookup s c).
  assert (Pr : forall c, P c c) by (intros c s _; reflexivity).
  assert (Pt : forall c1 c2 c3, P c1 c2 -> P c2 c3 -> P c1 c3).
  { intros c1 c2 c3 H1 H2 s Hs. now rewrite H2, H1. }
  unfold initialize_finish, scaffold_entry_file.
  apply ok_bind; auto.
  { destruct (negb (init_bare args)); [|now apply ok_ret].
    apply ok_bind; auto; [now apply ok_os_isfile | intros present].
    destruct present; [now apply ok_error | now apply ok_write_file]. }
  intros _. apply ok_bind; auto.
  { destruct (init_git args); [|now apply ok_ret].
    apply ok_bind; auto; [now apply ok_subprocess_run | intros; now apply ok_ret]. }
  intros _. unfold initialize_downloads.
  apply ok_bind; auto; [now apply ok_msg | intros _].
  apply ok_bind; auto; [now apply ok_rpinst | intros res].
  apply ok_bind; auto; [now apply ok_expect_result | intros _].
  apply ok_bind; auto; [now apply ok_msg | intros _].
  apply ok_bind; auto; [now apply ok_rpinst | intros res'].
  apply ok_bind; auto; [now apply ok_expect_result | intros _].
  apply ok_install_package; auto.
  intros pkg x v _ s Hs. now apply SetFacts.lookup_set_other.
Qed.

(** [initialize] in a directory with a marker file, up to
    [initialize_finish]. *)
Lemma reinitialize_run (w : World) (c : CP.t) (args : init_args) :
  config w = Some c ->
  (forall d, init_directory args = Some d -> is_regular_file w d = false) ->
  marker_at w (init_target args w) <> None ->
  exists w5 c5 pre,
    initialize host args w = initialize_finish host args w5
    /\ config w5 = Some c5
    /\ trace w5 = trace w ++ pre /\ upgrades pre = []
    /\ cwd w5 = init_target args w
    /\ CP.lookup "execution" c5 = Some [("main", init_main args)]
    /\ (forall hostname, init_host args = Some hostname ->
          CP.lookup "auth" c5 = Some [("hostname", hostname)]
          /\ path_lookup (init_target args w ++ [".deploy_cfg"]) (files w5)
             = Some (auth_text hostname)
          /\ path_lookup (init_target args w ++ [".installer_cfg"]) (files w5)
             = Some (auth_text hostname)).
Proof.
  intros Hcfg Hdir Hmark. unfold initialize.
  rewrite (bind_done _ _ _ _ _ (enter_target_run host w args Hdir)).
  set (target := init_target args w) in *.
  set (w1 := with_cwd target (with_trace (trace w ++ enter_events args) w)).
  assert (Hcfg1 : config w1 = Some c) by exact Hcfg.
  assert (Hm1 : isfile_marker w1 = true).
  { unfold isfile_marker. change (marker_at w1 (cwd w1)) with (marker_at w target).
    destruct (marker_at w target); [reflexivity | congruence]. }
  rewrite initialize_project_finish. run. run. rewrite Hm1. run.
  match goal with
  | |- context [bind (cfg_setitem "execution" _) _ ?w0] => set (w2 := w0)
  end.
  assert (Hcfg2 : config w2 = Some c) by exact Hcfg.
  run.
  set (c3 := CP.setitem c "execution" [("main", init_main args)]).
  set (w3 := with_config (Some c3) w2).
  assert (Hex : CP.lookup "execution" c3 = Some [("main", init_main args)])
    by apply lookup_setitem_single.
  assert (Hup : forall m b x, upgrades (enter_events args ++ msg_events host m b x) = []).
  { intros m b x. rewrite upgrades_app, upgrades_msg_events.
    unfold enter_events. now destruct (init_directory args). }
  destruct (init_host args) as [hostname|] eqn:Hhost.
  - run. run.
    match goal with
    | |- context [bind (cfg_setitem "auth" _) _ ?w0] => set (w4 := w0)
    end.
    assert (Hcfg4 : config w4 = Some c3) by reflexivity.
    run.
    eexists _, _, _. split; [reflexivity|]. split; [reflexivity|].
    split; [cbn; rewrite <- !app_assoc; reflexivity|].
    split.
    { rewrite app_assoc, upgrades_app, Hup. reflexivity. }
    split; [reflexivity|]. split.
    { rewrite lookup_setitem_other by discriminate. exact Hex. }
    intros h [= <-]. split; [apply lookup_setitem_single|].
    cbn [files with_files with_trace with_config cwd with_cwd w4 w3 w2 w1]. split.
    + rewrite path_lookup_other by (intros E; apply app_inj_tail in E;
                                    destruct E as [_ E]; discriminate).
      apply path_lookup_same.
    + apply path_lookup_same.
  - run.
    eexists _, _, _. split; [reflexivity|]. split; [reflexivity|].
    split; [cbn; rewrite <- !app_assoc; reflexivity|].
    split; [apply Hup|].
    split; [reflexivity|]. split; [exact Hex|].
    intros h [=].
Qed.

(** X20.  [initialize --host H] in a directory with a marker file sets up
    the credentials before anything can fail: however the run ends
    afterwards (the pre-downloads are fatal when they fail), both
    credential files of the target directory hold the section [auth]
    with [hostname = H], section [auth] of the configuration holds just
    that host name, and section [execution] just the entry file.  (The
    host name and the entry file are to hold no percent sign, which the
    parser object would reject.) *)
Theorem reinitialize_writes_credentials
    (w : World) (c : CP.t) (args : init_args) (hostname : string) :
  config w = Some c ->
  (forall d, init_directory args = Some d -> is_regular_file w d = false) ->
  marker_at w (init_target args w) <> None ->
  init_host args = Some hostname ->
  PyStr.contains_char "%" hostname = false ->
  PyStr.contains_char "%" (init_main args) = false ->
  exists w' c',
    final_world (initialize host args w) = Some w'
    /\ config w' = Some c'
    /\ path_lookup (init_target args w ++ [".deploy_cfg"]) (files w')
       = Some (auth_text hostname)
    /\ path_lookup (init_target args w ++ [".installer_cfg"]) (files w')
       = Some (auth_text hostname)
    /\ CP.lookup "auth" c' = Some [("hostname", hostname)]
    /\ CP.lookup "execution" c' = Some [("main", init_main args)].
Proof.
  intros Hcfg Hdir Hmark Hhost _ _.
  destruct (reinitialize_run w c args Hcfg Hdir Hmark)
    as [w5 [c5 [pre [Hrun [Hcfg5 [_ [_ [Hcwd [Hex Hcred]]]]]]]]].
  destruct (Hcred hostname Hhost) as [Hauth [Hf1 Hf2]].
  rewrite Hrun.
  pose proof (initialize_finish_keeps_files [] args w5) as Hfiles.
  pose proof (initialize_finish_keeps_sections args w5) as Hsec.
  destruct (initialize_finish host args w5) as [[] w'|code w'|e w'|];
    cbn in Hfiles, Hsec; try contradiction;
    destruct Hfiles as [_ Hfiles];
    destruct (Hsec c5 Hcfg5) as [_ [_ [[c' [Hc' Hkeep]] _]]];
    exists w', c'; (split; [reflexivity|]); (split; [exact Hc'|]);
    (split; [apply Hfiles; [intros name [] | exact Hf1]|]);
    (split; [apply Hfiles; [intros name [] | exact Hf2]|]);
    (split; [rewrite Hkeep by discriminate; exact Hauth
            | rewrite Hkeep by discriminate; exact Hex]).
Qed.

(** The pre-downloads when one of them fails. *)
Lemma initialize_downloads_fatal (args : init_args) (w : World) :
  (forall t, returncode (child host t (installer_download_python host)) <> 0%Z)
  \/ (forall t, returncode (child host t (installer_download host "robotpy")) <> 0%Z) ->
  exists new,
    initialize_downloads host args w = Exit 1%Z (with_trace (trace w ++ new) w)
    /\ upgrades new = [].
Proof.
  intros Hfail. unfold initialize_downloads. run. run.
  change (sys_executable host :: "-m" :: "robotpy_installer" :: ["download-python"])
    with (installer_download_python host).
  rewrite ?bind_bind.
  match goal with
  | |- context [bind (expect_result host ?r ?m true) _ ?w0] => set (r1 := r); set (w1 := w0)
  end.
  destruct (returncode r1 =? 0)%Z eqn:E1.
  - destruct Hfail as [Hfail|Hfail].
    { apply Z.eqb_eq in E1. now apply Hfail in E1. }
    apply Z.eqb_eq in E1. erewrite bind_done by (apply expect_result_ok; exact E1).
    run. run.
    change (sys_executable host :: "-m" :: "robotpy_installer" :: ["download"; "robotpy"])
      with (installer_download host "robotpy").
    rewrite ?bind_bind.
    match goal with
    | |- context [bind (expect_result host ?r ?m true) _ ?w0] => set (r2 := r); set (w2 := w0)
    end.
    assert (E2 : (returncode r2 =? 0)%Z = false) by (apply Z.eqb_neq; apply Hfail).
    assert (Hexit : expect_result host r2
                      "Downloading robotpy for remote use failed unexpectedly" true w2
                    = Exit 1%Z (with_trace
                        (trace w2 ++ msg_events host
                           "fatal: Downloading robotpy for remote use failed unexpectedly"
                           true w2) w2)).
    { unfold expect_result. rewrite E2. cbn [negb]. apply fatal_run. }
    rewrite (bind_exit _ _ _ _ _ Hexit).
    eexists. split; [unfold w2, w1; rewrite !with_trace_twice; reflexivity|].
    rewrite !upgrades_app, !upgrades_msg_events. reflexivity.
  - assert (Hexit : expect_result host r1 "Downloading Python failed unexpectedly" true w1
                    = Exit 1%Z (with_trace
                        (trace w1 ++ msg_events host
                           "fatal: Downloading Python failed unexpectedly" true w1) w1)).
    { unfold expect_result. rewrite E1. cbn [negb]. apply fatal_run. }
    rewrite (bind_exit _ _ _ _ _ Hexit).
    eexists. split; [unfold w1; rewrite !with_trace_twice; reflexivity|].
    rewrite !upgrades_app, !upgrades_msg_events. reflexivity.
Qed.

(** The blocks of [initialize_finish] before the pre-downloads complete
    and install nothing. *)
Lemma initialize_finish_downloads (args : init_args) (w : World) :
  exists w1 new,
    initialize_finish host args w = initialize_downloads host args w1
    /\ trace w1 = trace w ++ new /\ upgrades new = [].
Proof.
  unfold initialize_finish, scaffold_entry_file.
  assert (Hgit : forall w0, exists w1 new,
            ((if init_git args
              then subprocess_run host ["git"; "init"] false ;; ret tt
              else ret tt) ;; initialize_downloads host args) w0
            = initialize_downloads host args w1
            /\ trace w1 = trace w0 ++ new /\ upgrades new = []).
  { intros w0. destruct (init_git args).
    - run. run. eexists _, _. split; [reflexivity|]. split; reflexivity.
    - run. exists w0, []. split; [reflexivity|]. split; [now rewrite app_nil_r | reflexivity]. }
  assert (Hjoin : forall w0 pre, trace w0 = trace w ++ pre -> upgrades pre = [] ->
            exists w1 new,
              ((if init_git args
                then subprocess_run host ["git"; "init"] false ;; ret tt
                else ret tt) ;; initialize_downloads host args) w0
              = initialize_downloads host args w1
              /\ trace w1 = trace w ++ new /\ upgrades new = []).
  { intros w0 pre Ht Hu. destruct (Hgit w0) as [w1 [new [H1 [H2 H3]]]].
    exists w1, (pre ++ new). split; [exact H1|]. split.
    - rewrite H2, Ht. now rewrite app_assoc.
    - now rewrite upgrades_app, Hu, H3. }
  destruct (negb (init_bare args)).
  - run. destruct (isfile w (init_main args)).
    + run. eapply Hjoin; [reflexivity | apply upgrades_msg_events].
    + run. eapply Hjoin; reflexivity.
  - run. apply (Hjoin w []); [now rewrite app_nil_r | reflexivity].
Qed.

(** X21.  A pre-download for the robot that fails ends [initialize] with
    status 1 before any package is installed.  In a directory with a
    marker file, when [robotpy_installer download-python] or
    [robotpy_installer download robotpy] ends with a non-zero status,
    the process exits with status 1, and none of the packages requested
    with [--with] has been handed to the package manager. *)
Theorem failed_predownload_ends_initialize
    (w : World) (c : CP.t) (args : init_args) :
  config w = Some c ->
  (forall d, init_directory args = Some d -> is_regular_file w d = false) ->
  marker_at w (init_target args w) <> None ->
  (forall t, returncode (child host t (installer_download_python host)) <> 0%Z)
  \/ (forall t, returncode (child host t (installer_download host "robotpy")) <> 0%Z) ->
  exists w' new,
    initialize host args w = Exit 1%Z w'
    /\ trace w' = trace w ++ new
    /\ upgrades new = [].
Proof.
  intros Hcfg Hdir Hmark Hfail.
  destruct (reinitialize_run w c args Hcfg Hdir Hmark)
    as [w5 [c5 [pre [Hrun [_ [Ht5 [Hu5 _]]]]]]].
  destruct (initialize_finish_downloads args w5) as [w6 [mid [Hrun6 [Ht6 Hu6]]]].
  destruct (initialize_downloads_fatal args w6 Hfail) as [new [Hexit Hu]].
  rewrite Hrun, Hrun6, Hexit.
  eexists _, (pre ++ mid ++ new). split; [reflexivity|]. split.
  - cbn [trace with_trace]. rewrite Ht6, Ht5. now rewrite <- !app_assoc.
  - now rewrite !upgrades_app, Hu5, Hu6, Hu.
Qed.

End InitializeFiles.

Lemma reinitialize_writes_credentials_witness :
  let w := loaded_process ["home"; "team"] small_project in
  let args := {| init_directory := None; init_main := "robot.py"; init_bare := false;
                 init_host := Some "10.0.0.2"; init_git := true; init_packages := [] |} in
  exists w' c',
    final_world (initialize offline_host args w) = Some w'
    /\ config w' = Some c'
    /\ path_lookup (init_target args w ++ [".deploy_cfg"])%list (files w')
       = Some (auth_text "10.0.0.2")
    /\ path_lookup (init_target args w ++ [".installer_cfg"])%list (files w')
       = Some (auth_text "10.0.0.2")
    /\ CP.lookup "auth" c' = Some [("hostname", "10.0.0.2")]
    /\ CP.lookup "execution" c' = Some [("main", init_main args)].
Proof.
  intros w args.
  apply (reinitialize_writes_credentials offline_host w small_project args "10.0.0.2").
  - reflexivity.
  - discriminate.
  - discriminate.
  - reflexivity.
  - reflexivity.
  - reflexivity.
Defined.

Lemma failed_predownload_ends_initialize_witness :
  let w := loaded_process ["home"; "team"] small_project in
  exists w' new,
    initialize offline_host init_with_foo w = Exit 1%Z w'
    /\ trace w' = (trace w ++ new)%list
    /\ upgrades new = [].
Proof.
  intros w.
  apply (failed_predownload_ends_initialize offline_host w small_project init_with_foo).
  - reflexivity.
  - discriminate.
  - discriminate.
  - left. intros t. simpl. discriminate.
Defined.

(* ===================================================================== *)
(** ** The dispatcher: a custom command named like a built-in one *)
(* ===================================================================== *)

Section Clash.
Import DictFacts ConfigFacts.
Variable host : Host.
Local Open Scope list_scope.

Lemma register_all_clash (names : list string) :
  forall (f : frame) (w : World),
    (exists n, In n names /\ In n (registered f)) ->
    exists what, register_all f names w = Raise (ArgumentError what) w.
Proof.
  induction names as [|n0 names IH]; intros f w [n [Hin Hreg]]; [destruct Hin|].
  cbn [register_all]. unfold register.
  destruct (PyStr.mem n0 (registered f)) eqn:Hmem.
  - eexists. reflexivity.
  - erewrite bind_done by reflexivity.
    apply IH. exists n. cbn [registered]. split.
    + destruct Hin as [<-|Hin]; [|exact Hin].
      apply mem_false in Hmem. contradiction.
    + apply in_or_app. now left.
Qed.

(** X22.  A custom command that bears the name of a built-in sub-command
    stops every run: with such an entry in section [command] of the
    marker file, the registration of the custom commands raises
    [ArgumentError] (the argument parser, since Python 3.11, refuses a
    sub-command name that is taken), whatever sub-command was asked for;
    the handler is not called and the marker file is not written. *)
Theorem clashing_custom_command_stops_every_run
    (w : World) (c : CP.t) (argv : command_line) (name : string) :
  argv <> NoArguments ->
  config w = None ->
  marker_at w (cwd w) = Some c ->
  In name (CP.option_names c "command") ->
  In name builtin_names ->
  exists what,
    main host argv w =
      Raise (ArgumentError what)
        (with_config (Some c) (with_trace (trace w ++ [EvRead (cwd w)]) w)).
Proof.
  intros Hargv Hnone Hmark Hname Hbuiltin.
  assert (Hsec : CP.has_section c "command" = true).
  { apply has_section_lookup. unfold CP.option_names in Hname.
    destruct (CP.lookup "command" c) as [opts|]; [eauto | destruct Hname]. }
  set (w0 := with_config (Some c) (with_trace (trace w ++ [EvRead (cwd w)]) w)).
  assert (Hcfg0 : config w0 = Some c) by reflexivity.
  destruct (register_all_clash (CP.option_names c "command")
              {| command := None; registered := builtin_names |} w0) as [what Hraise].
  { exists name. split; assumption. }
  exists what.
  destruct argv as [|verbose args|verbose cmd rest]; [congruence| |]; unfold main;
    rewrite (bind_done _ _ _ _ _ (load_config_fresh w c Hnone Hmark)); fold w0;
    run; rewrite Hsec; rewrite ?bind_bind; run; run; rewrite ?bind_bind;
    now rewrite (bind_raise _ _ _ _ _ Hraise).
Qed.

End Clash.

Lemma clashing_custom_command_stops_every_run_witness :
  let c := [("requirements", [("robotpy", "2024.3.2")]);
            ("command", [("lint", "ruff check"); ("install", "pip install -e .")])] in
  let w := fresh_process ["home"; "team"] [(["home"; "team"], c)] in
  exists what,
    main demo_host (Builtin 1 (Deploy {| deploy_code := true; deploy_lib := true |})) w =
      Raise (ArgumentError what)
        (with_config (Some c) (with_trace (trace w ++ [EvRead (cwd w)])%list w)).
Proof.
  intros c w.
  apply (clashing_custom_command_stops_every_run demo_host w c _ "install").
  - discriminate.
  - reflexivity.
  - reflexivity.
  - right. now left.
  - right. right. now left.
Defined.

(* ===================================================================== *)
(** ** The project locator: where it stops *)
(* ===================================================================== *)

Section LocatorWalk.
Variable host : Host.
Local Open Scope list_scope.

Lemma dirname_app (p : path) (x : string) : dirname (p ++ [x]) = p.
Proof. unfold dirname. apply removelast_last. Qed.

Lemma has_marker_with_cwd (w : World) (d p : path) :
  has_marker (with_cwd d w) p = has_marker w p.
Proof. reflexivity. Qed.

(** One more iteration than needed changes nothing. *)
Lemma move_loop_more (fuel : nat) :
  forall w, move_loop host fuel w <> OutOfFuel ->
            move_loop host (S fuel) w = move_loop host fuel w.
Proof.
  induction fuel as [|fuel IH]; intros w Hdone.
  - rewrite move_loop_step. cbn [move_loop] in *.
    destruct (isfile_marker w); [reflexivity | congruence].
  - rewrite (move_loop_step host (S fuel) w).
    rewrite (move_loop_step host fuel w) in Hdone.
    rewrite (move_loop_step host fuel w).
    destruct (isfile_marker w); [reflexivity|].
    destruct (path_eqb _ _); [reflexivity|]. now apply IH.
Qed.

(** X23.  The loop of the locator terminates: from any directory, one
    iteration more than the directory is deep is enough, and any larger
    number of iterations gives the same result. *)
Theorem locator_loop_terminates (w : World) (fuel : nat) :
  length (cwd w) < fuel ->
  move_loop host fuel w = move_to_robotpy_dir host w
  /\ move_to_robotpy_dir host w <> OutOfFuel.
Proof.
  intros Hfuel. split; [|apply move_to_robotpy_dir_total].
  replace fuel with ((fuel - S (length (cwd w))) + S (length (cwd w))) by lia.
  generalize (fuel - S (length (cwd w))) as k.
  induction k as [|k IH]; [reflexivity|].
  cbn [Nat.add]. rewrite move_loop_more; [exact IH|].
  rewrite IH. apply move_to_robotpy_dir_total.
Qed.

(** Walking up through directories without a marker file. *)
Lemma locator_walk (root : path) (rest : path) :
  forall w,
    cwd w = root ++ rest ->
    root <> [] ->
    (forall j, 0 < j <= length rest -> has_marker w (root ++ firstn j rest) = false) ->
    move_to_robotpy_dir host w = move_to_robotpy_dir host (with_cwd root w).
Proof.
  induction rest as [|x rest IH] using rev_ind; intros w Hcwd Hroot Hnone.
  - rewrite app_nil_r in Hcwd. rewrite <- Hcwd. now rewrite with_cwd_same.
  - assert (Hhere : isfile_marker w = false).
    { rewrite <- (has_marker_isfile w _ Hcwd).
      rewrite <- (firstn_all (rest ++ [x])) at 1.
      apply Hnone. rewrite length_app. cbn. lia. }
    assert (Hup : dirname (cwd w) = root ++ rest).
    { rewrite Hcwd, app_assoc. apply dirname_app. }
    assert (Hnot_root : path_eqb (dirname (dirname (cwd w))) (dirname (cwd w)) = false).
    { destruct (path_eqb _ _) eqn:E; [|reflexivity].
      apply dirname_fixed in E. rewrite Hup in E.
      apply app_eq_nil in E. destruct E as [E _]. contradiction. }
    unfold move_to_robotpy_dir at 1. rewrite move_loop_step, Hhere, Hnot_root.
    assert (Hlen : length (cwd w) = S (length (cwd (with_cwd (dirname (cwd w)) w)))).
    { cbn [cwd with_cwd]. rewrite Hup, Hcwd, !length_app. cbn. lia. }
    rewrite Hlen.
    change (move_loop host (S (length (cwd (with_cwd (dirname (cwd w)) w))))
              (with_cwd (dirname (cwd w)) w))
      with (move_to_robotpy_dir host (with_cwd (dirname (cwd w)) w)).
    rewrite (IH (with_cwd (dirname (cwd w)) w)).
    + reflexivity.
    + exact Hup.
    + exact Hroot.
    + intros j Hj. rewrite has_marker_with_cwd.
      replace (firstn j rest) with (firstn j (rest ++ [x])).
      * apply Hnone. rewrite length_app. cbn. lia.
      * rewrite firstn_app. replace (j - length rest) with 0 by lia.
        cbn. now rewrite app_nil_r.
Qed.

(** X24.  Started in a project, below the filesystem root, the locator
    ends in the project root: when [root], not the filesystem root, is
    the working directory or one of its ancestors and holds a marker
    file, and no directory between it and the working directory (the
    latter included) does, the locator completes with the working
    directory changed to [root] and nothing else: it prints nothing and
    starts nothing. *)
Theorem locator_enters_the_project_root (w : World) (root rest : path) :
  cwd w = root ++ rest ->
  root <> [] ->
  has_marker w root = true ->
  (forall j, 0 < j <= length rest -> has_marker w (root ++ firstn j rest) = false) ->
  move_to_robotpy_dir host w = Done tt (with_cwd root w).
Proof.
  intros Hcwd Hroot Hmark Hnone.
  rewrite (locator_walk root rest w Hcwd Hroot Hnone).
  apply move_to_robotpy_dir_at_root. exact Hmark.
Qed.

(** X25.  Started outside any project, the locator gives up at the
    filesystem root: when neither the working directory nor any ancestor
    below the filesystem root holds a marker file (nor the filesystem
    root, if that is where the process starts), the message that the
    directory is not in a project is printed to the error stream, as the
    verbosity allows, and the process exits with status 1, its working
    directory being the filesystem root. *)
Theorem locator_gives_up_at_the_filesystem_root (w : World) :
  (forall j, 0 < j <= length (cwd w) -> has_marker w (firstn j (cwd w)) = false) ->
  (cwd w = [] -> has_marker w [] = false) ->
  move_to_robotpy_dir host w =
    Exit 1%Z (with_trace (trace w ++ msg_events host ("fatal: " ++ not_in_project) true w)
                (with_cwd [] w)).
Proof.
  intros Hnone Hroot.
  assert (Hlast : forall w0, length (cwd w0) <= 1 -> isfile_marker w0 = false ->
            move_to_robotpy_dir host w0 =
              Exit 1%Z (with_trace
                          (trace w0 ++ msg_events host ("fatal: " ++ not_in_project) true w0)
                          (with_cwd [] w0))).
  { intros w0 Hlen Hhere. unfold move_to_robotpy_dir. rewrite move_loop_step, Hhere.
    assert (Hd : dirname (cwd w0) = []).
    { destruct (cwd w0) as [|a [|b p]]; [reflexivity | reflexivity | cbn in Hlen; lia]. }
    rewrite Hd. cbn [dirname removelast]. rewrite path_eqb_refl. now rewrite fatal_run. }
  destruct (cwd w) as [|a rest] eqn:Hcwd.
  - apply Hlast; [rewrite Hcwd; cbn; lia|].
    rewrite <- (has_marker_isfile w [] Hcwd). now apply Hroot.
  - rewrite (locator_walk [a] rest w Hcwd); [|discriminate|].
    + rewrite Hlast; [reflexivity | cbn; lia |].
      unfold isfile_marker. cbn [cwd with_cwd].
      change (match marker_at (with_cwd [a] w) [a] with Some _ => true | None => false end)
        with (has_marker w [a]).
      apply (Hnone 1). cbn. lia.
    + intros j Hj. apply (Hnone (S j)). cbn. lia.
Qed.

End LocatorWalk.

Lemma locator_loop_terminates_witness :
  let w := fresh_process ["home"; "team"; "src"] [(["home"; "team"], small_project)] in
  move_loop demo_host 10 w = move_to_robotpy_dir demo_host w
  /\ move_to_robotpy_dir demo_host w <> OutOfFuel.
Proof.
  intros w. apply (locator_loop_terminates demo_host w 10). simpl. lia.
Defined.

Lemma locator_enters_the_project_root_witness :
  let w := fresh_process ["home"; "team"; "src"; "lib"] [(["home"; "team"], small_project)] in
  move_to_robotpy_dir demo_host w = Done tt (with_cwd ["home"; "team"] w).
Proof.
  intros w.
  apply (locator_enters_the_project_root demo_host w ["home"; "team"] ["src"; "lib"]).
  - reflexivity.
  - discriminate.
  - reflexivity.
  - intros j Hj. simpl in Hj.
    destruct j as [|[|[|j]]]; [lia | reflexivity | reflexivity | lia].
Defined.

Lemma locator_gives_up_at_the_filesystem_root_witness :
  let w := fresh_process ["home"; "team"] [(["srv"; "robot"], small_project)] in
  move_to_robotpy_dir demo_host w =
    Exit 1%Z (with_trace
                (trace w ++ msg_events demo_host ("fatal: " ++ not_in_project) true w)%list
                (with_cwd [] w)).
Proof.
  intros w.
  apply (locator_gives_up_at_the_filesystem_root demo_host w).
  - intros j Hj. simpl in Hj.
    destruct j as [|[|[|j]]]; [lia | reflexivity | reflexivity | lia].
  - discriminate.
Defined.

(* ===================================================================== *)
(** ** What the handlers leave alone *)
(* ===================================================================== *)

Section HandlersFrame.
Variable host : Host.
Local Open Scope list_scope.

(** X26.  Of the built-in handlers only [initialize] writes files: a run
    of [install], [update], [remove], [deploy] or [config], however it
    ends, writes no file of its own, the marker file included (that is
    written by the dispatcher, after the handler), and leaves the
    verbosity as the dispatcher set it. *)
Theorem only_initialize_writes_files (w : World) (args : builtin_args) :
  not_initialize args ->
  exists w',
    final_world (run_builtin host args w) = Some w'
    /\ files w' = files w
    /\ markers w' = markers w
    /\ verbose_level w' = verbose_level w.
Proof.
  intros Hargs.
  set (R := fun w0 w1 : World =>
              files w1 = files w0 /\ markers w1 = markers w0
              /\ verbose_level w1 = verbose_level w0).
  assert (H : ensures R (run_builtin host args)).
  { apply (fr_run_handler R (fun _ _ => True)); unfold R; auto.
    - intros w1 w2 w3 [F1 [M1 V1]] [F2 [M2 V2]]. repeat split; congruence. }
  specialize (H w).
  destruct (run_builtin host args w) as [[] w'|code w'|e w'|]; cbn in H;
    try contradiction; exists w'; (split; [reflexivity | exact H]).
Qed.

End HandlersFrame.

Lemma only_initialize_writes_files_witness :
  let w := loaded_process ["home"; "team"] small_project in
  let args := Install {| install_download := true; install_packages := ["foo"] |} in
  exists w',
    final_world (run_builtin demo_host args w) = Some w'
    /\ files w' = files w
    /\ markers w' = markers w
    /\ verbose_level w' = verbose_level w.
Proof.
  intros w args. apply (only_initialize_writes_files demo_host w args). exact I.
Defined.
